(** * LogDot Node SDK: delivery and batching subsystem

    A shallow embedding of the TypeScript sources

      - [src/utils.ts]                      (module [Utils])
      - [src/http.ts]                       (module [Http])
      - [src/logger.ts]                     (module [Logger])
      - [src/metrics.ts]                    (module [Metrics])
      - [src/console-capture.ts]            (module [Capture])
      - [src/exporters/metric-exporter.ts]  (module [Exporter])
      - [src/exporters/span-exporter.ts]    (module [SpanExporter])

    followed by the properties proved about them.

    Conventions of the embedding.

    - A JavaScript string is the list of its UTF-16 code units; program
      literals are injected with [lit].
    - A JavaScript number that the code uses as a count, an index or a
      status is a [Z].  A number the code computes with (a delay, a
      histogram field, a duration) is an IEEE 754 binary64 value, module
      [Double].  A number the code only hands on (a metric value given to
      the bound client, a timeout, a number inside a tag) is the rational
      it stands for.
    - An object used as a mapping is a [gmap]; an object whose entries are
      enumerated in order, and every JSON payload, is an association list.
    - A method that assigns to [this] returns the new receiver; a method
      that talks to the outside threads a [World], which scripts what the
      network and the random source will answer and records what the code
      asked of them.
    - An [async] method is run to completion: its result is either the
      value the promise fulfils with or the value it rejects with. *)

From Stdlib Require Import ZArith QArith List String Ascii Lia Bool.
From Stdlib Require Import Floats.SpecFloat.
From stdpp Require Import base gmap strings list.
Import ListNotations.
Open Scope Z_scope.

(* ================================================================== *)
(** * Numbers the code computes with *)
(* ================================================================== *)

(** A JavaScript number is an IEEE 754 binary64 value.  The arithmetic is
    that of the Standard Library's executable specification of
    floating-point numbers at precision 53 and maximal exponent 1024:
    every result is rounded to the nearest value, ties to even, and there
    are two infinities, two zeros and NaN. *)
Module Double.

Definition prec : Z := 53.
Definition emax : Z := 1024.

Abbreviation t := spec_float (only parsing).

Definition NaN : t := S754_nan.
Definition zero : t := S754_zero false.

(** The number an integer literal is, and the number that holds an
    integer: the nearest value, the integer itself below [2^53]. *)
Definition of_Z (z : Z) : t := binary_normalize prec emax z 0 false.

Definition add : t -> t -> t := SFadd prec emax.
Definition sub : t -> t -> t := SFsub prec emax.
Definition mul : t -> t -> t := SFmul prec emax.
Definition div : t -> t -> t := SFdiv prec emax.

(** [a < b] and [a <= b]: false as soon as one side is NaN. *)
Definition ltb (a b : t) : bool := SFltb a b.
Definition leb (a b : t) : bool := SFleb a b.

(** A decimal literal such as [0.3], written [decimal 3 10]: the value
    nearest to the fraction. *)
Definition decimal (num den : Z) : t := div (of_Z num) (of_Z den).

(** [Math.pow(2, n)] for an integer [n]. *)
Definition pow2 (n : Z) : t := binary_normalize prec emax 1 n false.

(** [Math.min(a, b)]: NaN when either is, and [-0] below [+0]. *)
Definition min (a b : t) : t :=
  match a, b with
  | S754_nan, _ | _, S754_nan => S754_nan
  | S754_zero sa, S754_zero sb => S754_zero (sa || sb)
  | _, _ => if ltb b a then b else a
  end.

(** [Math.round(x)]: the integer nearest to [x], the upper one of two
    equally near; NaN, the infinities and the zeros are returned as they
    are, and a value in [[-0.5, 0)] gives [-0]. *)
Definition round (x : t) : t :=
  match x with
  | S754_finite s m e =>
      if 0 <=? e then x
      else
        let n := if s then Z.neg m else Z.pos m in
        let r := (2 * n + 2 ^ (- e)) / 2 ^ (1 - e) in
        if r =? 0 then S754_zero s else of_Z r
  | _ => x
  end.

(** Is the value one of the format, its mantissa in shape?  Every number
    of a JavaScript program is. *)
Definition valid (x : t) : bool := valid_binary prec emax x.

(** Is the value a number other than NaN and the infinities? *)
Definition finite (x : t) : bool :=
  match x with
  | S754_zero _ | S754_finite _ _ _ => true
  | S754_infinity _ | S754_nan => false
  end.

(** The rational a finite number is; [None] for NaN and the infinities. *)
Definition value (x : t) : option Q :=
  match x with
  | S754_zero _ => Some 0%Q
  | S754_finite s m e =>
      let n := if s then Z.neg m else Z.pos m in
      Some (if 0 <=? e then inject_Z (n * 2 ^ e) else Qmake n (Z.to_pos (2 ^ (- e))))
  | S754_infinity _ | S754_nan => None
  end.

End Double.

(* ================================================================== *)
(** * Values shared by all modules *)
(* ================================================================== *)

(** A string, as its UTF-16 code units. *)
Abbreviation JsString := (list Z) (only parsing).

(** A program literal (ASCII) as a JavaScript string. *)
Definition lit (s : string) : JsString :=
  map (fun a => Z.of_N (N_of_ascii a)) (list_ascii_of_string s).
Arguments lit : simpl never.

(** JSON-serialisable values: the [unknown] of tags, contexts and bodies. *)
#[warnings="-register-all"]
Inductive Json :=
| JNull
| JBool (b : bool)
| JNum (q : Q)
| JStr (s : JsString)
| JArr (items : list Json)
| JObj (fields : list (JsString * Json)).

(** A number the code computed, inside a payload: [JSON.stringify] writes
    [null] for NaN and for the infinities. *)
Definition number_json (x : Double.t) : Json :=
  match Double.value x with
  | Some q => JNum q
  | None => JNull
  end.

(** [Record<string, unknown>] used as a mapping. *)
Abbreviation Obj := (gmap JsString Json) (only parsing).

(** Object spread [{...o1, ...o2, ...}]: later objects win. *)
Definition spread (objs : list Obj) : Obj :=
  foldl (fun acc o => o ∪ acc) ∅ objs.

(** [Object.keys(o).length]. *)
Definition keys_length (o : Obj) : Z := Z.of_nat (size o).

(** The object as it is serialised inside a payload.  The fields come in
    the order [map_to_list] gives, not in the insertion order of the
    JavaScript object: the properties state what such an object holds with
    [object_of], up to the order of its keys. *)
Definition json_of_obj (o : Obj) : Json := JObj (map_to_list o).

(** Does a payload object carry the key? *)
Definition has_key (k : JsString) (j : Json) : bool :=
  match j with
  | JObj fields => existsb (fun kv => bool_decide (fst kv = k)) fields
  | _ => false
  end.

(** Property access [j.k] on a parsed body; [None] stands for [undefined]. *)
Definition json_get (k : JsString) (j : Json) : option Json :=
  match j with
  | JObj fields => snd <$> find (fun kv => bool_decide (fst kv = k)) fields
  | _ => None
  end.

(** JavaScript truthiness of a JSON value. *)
Definition truthy (j : Json) : bool :=
  match j with
  | JNull => false
  | JBool b => b
  | JNum q => negb (Qeq_bool q 0)
  | JStr s => negb (bool_decide (s = []))
  | JArr _ | JObj _ => true
  end.

(** What a [throw] carries. [executeWithRetry] can throw [null]. *)
Record JsError := { err_name : JsString; err_message : JsString }.

Inductive Thrown :=
| ThrownNull
| ThrownError (e : JsError).

(** Reading [.message] off [null] raises a [TypeError]. *)
Definition null_message : JsError :=
  {| err_name := lit "TypeError";
     err_message := lit "Cannot read properties of null (reading 'message')" |}.

Definition message_of (t : Thrown) : Thrown + JsString :=
  match t with
  | ThrownNull => inl (ThrownError null_message)
  | ThrownError e => inr (err_message e)
  end.

(** The host functions the sources call for rendering values as text. *)
Class Platform := {
  JSON_stringify : Json -> JsString;
  Number_toString : Q -> JsString;
  String_of : Json -> JsString;
  encodeURIComponent : JsString -> JsString
}.

(** [`${x}`] for a number the code computed. *)
Definition number_text `{Platform} (x : Double.t) : JsString :=
  match x with
  | S754_nan => lit "NaN"
  | S754_infinity false => lit "Infinity"
  | S754_infinity true => lit "-Infinity"
  | S754_zero _ | S754_finite _ _ _ => Number_toString (default 0%Q (Double.value x))
  end.

(** [LogLevel] of [types.ts]. *)
Inductive LogLevel := Debug | Info | Warn | Error.

Definition level_name (l : LogLevel) : JsString :=
  match l with
  | Debug => lit "debug"
  | Info => lit "info"
  | Warn => lit "warn"
  | Error => lit "error"
  end.

(* ================================================================== *)
(** * [utils.ts] *)
(* ================================================================== *)

Module Utils.

(** ** The host's text codecs

    [TextEncoder.encode] and [TextDecoder.decode] (constructed with no
    options: UTF-8, not fatal, [ignoreBOM] false) after the WHATWG Encoding
    standard.  Shifts and masks by constants are written as divisions and
    remainders. *)

Definition is_high_surrogate (u : Z) : bool := (0xD800 <=? u) && (u <=? 0xDBFF).
Definition is_low_surrogate (u : Z) : bool := (0xDC00 <=? u) && (u <=? 0xDFFF).

Definition REPLACEMENT : Z := 0xFFFD.
Definition BOM : Z := 0xFEFF.

(** Code units to scalar values; an unpaired surrogate becomes U+FFFD. *)
Fixpoint code_points (s : JsString) : list Z :=
  match s with
  | [] => []
  | u :: rest =>
      if is_high_surrogate u then
        match rest with
        | v :: rest' =>
            if is_low_surrogate v
            then (0x10000 + (u - 0xD800) * 0x400 + (v - 0xDC00)) :: code_points rest'
            else REPLACEMENT :: code_points rest
        | [] => [REPLACEMENT]
        end
      else if is_low_surrogate u then REPLACEMENT :: code_points rest
      else u :: code_points rest
  end.

(** One scalar value as UTF-16. *)
Definition utf16_of_cp (c : Z) : JsString :=
  if c <? 0x10000 then [c]
  else [0xD800 + (c - 0x10000) / 0x400; 0xDC00 + (c - 0x10000) mod 0x400].

Definition utf16 (cps : list Z) : JsString := flat_map utf16_of_cp cps.

(** One scalar value as UTF-8. *)
Definition utf8_of_cp (c : Z) : list Z :=
  if c <? 0x80 then [c]
  else if c <? 0x800 then [0xC0 + c / 64; 0x80 + c mod 64]
  else if c <? 0x10000 then
    [0xE0 + c / 4096; 0x80 + (c / 64) mod 64; 0x80 + c mod 64]
  else
    [0xF0 + c / 262144; 0x80 + (c / 4096) mod 64;
     0x80 + (c / 64) mod 64; 0x80 + c mod 64].

Definition utf8 (cps : list Z) : list Z := flat_map utf8_of_cp cps.

(** [new TextEncoder().encode(str)]. *)
Definition TextEncoder_encode (str : JsString) : list Z :=
  utf8 (code_points str).

(** The UTF-8 decoder's state. *)
Record Utf8Decoder := {
  code_point : Z;
  bytes_seen : Z;
  bytes_needed : Z;
  lower_boundary : Z;
  upper_boundary : Z
}.

Definition decoder_init : Utf8Decoder :=
  {| code_point := 0; bytes_seen := 0; bytes_needed := 0;
     lower_boundary := 0x80; upper_boundary := 0xBF |}.

(** A byte read when no sequence is open. *)
Definition decoder_lead (b : Z) : Utf8Decoder * list Z :=
  if b <=? 0x7F then (decoder_init, [b])
  else if (0xC2 <=? b) && (b <=? 0xDF) then
    ({| code_point := b mod 32; bytes_seen := 0; bytes_needed := 1;
        lower_boundary := 0x80; upper_boundary := 0xBF |}, [])
  else if (0xE0 <=? b) && (b <=? 0xEF) then
    ({| code_point := b mod 16; bytes_seen := 0; bytes_needed := 2;
        lower_boundary := if b =? 0xE0 then 0xA0 else 0x80;
        upper_boundary := if b =? 0xED then 0x9F else 0xBF |}, [])
  else if (0xF0 <=? b) && (b <=? 0xF4) then
    ({| code_point := b mod 8; bytes_seen := 0; bytes_needed := 3;
        lower_boundary := if b =? 0xF0 then 0x90 else 0x80;
        upper_boundary := if b =? 0xF4 then 0x8F else 0xBF |}, [])
  else (decoder_init, [REPLACEMENT]).

(** One byte through the decoder: the new state and the code points
    emitted.  A byte that breaks an open sequence yields U+FFFD and is
    then read again as a lead byte. *)
Definition decoder_step (d : Utf8Decoder) (b : Z) : Utf8Decoder * list Z :=
  if bytes_needed d =? 0 then decoder_lead b
  else if (b <? lower_boundary d) || (upper_boundary d <? b) then
    let '(d', out) := decoder_lead b in (d', REPLACEMENT :: out)
  else
    let cp := code_point d * 64 + b mod 64 in
    if bytes_seen d + 1 =? bytes_needed d then (decoder_init, [cp])
    else ({| code_point := cp; bytes_seen := bytes_seen d + 1;
             bytes_needed := bytes_needed d;
             lower_boundary := 0x80; upper_boundary := 0xBF |}, []).

Fixpoint utf8_decode (d : Utf8Decoder) (bytes : list Z) : list Z :=
  match bytes with
  | [] => if bytes_needed d =? 0 then [] else [REPLACEMENT]
  | b :: rest =>
      let '(d', out) := decoder_step d b in out ++ utf8_decode d' rest
  end.

(** With [ignoreBOM] false a leading U+FEFF is not part of the output. *)
Definition strip_bom (cps : list Z) : list Z :=
  match cps with
  | c :: rest => if c =? BOM then rest else cps
  | [] => []
  end.

(** [new TextDecoder().decode(bytes)]. *)
Definition TextDecoder_decode (bytes : list Z) : JsString :=
  utf16 (strip_bom (utf8_decode decoder_init bytes)).

(** ** [truncateBytes] *)

Definition MAX_MESSAGE_BYTES : Z := 16000.

Definition TRUNCATED : JsString := lit "... [truncated]".

(** [encoded[i]]; [None] is [undefined]. *)
Definition byte_at (encoded : list Z) (i : Z) : option Z :=
  if i <? 0 then None else nth_error encoded (Z.to_nat i).

(** [(encoded[i] & 0xc0) === 0x80]; [undefined & 0xc0] is [0]. *)
Definition is_continuation (b : option Z) : bool :=
  match b with
  | Some v => Z.land v 0xC0 =? 0x80
  | None => false
  end.

(** The loop [while (end > 0 && (encoded[end] & 0xc0) === 0x80) end--],
    unrolled [fuel] times. *)
Fixpoint walk_back (encoded : list Z) (fuel : nat) (end_ : Z) : Z :=
  match fuel with
  | O => end_
  | S fuel' =>
      if (0 <? end_) && is_continuation (byte_at encoded end_)
      then walk_back encoded fuel' (end_ - 1)
      else end_
  end.

(** [encoded.slice(0, end)]: a negative [end] counts from the back. *)
Definition slice0 (encoded : list Z) (end_ : Z) : list Z :=
  let len := Z.of_nat (length encoded) in
  let e := if end_ <? 0 then Z.max (len + end_) 0 else Z.min end_ len in
  firstn (Z.to_nat e) encoded.

(** [truncateBytes(str, maxBytes)], for a budget that is an integer.  The
    loop leaves [end] at most [maxBytes] steps below where it starts, so
    that many unrollings run it to its end. *)
Definition truncateBytes (str : JsString) (maxBytes : Z) : JsString :=
  let encoded := TextEncoder_encode str in
  if Z.of_nat (length encoded) <=? maxBytes then str
  else
    let end_ := walk_back encoded (Z.to_nat maxBytes) maxBytes in
    TextDecoder_decode (slice0 encoded end_) ++ TRUNCATED.

(** [truncateBytes(str)] with the default budget. *)
Definition truncateBytes_default (str : JsString) : JsString :=
  truncateBytes str MAX_MESSAGE_BYTES.

End Utils.

(* ================================================================== *)
(** * The outside world *)
(* ================================================================== *)

Inductive Method := POST | GET.

(** What [fetch] is handed: method, URL, headers and the value whose
    serialisation is the body. *)
Record Request := {
  method : Method;
  url : JsString;
  headers : list (JsString * JsString);
  body : option Json
}.

(** What one [fetch] comes to.  A rejection covers connection errors, the
    abort raised by the per-attempt timeout and a failure to read the
    body.  A response carries its status and its body as [JSON.parse]
    returns it, [None] when the text is empty or is not JSON. *)
Inductive FetchOutcome :=
| Rejects (e : JsError)
| Responds (status : Z) (data : option Json).

Record World := {
  network : list FetchOutcome;  (** answers to the coming [fetch] calls *)
  entropy : list Double.t;      (** coming values of [Math.random] *)
  wire : list Request;          (** requests handed to [fetch], oldest first *)
  slept : list Double.t;        (** delays handed to [sleep], oldest first *)
  console : list JsString       (** lines written with [console.log] *)
}.

Definition network_down : JsError :=
  {| err_name := lit "TypeError"; err_message := lit "fetch failed" |}.

(** A computation that may throw and that acts on the world. *)
Definition Eff (A : Type) : Type := World -> (Thrown + A) * World.

Definition ret {A} (a : A) : Eff A := fun w => (inr a, w).

Definition throw {A} (t : Thrown) : Eff A := fun w => (inl t, w).

Definition bind {A B} (m : Eff A) (k : A -> Eff B) : Eff B :=
  fun w =>
    match m w with
    | (inr a, w') => k a w'
    | (inl t, w') => (inl t, w')
    end.

Definition lift {A} (r : Thrown + A) : Eff A := fun w => (r, w).

Declare Scope eff_scope.
Delimit Scope eff_scope with eff.
Notation "x <- m ;; k" := (bind m (fun x => k))
  (at level 100, m at next level, right associativity) : eff_scope.
Notation "m ;; k" := (bind m (fun _ => k))
  (at level 100, right associativity) : eff_scope.

Definition console_log (line : JsString) : Eff unit :=
  fun w =>
    (inr tt,
     {| network := network w; entropy := entropy w; wire := wire w;
        slept := slept w; console := console w ++ [line] |}).

Definition Math_random : Eff Double.t :=
  fun w =>
    match entropy w with
    | r :: rest =>
        (inr r,
         {| network := network w; entropy := rest; wire := wire w;
            slept := slept w; console := console w |})
    | [] => (inr Double.zero, w)
    end.

Definition fetch (req : Request) : Eff (Z * option Json) :=
  fun w =>
    let sent rest :=
      {| network := rest; entropy := entropy w; wire := wire w ++ [req];
         slept := slept w; console := console w |} in
    match network w with
    | Responds status data :: rest => (inr (status, data), sent rest)
    | Rejects e :: rest => (inl (ThrownError e), sent rest)
    | [] => (inl (ThrownError network_down), sent [])
    end.

(* ================================================================== *)
(** * [http.ts] *)
(* ================================================================== *)

Module Http.

Section WithPlatform.
Context `{Platform}.
Local Open Scope eff_scope.

Definition BASE_LOGS_URL : JsString := lit "https://logs.logdot.io/api/v1".
Definition BASE_METRICS_URL : JsString := lit "https://metrics.logdot.io/api/v1".

(** [RetryConfig] of [types.ts]. *)
Record RetryConfig := {
  maxAttempts : Z;
  baseDelayMs : Double.t;
  maxDelayMs : Double.t
}.

(** [Partial<RetryConfig>]. *)
Record PartialRetryConfig := {
  retry_maxAttempts : option Z;
  retry_baseDelayMs : option Double.t;
  retry_maxDelayMs : option Double.t
}.

Record HttpClientConfig := {
  cfg_apiKey : JsString;
  cfg_timeout : option Q;
  cfg_debug : option bool;
  cfg_retry : option PartialRetryConfig
}.

(** [HttpResponse<T>] of [types.ts]. *)
Record HttpResponse := {
  status : Z;
  data : option Json
}.

Record HttpClient := {
  apiKey : JsString;
  timeout : Q;
  debugEnabled : bool;
  retryConfig : RetryConfig
}.

(** [new HttpClient(config)]. *)
Definition new_HttpClient (config : HttpClientConfig) : HttpClient :=
  {| apiKey := cfg_apiKey config;
     timeout := default 5000%Q (cfg_timeout config);
     debugEnabled := default false (cfg_debug config);
     retryConfig :=
       {| maxAttempts := default 3 (cfg_retry config ≫= retry_maxAttempts);
          baseDelayMs :=
            default (Double.of_Z 1000) (cfg_retry config ≫= retry_baseDelayMs);
          maxDelayMs :=
            default (Double.of_Z 30000) (cfg_retry config ≫= retry_maxDelayMs) |} |}.

(** [log]. *)
Definition log (c : HttpClient) (message : JsString) : Eff unit :=
  if debugEnabled c then console_log (lit "[LogDot] " ++ message) else ret tt.

(** [sleep]: the loop resumes once the delay has passed. *)
Definition sleep (ms : Double.t) : Eff unit :=
  fun w =>
    (inr tt,
     {| network := network w; entropy := entropy w; wire := wire w;
        slept := slept w ++ [ms]; console := console w |}).

(** [calculateBackoff]. *)
Definition calculateBackoff (c : HttpClient) (attempt : Z) : Eff Double.t :=
  let delay := Double.mul (baseDelayMs (retryConfig c)) (Double.pow2 attempt) in
  r <- Math_random ;;
  let jitter := Double.mul (Double.mul r (Double.decimal 3 10)) delay in
  ret (Double.min (Double.add delay jitter) (maxDelayMs (retryConfig c))).

(** The body of the [catch] in [executeWithRetry]. *)
Definition after_failure (c : HttpClient) (attempt : Z) (lastError : Thrown) : Eff unit :=
  if attempt <? maxAttempts (retryConfig c) - 1 then
    delay <- calculateBackoff c attempt ;;
    message <- lift (message_of lastError) ;;
    log c (lit "Retry " ++ Number_toString (inject_Z (attempt + 1)) ++ lit "/"
           ++ Number_toString (inject_Z (maxAttempts (retryConfig c)))
           ++ lit " after " ++ number_text delay ++ lit "ms - Error: "
           ++ message) ;;
    sleep delay
  else ret tt.

(** The [for] loop of [executeWithRetry] with [remaining] iterations to
    go, [attempt] being the loop variable. *)
Fixpoint retry_loop {T} (c : HttpClient) (fn : Eff T)
    (remaining : nat) (attempt : Z) (lastError : Thrown) : Eff T :=
  match remaining with
  | O => throw lastError
  | S remaining' =>
      fun w =>
        match fn w with
        | (inr value, w1) => (inr value, w1)
        | (inl error, w1) =>
            match after_failure c attempt error w1 with
            | (inr _, w2) => retry_loop c fn remaining' (attempt + 1) error w2
            | (inl t, w2) => (inl t, w2)
            end
        end
  end.

(** [executeWithRetry]: [attempt] runs from [0] while it is below
    [maxAttempts]. *)
Definition executeWithRetry {T} (c : HttpClient) (fn : Eff T) : Eff T :=
  retry_loop c fn (Z.to_nat (maxAttempts (retryConfig c))) 0 ThrownNull.

Definition request_headers (c : HttpClient) : list (JsString * JsString) :=
  [(lit "Content-Type", lit "application/json");
   (lit "Authorization", lit "Bearer " ++ apiKey c)].

Definition post_request (c : HttpClient) (url : JsString) (body : Json) : Request :=
  {| method := POST; url := url; headers := request_headers c; body := Some body |}.

Definition get_request (c : HttpClient) (url : JsString) : Request :=
  {| method := GET; url := url; headers := request_headers c; body := None |}.

(** One attempt of [post]: the function handed to [executeWithRetry]. *)
Definition post_attempt (c : HttpClient) (url : JsString) (body : Json) : Eff HttpResponse :=
  log c (lit "POST " ++ url) ;;
  log c (lit "Payload: " ++ JSON_stringify body) ;;
  response <- fetch (post_request c url body) ;;
  let '(status, data) := response in
  log c (lit "Response status: " ++ Number_toString (inject_Z status)) ;;
  match data with
  | Some d =>
      if truthy d then log c (lit "Response body: " ++ JSON_stringify d) else ret tt
  | None => ret tt
  end ;;
  ret {| status := status; data := data |}.

(** One attempt of [get]. *)
Definition get_attempt (c : HttpClient) (url : JsString) : Eff HttpResponse :=
  log c (lit "GET " ++ url) ;;
  response <- fetch (get_request c url) ;;
  let '(status, data) := response in
  log c (lit "Response status: " ++ Number_toString (inject_Z status)) ;;
  ret {| status := status; data := data |}.

Definition post (c : HttpClient) (url : JsString) (body : Json) : Eff HttpResponse :=
  executeWithRetry c (post_attempt c url body).

Definition get (c : HttpClient) (url : JsString) : Eff HttpResponse :=
  executeWithRetry c (get_attempt c url).

End WithPlatform.

End Http.

(** [try { m } catch (error) { handler error }]. *)
Definition try_catch {A} (m : Eff A) (handler : Thrown -> Eff A) : Eff A :=
  fun w =>
    match m w with
    | (inr a, w') => (inr a, w')
    | (inl error, w') => handler error w'
    end.

(* ================================================================== *)
(** * [logger.ts] *)
(* ================================================================== *)

Module Logger.

(** A logger holds a reference to its context object: the constructor
    stores the object it is given, it does not copy it.  Context objects
    therefore live in a heap, and a logger names one by its address. *)
Abbreviation Heap := (gmap positive Obj) (only parsing).

Section WithPlatform.
Context `{Platform}.
Local Open Scope eff_scope.

Definition ENDPOINT_SINGLE : JsString := lit "/logs".
Definition ENDPOINT_BATCH : JsString := lit "/logs/batch".

(** [LoggerConfig] of [types.ts]. *)
Record LoggerConfig := {
  cfg_apiKey : JsString;
  cfg_hostname : JsString;
  cfg_timeout : option Q;
  cfg_retryAttempts : option Z;
  cfg_retryDelayMs : option Double.t;
  cfg_retryMaxDelayMs : option Double.t;
  cfg_debug : option bool
}.

(** [LogEntry] of [types.ts]. *)
Record LogEntry := {
  message : JsString;
  level : LogLevel;
  tags : option Obj
}.

Definition deref (h : Heap) (l : positive) : Obj := default ∅ (h !! l).

(** A fresh object holding [o]. *)
Definition alloc (h : Heap) (o : Obj) : positive * Heap :=
  let l := fresh (dom h) in (l, <[l := o]> h).

Record LogDotLogger := {
  http : Http.HttpClient;
  hostname : JsString;
  debugEnabled : bool;
  batchMode : bool;
  batchQueue : list LogEntry;
  context : positive;
  config : LoggerConfig
}.

(** [new LogDotLogger(config, context)]. *)
Definition new_LogDotLogger (config : LoggerConfig) (context : positive) : LogDotLogger :=
  {| http :=
       Http.new_HttpClient
         {| Http.cfg_apiKey := cfg_apiKey config;
            Http.cfg_timeout := cfg_timeout config;
            Http.cfg_debug := cfg_debug config;
            Http.cfg_retry :=
              Some {| Http.retry_maxAttempts := cfg_retryAttempts config;
                      Http.retry_baseDelayMs := cfg_retryDelayMs config;
                      Http.retry_maxDelayMs := cfg_retryMaxDelayMs config |} |};
     hostname := cfg_hostname config;
     debugEnabled := default false (cfg_debug config);
     batchMode := false;
     batchQueue := [];
     context := context;
     config := config |}.

(** [new LogDotLogger(config)]: the default context is a new empty
    object. *)
Definition new_LogDotLogger_default (config : LoggerConfig) (h : Heap)
  : LogDotLogger * Heap :=
  let '(l, h') := alloc h ∅ in (new_LogDotLogger config l, h').

(** [withContext]: the merged object is a new one. *)
Definition withContext (this : LogDotLogger) (extra : Obj) (h : Heap)
  : LogDotLogger * Heap :=
  let mergedContext := spread [deref h (context this); extra] in
  let '(l, h') := alloc h mergedContext in
  (new_LogDotLogger (config this) l, h').

(** [getContext]: a copy. *)
Definition getContext (this : LogDotLogger) (h : Heap) : Obj :=
  spread [deref h (context this)].

(** [mergeTags]. *)
Definition mergeTags (this : LogDotLogger) (h : Heap) (tags : option Obj) : option Obj :=
  if (keys_length (deref h (context this)) =? 0) && negb (bool_decide (is_Some tags))
  then None
  else Some (spread [deref h (context this); default ∅ tags]).

(** [debugLog]. *)
Definition debugLog (this : LogDotLogger) (message : JsString) : Eff unit :=
  if debugEnabled this then console_log (lit "[LogDotLogger] " ++ message) else ret tt.

(** [clearBatch]. *)
Definition clearBatch (this : LogDotLogger) : LogDotLogger :=
  {| http := http this; hostname := hostname this; debugEnabled := debugEnabled this;
     batchMode := batchMode this; batchQueue := [];
     context := context this; config := config this |}.

Definition set_batchMode (b : bool) (this : LogDotLogger) : LogDotLogger :=
  {| http := http this; hostname := hostname this; debugEnabled := debugEnabled this;
     batchMode := b; batchQueue := batchQueue this;
     context := context this; config := config this |}.

(** [this.batchQueue.push(entry)]. *)
Definition push_entry (entry : LogEntry) (this : LogDotLogger) : LogDotLogger :=
  {| http := http this; hostname := hostname this; debugEnabled := debugEnabled this;
     batchMode := batchMode this; batchQueue := batchQueue this ++ [entry];
     context := context this; config := config this |}.

(** [beginBatch]. *)
Definition beginBatch (this : LogDotLogger) : LogDotLogger :=
  clearBatch (set_batchMode true this).

(** [endBatch]. *)
Definition endBatch (this : LogDotLogger) : LogDotLogger :=
  clearBatch (set_batchMode false this).

(** [getBatchSize]. *)
Definition getBatchSize (this : LogDotLogger) : Z :=
  Z.of_nat (length (batchQueue this)).

(** [getHostname]. *)
Definition getHostname (this : LogDotLogger) : JsString := hostname this.

(** [setDebug]. *)
Definition setDebug (enabled : bool) (this : LogDotLogger) : LogDotLogger :=
  {| http := http this; hostname := hostname this; debugEnabled := enabled;
     batchMode := batchMode this; batchQueue := batchQueue this;
     context := context this; config := config this |}.

(** [...(entry.tags && Object.keys(entry.tags).length > 0 ? { tags } : {})]. *)
Definition tags_field (entry : LogEntry) : list (JsString * Json) :=
  match tags entry with
  | Some t => if 0 <? keys_length t then [(lit "tags", json_of_obj t)] else []
  | None => []
  end.

(** The payload built by [sendLog]. *)
Definition single_payload (this : LogDotLogger) (entry : LogEntry) : Json :=
  JObj ([(lit "message", JStr (message entry));
         (lit "severity", JStr (level_name (level entry)));
         (lit "hostname", JStr (hostname this))]
        ++ tags_field entry).

(** One element of [logs] in the payload built by [sendBatch]. *)
Definition batch_entry (entry : LogEntry) : Json :=
  JObj ([(lit "message", JStr (message entry));
         (lit "severity", JStr (level_name (level entry)))]
        ++ tags_field entry).

(** The payload built by [sendBatch]. *)
Definition batch_payload (this : LogDotLogger) : Json :=
  JObj [(lit "hostname", JStr (hostname this));
        (lit "logs", JArr (map batch_entry (batchQueue this)))].

Definition is_success (status : Z) : bool := (status =? 200) || (status =? 201).

(** [sendLog]. *)
Definition sendLog (this : LogDotLogger) (entry : LogEntry) : Eff bool :=
  try_catch
    (response <- Http.post (http this) (Http.BASE_LOGS_URL ++ ENDPOINT_SINGLE)
                   (single_payload this entry) ;;
     if is_success (Http.status response) then ret true
     else
       debugLog this (lit "Failed to send log. HTTP code: "
                      ++ Number_toString (inject_Z (Http.status response))) ;;
       ret false)
    (fun error =>
       message <- lift (message_of error) ;;
       debugLog this (lit "Failed to send log: " ++ message) ;;
       ret false).

(** [log]. *)
Definition log (this : LogDotLogger) (h : Heap)
    (level : LogLevel) (message : JsString) (tags : option Obj)
  : World -> (Thrown + bool) * LogDotLogger * World :=
  fun w =>
    let mergedTags := mergeTags this h tags in
    let entry := {| message := message; level := level; tags := mergedTags |} in
    if batchMode this then (inr true, push_entry entry this, w)
    else
      let '(r, w') := sendLog this entry w in (r, this, w').

(** [debug], [info], [warn], [error]. *)
Definition debug this h message tags := log this h Debug message tags.
Definition info this h message tags := log this h Info message tags.
Definition error this h message tags := log this h Error message tags.

(** [sendBatch]. *)
Definition sendBatch (this : LogDotLogger)
  : World -> (Thrown + bool) * LogDotLogger * World :=
  fun w =>
    if negb (batchMode this) || (Z.of_nat (length (batchQueue this)) =? 0)
    then (inr false, this, w)
    else
      match Http.post (http this) (Http.BASE_LOGS_URL ++ ENDPOINT_BATCH)
              (batch_payload this) w with
      | (inr response, w1) =>
          if is_success (Http.status response) then (inr true, clearBatch this, w1)
          else
            let '(r, w2) :=
              (debugLog this (lit "Failed to send batch. HTTP code: "
                              ++ Number_toString (inject_Z (Http.status response))) ;;
               ret false) w1 in
            (r, this, w2)
      | (inl error, w1) =>
          let '(r, w2) :=
            (message <- lift (message_of error) ;;
             debugLog this (lit "Failed to send batch: " ++ message) ;;
             ret false) w1 in
          (r, this, w2)
      end.

End WithPlatform.

End Logger.

(* ================================================================== *)
(** * [metrics.ts]: the bound client *)
(* ================================================================== *)

Module Metrics.

(** Tags are enumerated with [Object.entries]: an object is the list of
    its entries. *)
Abbreviation Tags := (list (JsString * Json)) (only parsing).

Section WithPlatform.
Context `{Platform}.
Local Open Scope eff_scope.

Definition ENDPOINT_SINGLE : JsString := lit "/metrics".
Definition ENDPOINT_BATCH : JsString := lit "/metrics/batch".

(** [MetricEntry] of [types.ts]. *)
Record MetricEntry := {
  name : JsString;
  value : Q;
  unit_ : JsString;
  tags : option Tags
}.

(** [formatTags]. *)
Definition formatTags (tags : option Tags) : option (list JsString) :=
  match tags with
  | None => None
  | Some t =>
      if Z.of_nat (length t) =? 0 then None
      else Some (map (fun kv => fst kv ++ lit ":" ++ String_of (snd kv)) t)
  end.

Definition tags_field (tags : option Tags) : list (JsString * Json) :=
  match formatTags tags with
  | Some formattedTags => [(lit "tags", JArr (map JStr formattedTags))]
  | None => []
  end.

Record BoundMetricsClient := {
  http : Http.HttpClient;
  entityId : JsString;
  debugEnabled : bool;
  batchMode : bool;
  multiBatchMode : bool;
  batchMetricName : JsString;
  batchUnit : JsString;
  batchQueue : list MetricEntry;
  lastError : JsString;
  lastHttpCode : Z
}.

(** [new BoundMetricsClient(http, entityId, debug)]. *)
Definition new_BoundMetricsClient (http : Http.HttpClient) (entityId : JsString)
    (debug : bool) : BoundMetricsClient :=
  {| http := http; entityId := entityId; debugEnabled := debug;
     batchMode := false; multiBatchMode := false;
     batchMetricName := []; batchUnit := []; batchQueue := [];
     lastError := []; lastHttpCode := -1 |}.

Definition set_lastError (e : JsString) (this : BoundMetricsClient) : BoundMetricsClient :=
  {| http := http this; entityId := entityId this; debugEnabled := debugEnabled this;
     batchMode := batchMode this; multiBatchMode := multiBatchMode this;
     batchMetricName := batchMetricName this; batchUnit := batchUnit this;
     batchQueue := batchQueue this;
     lastError := e; lastHttpCode := lastHttpCode this |}.

Definition set_lastHttpCode (code : Z) (this : BoundMetricsClient) : BoundMetricsClient :=
  {| http := http this; entityId := entityId this; debugEnabled := debugEnabled this;
     batchMode := batchMode this; multiBatchMode := multiBatchMode this;
     batchMetricName := batchMetricName this; batchUnit := batchUnit this;
     batchQueue := batchQueue this;
     lastError := lastError this; lastHttpCode := code |}.

Definition set_batchQueue (q : list MetricEntry) (this : BoundMetricsClient)
  : BoundMetricsClient :=
  {| http := http this; entityId := entityId this; debugEnabled := debugEnabled this;
     batchMode := batchMode this; multiBatchMode := multiBatchMode this;
     batchMetricName := batchMetricName this; batchUnit := batchUnit this;
     batchQueue := q;
     lastError := lastError this; lastHttpCode := lastHttpCode this |}.

Definition set_modes (batch multi : bool) (this : BoundMetricsClient)
  : BoundMetricsClient :=
  {| http := http this; entityId := entityId this; debugEnabled := debugEnabled this;
     batchMode := batch; multiBatchMode := multi;
     batchMetricName := batchMetricName this; batchUnit := batchUnit this;
     batchQueue := batchQueue this;
     lastError := lastError this; lastHttpCode := lastHttpCode this |}.

Definition set_batchMetric (metricName unit : JsString) (this : BoundMetricsClient)
  : BoundMetricsClient :=
  {| http := http this; entityId := entityId this; debugEnabled := debugEnabled this;
     batchMode := batchMode this; multiBatchMode := multiBatchMode this;
     batchMetricName := metricName; batchUnit := unit;
     batchQueue := batchQueue this;
     lastError := lastError this; lastHttpCode := lastHttpCode this |}.

(** [getEntityId]. *)
Definition getEntityId (this : BoundMetricsClient) : JsString := entityId this.

(** [clearBatch]. *)
Definition clearBatch (this : BoundMetricsClient) : BoundMetricsClient :=
  set_batchQueue [] this.

Definition is_success (status : Z) : bool := (status =? 200) || (status =? 201).

(** The payload built by [send]. *)
Definition single_payload (this : BoundMetricsClient)
    (name : JsString) (value : Q) (unit : JsString) (tags : option Tags) : Json :=
  JObj ([(lit "entity_id", JStr (entityId this));
         (lit "name", JStr name);
         (lit "value", JNum value);
         (lit "unit", JStr unit)]
        ++ tags_field tags).

(** The [catch] of [send] and [sendBatch]:
    [this.lastError = (error as Error).message; return false]. *)
Definition record_failure (this : BoundMetricsClient) (error : Thrown)
  : (Thrown + bool) * BoundMetricsClient :=
  match message_of error with
  | inr message => (inr false, set_lastError message this)
  | inl t => (inl t, this)
  end.

(** What [send] and [sendBatch] do with a response; [on_success] is the
    receiver after the success branch. *)
Definition record_response (this : BoundMetricsClient) (status : Z)
    (on_success : BoundMetricsClient -> BoundMetricsClient)
  : (Thrown + bool) * BoundMetricsClient :=
  let this1 := set_lastHttpCode status this in
  if is_success status then (inr true, on_success (set_lastError [] this1))
  else (inr false,
        set_lastError (lit "HTTP " ++ Number_toString (inject_Z status)) this1).

(** [send]. *)
Definition send (this : BoundMetricsClient)
    (name : JsString) (value : Q) (unit : JsString) (tags : option Tags)
  : World -> (Thrown + bool) * BoundMetricsClient * World :=
  fun w =>
    if batchMode this then
      (inr false,
       set_lastError
         (lit "Cannot use send() in batch mode. Use add() or addMetric() instead.")
         this,
       w)
    else
      match Http.post (http this) (Http.BASE_METRICS_URL ++ ENDPOINT_SINGLE)
              (single_payload this name value unit tags) w with
      | (inr response, w1) =>
          (record_response this (Http.status response) (fun c => c), w1)
      | (inl error, w1) => (record_failure this error, w1)
      end.

(** [beginBatch]. *)
Definition beginBatch (metricName unit : JsString) (this : BoundMetricsClient)
  : BoundMetricsClient :=
  clearBatch (set_batchMetric metricName unit (set_modes true false this)).

(** [add]. *)
Definition add (this : BoundMetricsClient) (value : Q) (tags : option Tags)
  : bool * BoundMetricsClient :=
  if negb (batchMode this) || multiBatchMode this then
    (false,
     set_lastError (lit "Not in single-metric batch mode. Call beginBatch() first.") this)
  else
    (true,
     set_batchQueue
       (batchQueue this
        ++ [{| name := batchMetricName this; value := value;
               unit_ := batchUnit this; tags := tags |}])
       this).

(** [beginMultiBatch]. *)
Definition beginMultiBatch (this : BoundMetricsClient) : BoundMetricsClient :=
  clearBatch (set_modes true true this).

(** [addMetric]. *)
Definition addMetric (this : BoundMetricsClient)
    (name : JsString) (value : Q) (unit : JsString) (tags : option Tags)
  : bool * BoundMetricsClient :=
  if negb (multiBatchMode this) then
    (false,
     set_lastError
       (lit "Not in multi-metric batch mode. Call beginMultiBatch() first.") this)
  else
    (true,
     set_batchQueue
       (batchQueue this
        ++ [{| name := name; value := value; unit_ := unit; tags := tags |}])
       this).

(** One element of [formattedMetrics] in [sendBatch]. *)
Definition batch_metric (this : BoundMetricsClient) (entry : MetricEntry) : Json :=
  JObj ([(lit "value", JNum (value entry));
         (lit "unit", JStr (unit_ entry))]
        ++ (if multiBatchMode this then [(lit "name", JStr (name entry))] else [])
        ++ tags_field (tags entry)).

(** The payload built by [sendBatch]. *)
Definition batch_payload (this : BoundMetricsClient) : Json :=
  JObj ([(lit "entity_id", JStr (entityId this));
         (lit "metrics", JArr (map (batch_metric this) (batchQueue this)))]
        ++ (if multiBatchMode this then []
            else [(lit "name", JStr (batchMetricName this))])).

(** [sendBatch]. *)
Definition sendBatch (this : BoundMetricsClient)
  : World -> (Thrown + bool) * BoundMetricsClient * World :=
  fun w =>
    if negb (batchMode this) || (Z.of_nat (length (batchQueue this)) =? 0)
    then (inr false, this, w)
    else
      match Http.post (http this) (Http.BASE_METRICS_URL ++ ENDPOINT_BATCH)
              (batch_payload this) w with
      | (inr response, w1) =>
          (record_response this (Http.status response) clearBatch, w1)
      | (inl error, w1) => (record_failure this error, w1)
      end.

(** [endBatch]. *)
Definition endBatch (this : BoundMetricsClient) : BoundMetricsClient :=
  clearBatch (set_modes false false this).

(** [getBatchSize], [getLastError], [getLastHttpCode]. *)
Definition getBatchSize (this : BoundMetricsClient) : Z :=
  Z.of_nat (length (batchQueue this)).
Definition getLastError (this : BoundMetricsClient) : JsString := lastError this.
Definition getLastHttpCode (this : BoundMetricsClient) : Z := lastHttpCode this.

(** ** The entity manager *)

Definition ENDPOINT_ENTITIES : JsString := lit "/entities".
Definition ENDPOINT_ENTITIES_BY_NAME : JsString := lit "/entities/by-name".

(** [Entity] of [types.ts].  The id and a name found by lookup are what
    the response body holds. *)
Record Entity := {
  entity_id : Json;
  entity_name : Json;
  entity_description : option Json
}.

(** [CreateEntityOptions] of [types.ts]. *)
Record CreateEntityOptions := {
  opt_name : JsString;
  opt_description : option JsString;
  opt_metadata : option Obj
}.

Record LogDotMetrics := {
  m_http : Http.HttpClient;
  m_debugEnabled : bool;
  m_lastError : JsString;
  m_lastHttpCode : Z
}.

(** [MetricsConfig] of [types.ts]. *)
Record MetricsConfig := {
  cfg_apiKey : JsString;
  cfg_timeout : option Q;
  cfg_retryAttempts : option Z;
  cfg_retryDelayMs : option Double.t;
  cfg_retryMaxDelayMs : option Double.t;
  cfg_debug : option bool
}.

(** [new LogDotMetrics(config)]. *)
Definition new_LogDotMetrics (config : MetricsConfig) : LogDotMetrics :=
  {| m_http :=
       Http.new_HttpClient
         {| Http.cfg_apiKey := cfg_apiKey config;
            Http.cfg_timeout := cfg_timeout config;
            Http.cfg_debug := cfg_debug config;
            Http.cfg_retry :=
              Some {| Http.retry_maxAttempts := cfg_retryAttempts config;
                      Http.retry_baseDelayMs := cfg_retryDelayMs config;
                      Http.retry_maxDelayMs := cfg_retryMaxDelayMs config |} |};
     m_debugEnabled := default false (cfg_debug config);
     m_lastError := [];
     m_lastHttpCode := -1 |}.

Definition m_set_lastError (e : JsString) (this : LogDotMetrics) : LogDotMetrics :=
  {| m_http := m_http this; m_debugEnabled := m_debugEnabled this;
     m_lastError := e; m_lastHttpCode := m_lastHttpCode this |}.

Definition m_set_lastHttpCode (code : Z) (this : LogDotMetrics) : LogDotMetrics :=
  {| m_http := m_http this; m_debugEnabled := m_debugEnabled this;
     m_lastError := m_lastError this; m_lastHttpCode := code |}.

(** [debugLog] of [LogDotMetrics]. *)
Definition m_debugLog (this : LogDotMetrics) (message : JsString) : Eff unit :=
  if m_debugEnabled this then console_log (lit "[LogDotMetrics] " ++ message) else ret tt.

(** [response.data?.data?.<key>]. *)
Definition response_field (key : JsString) (response : Http.HttpResponse) : option Json :=
  match Http.data response with
  | Some body =>
      match json_get (lit "data") body with
      | Some inner => json_get key inner
      | None => None
      end
  | None => None
  end.

(** [response.data?.data?.id], when it is truthy. *)
Definition response_id (response : Http.HttpResponse) : option Json :=
  match response_field (lit "id") response with
  | Some id => if truthy id then Some id else None
  | None => None
  end.

(** The payload built by [createEntity]. *)
Definition create_payload (options : CreateEntityOptions) : Json :=
  JObj ([(lit "name", JStr (opt_name options))]
        ++ (match opt_description options with
            | Some d => if bool_decide (d = []) then [] else [(lit "description", JStr d)]
            | None => []
            end)
        ++ (match opt_metadata options with
            | Some m => if 0 <? keys_length m then [(lit "metadata", json_of_obj m)] else []
            | None => []
            end)).

(** The [catch] of [createEntity] and [getEntityByName]. *)
Definition m_record_failure (this : LogDotMetrics) (error : Thrown)
  : (Thrown + option Entity) * LogDotMetrics :=
  match message_of error with
  | inr message => (inr None, m_set_lastError message this)
  | inl t => (inl t, this)
  end.

(** [createEntity]. *)
Definition createEntity (this : LogDotMetrics) (options : CreateEntityOptions)
  : World -> (Thrown + option Entity) * LogDotMetrics * World :=
  fun w =>
    match Http.post (m_http this) (Http.BASE_METRICS_URL ++ ENDPOINT_ENTITIES)
            (create_payload options) w with
    | (inr response, w1) =>
        let this1 := m_set_lastHttpCode (Http.status response) this in
        match (if is_success (Http.status response) then response_id response else None) with
        | Some id =>
            let this2 := m_set_lastError [] this1 in
            let '(_, w2) := m_debugLog this2 (lit "Entity created: " ++ String_of id) w1 in
            (inr (Some {| entity_id := id;
                          entity_name := JStr (opt_name options);
                          entity_description := JStr <$> opt_description options |}),
             this2, w2)
        | None =>
            (inr None,
             m_set_lastError
               (lit "Failed to create entity. HTTP "
                ++ Number_toString (inject_Z (Http.status response))) this1,
             w1)
        end
    | (inl error, w1) => (m_record_failure this error, w1)
    end.

(** [getEntityByName]. *)
Definition getEntityByName (this : LogDotMetrics) (name : JsString)
  : World -> (Thrown + option Entity) * LogDotMetrics * World :=
  fun w =>
    match Http.get (m_http this)
            (Http.BASE_METRICS_URL ++ ENDPOINT_ENTITIES_BY_NAME ++ lit "/"
             ++ encodeURIComponent name) w with
    | (inr response, w1) =>
        let this1 := m_set_lastHttpCode (Http.status response) this in
        match (if Http.status response =? 200 then response_id response else None) with
        | Some id =>
            let this2 := m_set_lastError [] this1 in
            let '(_, w2) := m_debugLog this2 (lit "Entity found: " ++ String_of id) w1 in
            (inr (Some {| entity_id := id;
                          entity_name :=
                            match response_field (lit "name") response with
                            | Some found => if truthy found then found else JStr name
                            | None => JStr name
                            end;
                          entity_description :=
                            response_field (lit "description") response |}),
             this2, w2)
        | None =>
            (inr None,
             m_set_lastError
               (lit "Entity not found. HTTP "
                ++ Number_toString (inject_Z (Http.status response))) this1,
             w1)
        end
    | (inl error, w1) => (m_record_failure this error, w1)
    end.

(** [getOrCreateEntity]. *)
Definition getOrCreateEntity (this : LogDotMetrics) (options : CreateEntityOptions)
  : World -> (Thrown + option Entity) * LogDotMetrics * World :=
  fun w =>
    match getEntityByName this (opt_name options) w with
    | (inr (Some existing), this1, w1) => (inr (Some existing), this1, w1)
    | (inr None, this1, w1) => createEntity this1 options w1
    | (inl t, this1, w1) => (inl t, this1, w1)
    end.

(** [forEntity]. *)
Definition forEntity (this : LogDotMetrics) (entityId : JsString) : BoundMetricsClient :=
  new_BoundMetricsClient (m_http this) entityId (m_debugEnabled this).

End WithPlatform.

End Metrics.

(* ================================================================== *)
(** * [console-capture.ts] *)
(* ================================================================== *)

Module Capture.

Section WithPlatform.
Context `{Platform}.

Definition DEFAULT_FLUSH_INTERVAL_MS : Q := 5000%Q.
Definition DEFAULT_MAX_BUFFER_SIZE : Z := 100.

Record BufferedLog := {
  message : JsString;
  severity : LogLevel;
  tags : list (JsString * Json)
}.

Record ConsoleCaptureConfig := {
  cfg_apiKey : JsString;
  cfg_hostname : JsString;
  cfg_debug : option bool;
  cfg_timeout : option Q;
  cfg_flushIntervalMs : option Q;
  cfg_maxBufferSize : option Z
}.

(** The five patched methods of [console]. *)
Inductive ConsoleMethod := m_log | m_info | m_warn | m_error | m_debug.

(** What a console call may be given. *)
Inductive Arg :=
| ArgString (s : JsString)
| ArgError (name message : JsString) (stack : option JsString)
| ArgOther (v : Json).

Definition join (sep : JsString) (parts : list JsString) : JsString :=
  match parts with
  | [] => []
  | p :: rest => p ++ flat_map (fun q => sep ++ q) rest
  end.

(** [formatArgs]. *)
Definition formatArgs (args : list Arg) : JsString :=
  join (lit " ")
    (map (fun arg =>
            match arg with
            | ArgString s => s
            | ArgError name message stack =>
                name ++ lit ": " ++ message ++ [10] ++ default [] stack
            | ArgOther v => JSON_stringify v
            end) args).

(** [LEVEL_MAP]. *)
Definition LEVEL_MAP (m : ConsoleMethod) : LogLevel :=
  match m with
  | m_log => Info
  | m_info => Info
  | m_warn => Warn
  | m_error => Error
  | m_debug => Debug
  end.

Record ConsoleCapture := {
  http : Http.HttpClient;
  hostname : JsString;
  buffer : list BufferedLog;
  flushTimer : bool;          (** is the interval timer armed? *)
  maxBufferSize : Z;
  flushing : bool
}.

(** The capture together with what surrounds it: the calls that reached
    the saved original console functions, whether [console] currently
    holds the wrappers, and the body of the POST that [flush] has started
    and whose promise has not settled yet. *)
Record Process := {
  this : ConsoleCapture;
  terminal : list (ConsoleMethod * list Arg);
  patched : bool;
  in_flight : option Json
}.

(** [new ConsoleCapture(config)]: saves the originals, patches and arms
    the timer. *)
Definition new_ConsoleCapture (config : ConsoleCaptureConfig) : Process :=
  {| this :=
       {| http :=
            Http.new_HttpClient
              {| Http.cfg_apiKey := cfg_apiKey config;
                 Http.cfg_timeout := Some (default 5000%Q (cfg_timeout config));
                 Http.cfg_debug := Some false;
                 Http.cfg_retry := None |};
          hostname := cfg_hostname config;
          buffer := [];
          flushTimer := true;
          maxBufferSize := default DEFAULT_MAX_BUFFER_SIZE (cfg_maxBufferSize config);
          flushing := false |};
     terminal := [];
     patched := true;
     in_flight := None |}.

(** The body [flush] posts for the detached entries. *)
Definition flush_payload (c : ConsoleCapture) (logs : list BufferedLog) : Json :=
  JObj [(lit "hostname", JStr (hostname c));
        (lit "logs",
         JArr (map (fun l =>
                      JObj [(lit "message", JStr (message l));
                            (lit "severity", JStr (level_name (severity l)));
                            (lit "tags", JObj (tags l))]) logs))].

(** [flush], up to the point where the POST has been started. *)
Definition flush (p : Process) : Process :=
  let c := this p in
  if (Z.of_nat (length (buffer c)) =? 0) || flushing c then p
  else
    let logs := buffer c in
    {| this :=
         {| http := http c; hostname := hostname c;
            buffer := [];
            flushTimer := flushTimer c; maxBufferSize := maxBufferSize c;
            flushing := true |};
       terminal := terminal p;
       patched := patched p;
       in_flight := Some (flush_payload c logs) |}.

(** The POST started by [flush] runs against the world and its promise
    settles: [.catch(() => {})] swallows a rejection, [.finally] clears
    the guard. *)
Definition settle (p : Process) (w : World) : Process * World :=
  match in_flight p with
  | None => (p, w)
  | Some payload =>
      let c := this p in
      let '(_, w') :=
        Http.post (http c) (Http.BASE_LOGS_URL ++ lit "/logs/batch") payload w in
      ({| this :=
            {| http := http c; hostname := hostname c; buffer := buffer c;
               flushTimer := flushTimer c; maxBufferSize := maxBufferSize c;
               flushing := false |};
          terminal := terminal p;
          patched := patched p;
          in_flight := None |}, w')
  end.

(** A call [console[method](...args)].  While the methods are patched it
    runs the wrapper installed by [patch]. *)
Definition console_call (method : ConsoleMethod) (args : list Arg) (p : Process)
  : Process :=
  let c := this p in
  let p1 :=
    {| this := c; terminal := terminal p ++ [(method, args)];
       patched := patched p; in_flight := in_flight p |} in
  if negb (patched p) then p1
  else if flushing c then p1
  else
    let message := Utils.truncateBytes_default (formatArgs args) in
    let c2 :=
      {| http := http c; hostname := hostname c;
         buffer := buffer c
                   ++ [{| message := message; severity := LEVEL_MAP method;
                          tags := [(lit "source", JStr (lit "console"))] |}];
         flushTimer := flushTimer c; maxBufferSize := maxBufferSize c;
         flushing := flushing c |} in
    let p2 :=
      {| this := c2; terminal := terminal p1;
         patched := patched p; in_flight := in_flight p |} in
    if maxBufferSize c2 <=? Z.of_nat (length (buffer c2)) then flush p2 else p2.

(** The interval timer fires. *)
Definition timer_tick (p : Process) : Process :=
  if flushTimer (this p) then flush p else p.

(** [restore]. *)
Definition restore (p : Process) : Process :=
  {| this := this p; terminal := terminal p; patched := false;
     in_flight := in_flight p |}.

(** [shutdown]. *)
Definition shutdown (p : Process) : Process :=
  let c := this p in
  let p1 :=
    {| this :=
         {| http := http c; hostname := hostname c; buffer := buffer c;
            flushTimer := false; maxBufferSize := maxBufferSize c;
            flushing := flushing c |};
       terminal := terminal p; patched := patched p;
       in_flight := in_flight p |} in
  restore (flush p1).

End WithPlatform.

End Capture.

(* ================================================================== *)
(** * [exporters/metric-exporter.ts] *)
(* ================================================================== *)

Module Exporter.

(** Attributes as [Object.entries] lists them; [None] is [undefined]. *)
Abbreviation Attributes := (list (JsString * option Json)) (only parsing).

Section WithPlatform.
Context `{Platform}.
Local Open Scope eff_scope.

Record LogDotMetricExporterConfig := {
  cfg_apiKey : JsString;
  cfg_entityName : JsString;
  cfg_debug : option bool;
  cfg_timeout : option Q
}.

Record LogDotMetricPayload := {
  name : JsString;
  value : Double.t;
  unit_ : JsString;
  tags : option (list JsString)
}.

(** [formatTags]. *)
Definition formatTags (attributes : Attributes) : option (list JsString) :=
  if Z.of_nat (length attributes) =? 0 then None
  else
    Some (omap (fun kv =>
                  match snd kv with
                  | None | Some JNull => None
                  | Some v => Some (fst kv ++ lit ":" ++ String_of v)
                  end) attributes).

(** The part of OpenTelemetry's metric data the exporter reads. *)
Inductive DataPointType := HISTOGRAM | EXPONENTIAL_HISTOGRAM | GAUGE | SUM.

Record Histogram := {
  h_sum : option Double.t;
  h_count : option Double.t;
  h_min : option Double.t;
  h_max : option Double.t
}.

Inductive PointValue :=
| NumberValue (x : Double.t)
| HistogramValue (hist : Histogram).

Record DataPoint := {
  point_value : PointValue;
  attributes : Attributes
}.

Record MetricData := {
  descriptor_name : JsString;
  descriptor_unit : JsString;
  dataPointType : DataPointType;
  dataPoints : list DataPoint
}.

Record ScopeMetrics := { metrics : list MetricData }.
Record ResourceMetrics := { scopeMetrics : list ScopeMetrics }.

(** [Math.round]: to the nearest integer, halves upwards. *)
Definition Math_round (x : Double.t) : Double.t := Double.round x.

(** [point.value as { sum?, count?, min?, max? }]: a number has none of
    the four properties. *)
Definition as_histogram (v : PointValue) : Histogram :=
  match v with
  | HistogramValue hist => hist
  | NumberValue _ =>
      {| h_sum := None; h_count := None; h_min := None; h_max := None |}
  end.

(** The [GAUGE] and [SUM] arm of [convertMetricData], for one point. *)
Definition convert_number_point (baseName unit : JsString) (point : DataPoint)
  : list LogDotMetricPayload :=
  let value := match point_value point with NumberValue x => x | _ => Double.of_Z 0 end in
  if Double.ltb value (Double.of_Z 0) then []
  else [{| name := baseName; value := value; unit_ := unit;
           tags := formatTags (attributes point) |}].

(** The [HISTOGRAM] arm of [convertMetricData], for one point. *)
Definition convert_histogram_point (baseName unit : JsString) (point : DataPoint)
  : list LogDotMetricPayload :=
  let hist := as_histogram (point_value point) in
  let tags := formatTags (attributes point) in
  (match h_count hist with
   | Some count =>
       if Double.ltb (Double.of_Z 0) count then
         [{| name := baseName ++ lit ".count"; value := count;
             unit_ := lit "1"; tags := tags |}]
         ++ match h_sum hist with
            | Some sum =>
                let avg := Double.div sum count in
                if Double.leb (Double.of_Z 0) avg then
                  [{| name := baseName ++ lit ".avg";
                      value :=
                        Double.div (Math_round (Double.mul avg (Double.of_Z 100)))
                                   (Double.of_Z 100);
                      unit_ := unit; tags := tags |}]
                else []
            | None => []
            end
       else []
   | None => []
   end)
  ++ (match h_min hist with
      | Some min =>
          if Double.leb (Double.of_Z 0) min then
            [{| name := baseName ++ lit ".min"; value := min;
                unit_ := unit; tags := tags |}]
          else []
      | None => []
      end)
  ++ (match h_max hist with
      | Some max =>
          if Double.leb (Double.of_Z 0) max then
            [{| name := baseName ++ lit ".max"; value := max;
                unit_ := unit; tags := tags |}]
          else []
      | None => []
      end).

(** [convertMetricData]. *)
Definition convertMetricData (metricData : MetricData) : list LogDotMetricPayload :=
  let baseName := descriptor_name metricData in
  let unit :=
    if bool_decide (descriptor_unit metricData = []) then lit "1"
    else descriptor_unit metricData in
  match dataPointType metricData with
  | GAUGE | SUM => flat_map (convert_number_point baseName unit) (dataPoints metricData)
  | HISTOGRAM => flat_map (convert_histogram_point baseName unit) (dataPoints metricData)
  | EXPONENTIAL_HISTOGRAM => []
  end.

(** A promise kept in a field; by the time it is looked at again it has
    settled.  [resolveEntity] catches every failure, so its promise is
    always fulfilled. *)
Inductive Promise := Fulfilled.

Record LogDotMetricExporter := {
  http : Http.HttpClient;
  entityName : JsString;
  entityId : option Json;
  entityPromise : option Promise;
  debugEnabled : bool
}.

(** [new LogDotMetricExporter(config)]. *)
Definition new_LogDotMetricExporter (config : LogDotMetricExporterConfig)
  : LogDotMetricExporter :=
  {| http :=
       Http.new_HttpClient
         {| Http.cfg_apiKey := cfg_apiKey config;
            Http.cfg_timeout := Some (default 5000%Q (cfg_timeout config));
            Http.cfg_debug := Some (default false (cfg_debug config));
            Http.cfg_retry := None |};
     entityName := cfg_entityName config;
     entityId := None;
     entityPromise := None;
     debugEnabled := default false (cfg_debug config) |}.

Definition set_entityId (id : Json) (this : LogDotMetricExporter) : LogDotMetricExporter :=
  {| http := http this; entityName := entityName this; entityId := Some id;
     entityPromise := entityPromise this; debugEnabled := debugEnabled this |}.

Definition set_entityPromise (p : option Promise) (this : LogDotMetricExporter)
  : LogDotMetricExporter :=
  {| http := http this; entityName := entityName this; entityId := entityId this;
     entityPromise := p; debugEnabled := debugEnabled this |}.

(** [log]. *)
Definition log (this : LogDotMetricExporter) (message : JsString) : Eff unit :=
  if debugEnabled this then console_log (lit "[LogDotMetricExporter] " ++ message)
  else ret tt.

(** [`${err}`]: for an error, [Error.prototype.toString], which leaves
    out an empty name or an empty message together with the colon. *)
Definition render_thrown (t : Thrown) : JsString :=
  match t with
  | ThrownNull => lit "null"
  | ThrownError e =>
      if bool_decide (err_name e = []) then err_message e
      else if bool_decide (err_message e = []) then err_name e
      else err_name e ++ lit ": " ++ err_message e
  end.

(** [response.data?.data?.id], when it is truthy. *)
Definition response_id (response : Http.HttpResponse) : option Json :=
  match Http.data response with
  | Some body =>
      match json_get (lit "data") body with
      | Some inner =>
          match json_get (lit "id") inner with
          | Some id => if truthy id then Some id else None
          | None => None
          end
      | None => None
      end
  | None => None
  end.

Definition is_success (status : Z) : bool := (status =? 200) || (status =? 201).

(** The [catch] of [resolveEntity]. *)
Definition resolution_failed (this : LogDotMetricExporter) (err : Thrown)
  : World -> LogDotMetricExporter * World :=
  fun w =>
    let '(_, w') := log this (lit "Entity resolution failed: " ++ render_thrown err) w in
    (set_entityPromise None this, w').

(** [resolveEntity]. *)
Definition resolveEntity (this : LogDotMetricExporter)
  : World -> LogDotMetricExporter * World :=
  fun w =>
    let getUrl :=
      Http.BASE_METRICS_URL ++ lit "/entities/by-name/"
      ++ encodeURIComponent (entityName this) in
    match Http.get (http this) getUrl w with
    | (inl err, w1) => resolution_failed this err w1
    | (inr getResponse, w1) =>
        match (if Http.status getResponse =? 200 then response_id getResponse else None) with
        | Some id =>
            let this1 := set_entityId id this in
            let '(_, w2) := log this1 (lit "Found entity: " ++ String_of id) w1 in
            (this1, w2)
        | None =>
            let createUrl := Http.BASE_METRICS_URL ++ lit "/entities" in
            match Http.post (http this) createUrl
                    (JObj [(lit "name", JStr (entityName this));
                           (lit "description",
                            JStr (lit "Auto-instrumented: " ++ entityName this))]) w1 with
            | (inl err, w2) => resolution_failed this err w2
            | (inr createResponse, w2) =>
                match (if is_success (Http.status createResponse)
                       then response_id createResponse else None) with
                | Some id =>
                    let this1 := set_entityId id this in
                    let '(_, w3) := log this1 (lit "Created entity: " ++ String_of id) w2 in
                    (this1, w3)
                | None => (this, w2)
                end
            end
        end
    end.

(** [ensureEntity]: the field is assigned when [resolveEntity] reaches
    its first [await], before anything in it can fail. *)
Definition ensureEntity (this : LogDotMetricExporter)
  : World -> LogDotMetricExporter * World :=
  fun w =>
    match entityPromise this with
    | Some _ => (this, w)
    | None => resolveEntity (set_entityPromise (Some Fulfilled) this) w
    end.

Definition payload_json (p : LogDotMetricPayload) : Json :=
  JObj ([(lit "name", JStr (name p));
         (lit "value", number_json (value p));
         (lit "unit", JStr (unit_ p))]
        ++ match tags p with
           | Some t => [(lit "tags", JArr (map JStr t))]
           | None => []
           end).

Definition batch_failed (status : Z) : JsError :=
  {| err_name := lit "Error";
     err_message := lit "LogDot metrics batch failed with HTTP "
                    ++ Number_toString (inject_Z status) |}.

(** [doExport]. *)
Definition doExport (this : LogDotMetricExporter) (resourceMetrics : ResourceMetrics)
  : World -> (Thrown + unit) * LogDotMetricExporter * World :=
  fun w =>
    let '(this1, w1) := ensureEntity this w in
    match entityId this1 with
    | None =>
        let '(_, w2) := log this1 (lit "No entity ID available, skipping metric export") w1 in
        (inr tt, this1, w2)
    | Some id =>
        let payloads :=
          flat_map (fun scope => flat_map convertMetricData (metrics scope))
                   (scopeMetrics resourceMetrics) in
        if Z.of_nat (length payloads) =? 0 then (inr tt, this1, w1)
        else
          match Http.post (http this1) (Http.BASE_METRICS_URL ++ lit "/metrics/batch")
                  (JObj [(lit "entity_id", id);
                         (lit "metrics", JArr (map payload_json payloads))]) w1 with
          | (inl err, w2) => (inl err, this1, w2)
          | (inr response, w2) =>
              if is_success (Http.status response) then (inr tt, this1, w2)
              else (inl (ThrownError (batch_failed (Http.status response))), this1, w2)
          end
    end.

(** [ExportResultCode]. *)
Inductive ExportResultCode := SUCCESS | FAILED.

(** [export]: the code handed to [resultCallback]. *)
Definition export (this : LogDotMetricExporter) (resourceMetrics : ResourceMetrics)
  : World -> ExportResultCode * LogDotMetricExporter * World :=
  fun w =>
    match doExport this resourceMetrics w with
    | (inr _, this', w') => (SUCCESS, this', w')
    | (inl err, this', w') =>
        let '(_, w'') := log this' (lit "Export failed: " ++ render_thrown err) w' in
        (FAILED, this', w'')
    end.

End WithPlatform.

End Exporter.

(* ================================================================== *)
(** * [exporters/span-exporter.ts] *)
(* ================================================================== *)

Module SpanExporter.

(** The part of OpenTelemetry's span model the exporter reads. *)
Inductive SpanKind := INTERNAL | SERVER | CLIENT | PRODUCER | CONSUMER | OTHER_KIND.

Inductive SpanStatusCode := UNSET | OK | ERROR.

(** Attributes as [Object.entries] lists them; [None] is [undefined]. *)
Abbreviation Attributes := (list (JsString * option Json)) (only parsing).

Record ReadableSpan := {
  span_name : JsString;
  kind : SpanKind;
  traceId : JsString;
  spanId : JsString;
  parentSpanId : option JsString;
  startTime : Z * Z;               (** seconds and nanoseconds *)
  endTime : Z * Z;
  status_code : SpanStatusCode;
  status_message : option JsString;
  attributes : Attributes;
  instrumentationLibrary : option JsString   (** its name *)
}.

Section WithPlatform.
Context `{Platform}.
Local Open Scope eff_scope.

Record LogDotSpanExporterConfig := {
  cfg_apiKey : JsString;
  cfg_hostname : JsString;
  cfg_debug : option bool;
  cfg_timeout : option Q
}.

(** [spanKindToString]. *)
Definition spanKindToString (kind : SpanKind) : JsString :=
  match kind with
  | SERVER => lit "SERVER"
  | CLIENT => lit "CLIENT"
  | PRODUCER => lit "PRODUCER"
  | CONSUMER => lit "CONSUMER"
  | INTERNAL => lit "INTERNAL"
  | OTHER_KIND => lit "UNKNOWN"
  end.

(** [severityFromStatus]. *)
Definition severityFromStatus (statusCode : SpanStatusCode) : JsString :=
  match statusCode with
  | ERROR => lit "error"
  | OK => lit "info"
  | UNSET => lit "debug"
  end.

(** [hrtimeDurationMs]. *)
Definition hrtimeDurationMs (startTime endTime : Z * Z) : Double.t :=
  let seconds := Double.sub (Double.of_Z (fst endTime)) (Double.of_Z (fst startTime)) in
  let nanos := Double.sub (Double.of_Z (snd endTime)) (Double.of_Z (snd startTime)) in
  Double.div
    (Exporter.Math_round
       (Double.mul
          (Double.add (Double.mul seconds (Double.of_Z 1000))
                      (Double.div nanos (Double.of_Z 1000000)))
          (Double.of_Z 100)))
    (Double.of_Z 100).

(** [flattenAttributes]. *)
Definition flattenAttributes (attrs : Attributes) : Obj :=
  foldl (fun result kv =>
           match snd kv with
           | None | Some JNull => result
           | Some (JStr s) => <[fst kv := JStr s]> result
           | Some (JNum q) => <[fst kv := JNum q]> result
           | Some (JBool b) => <[fst kv := JBool b]> result
           | Some v => <[fst kv := JStr (JSON_stringify v)]> result
           end) ∅ attrs.

Record LogDotSpanExporter := {
  http : Http.HttpClient;
  hostname : JsString;
  debugEnabled : bool
}.

(** [new LogDotSpanExporter(config)]. *)
Definition new_LogDotSpanExporter (config : LogDotSpanExporterConfig)
  : LogDotSpanExporter :=
  {| http :=
       Http.new_HttpClient
         {| Http.cfg_apiKey := cfg_apiKey config;
            Http.cfg_timeout := Some (default 5000%Q (cfg_timeout config));
            Http.cfg_debug := Some (default false (cfg_debug config));
            Http.cfg_retry := None |};
     hostname := cfg_hostname config;
     debugEnabled := default false (cfg_debug config) |}.

(** [log]. *)
Definition log (this : LogDotSpanExporter) (message : JsString) : Eff unit :=
  if debugEnabled this then console_log (lit "[LogDotSpanExporter] " ++ message)
  else ret tt.

(** The message of the log entry for a span. *)
Definition span_message (span : ReadableSpan) : JsString :=
  let lib :=
    match instrumentationLibrary span with
    | Some name => if bool_decide (name = []) then lit "unknown" else name
    | None => lit "unknown"
    end in
  Utils.truncateBytes_default (lit "[" ++ lib ++ lit "] " ++ span_name span).

(** The tags of the log entry for a span: the object literal, then the two
    conditional assignments. *)
Definition span_tags (span : ReadableSpan) : Obj :=
  let literal :=
    spread [ {[ lit "trace_id" := JStr (traceId span) ]};
             {[ lit "span_id" := JStr (spanId span) ]};
             {[ lit "span_kind" := JStr (spanKindToString (kind span)) ]};
             {[ lit "duration_ms" :=
                  number_json (hrtimeDurationMs (startTime span) (endTime span)) ]};
             flattenAttributes (attributes span) ] in
  let with_parent :=
    match parentSpanId span with
    | Some parent =>
        if bool_decide (parent = []) then literal
        else <[lit "parent_span_id" := JStr parent]> literal
    | None => literal
    end in
  match status_message span with
  | Some message =>
      if bool_decide (message = []) then with_parent
      else <[lit "status_message" := JStr message]> with_parent
  | None => with_parent
  end.

(** One element of [logs] in [doExport]. *)
Definition span_log (span : ReadableSpan) : Json :=
  JObj [(lit "message", JStr (span_message span));
        (lit "severity", JStr (severityFromStatus (status_code span)));
        (lit "tags", json_of_obj (span_tags span))].

Definition batch_failed (status : Z) : JsError :=
  {| err_name := lit "Error";
     err_message := lit "LogDot logs batch failed with HTTP "
                    ++ Number_toString (inject_Z status) |}.

(** [doExport]. *)
Definition doExport (this : LogDotSpanExporter) (spans : list ReadableSpan)
  : Eff unit :=
  if Z.of_nat (length spans) =? 0 then ret tt
  else
    response <- Http.post (http this) (Http.BASE_LOGS_URL ++ lit "/logs/batch")
                  (JObj [(lit "hostname", JStr (hostname this));
                         (lit "logs", JArr (map span_log spans))]) ;;
    if Exporter.is_success (Http.status response) then ret tt
    else throw (ThrownError (batch_failed (Http.status response))).

(** [export]: the code handed to [resultCallback]. *)
Definition export (this : LogDotSpanExporter) (spans : list ReadableSpan)
  : World -> Exporter.ExportResultCode * World :=
  fun w =>
    match doExport this spans w with
    | (inr _, w') => (Exporter.SUCCESS, w')
    | (inl err, w') =>
        let '(_, w'') :=
          log this (lit "Export failed: " ++ Exporter.render_thrown err) w' in
        (Exporter.FAILED, w'')
    end.

End WithPlatform.

End SpanExporter.

(* ================================================================== *)
(** * A host to run examples on *)
(* ================================================================== *)

(** Renderers that return fixed text.  The examples below evaluate the
    code on concrete inputs; none of their results depends on how a value
    is rendered in a debug line. *)
Definition stub_platform : Platform :=
  {| JSON_stringify := fun _ => lit "{}";
     Number_toString := fun _ => lit "0";
     String_of := fun _ => lit "?";
     encodeURIComponent := fun s => s |}.

(** A world in which nothing has happened yet. *)
Definition fresh_world (answers : list FetchOutcome) (randoms : list Double.t) : World :=
  {| network := answers; entropy := randoms; wire := []; slept := []; console := [] |}.

(** An HTTP client with the default policy: three attempts. *)
Definition example_client : Http.HttpClient :=
  Http.new_HttpClient
    {| Http.cfg_apiKey := lit "ilog_live_key"; Http.cfg_timeout := None;
       Http.cfg_debug := None; Http.cfg_retry := None |}.

Definition timed_out : JsError :=
  {| err_name := lit "AbortError"; err_message := lit "This operation was aborted" |}.

Definition refused : JsError :=
  {| err_name := lit "TypeError"; err_message := lit "connect ECONNREFUSED" |}.

(** A logger configuration that leaves every option to its default. *)
Definition example_config : Logger.LoggerConfig :=
  {| Logger.cfg_apiKey := lit "ilog_live_key"; Logger.cfg_hostname := lit "svc";
     Logger.cfg_timeout := None; Logger.cfg_retryAttempts := None;
     Logger.cfg_retryDelayMs := None; Logger.cfg_retryMaxDelayMs := None;
     Logger.cfg_debug := None |}.

(** A logger with an empty context, at address 1 of the heap. *)
Definition example_heap : Logger.Heap := {[ 1%positive := ∅ ]}.

Definition example_logger : Logger.LogDotLogger :=
  Logger.new_LogDotLogger example_config 1%positive.


(** The histogram point of the exporter's own test:
    [{ sum: 100, count: 4, min: 10, max: 40 }]. *)
Definition tested_histogram_point : Exporter.DataPoint :=
  {| Exporter.point_value :=
       Exporter.HistogramValue
         {| Exporter.h_sum := Some (Double.of_Z 100);
            Exporter.h_count := Some (Double.of_Z 4);
            Exporter.h_min := Some (Double.of_Z 10);
            Exporter.h_max := Some (Double.of_Z 40) |};
     Exporter.attributes := [] |}.

(** A histogram point that recorded nothing but zeros. *)
Definition zero_histogram_point : Exporter.DataPoint :=
  {| Exporter.point_value :=
       Exporter.HistogramValue
         {| Exporter.h_sum := Some (Double.of_Z 0);
            Exporter.h_count := Some (Double.of_Z 0);
            Exporter.h_min := Some (Double.of_Z 0);
            Exporter.h_max := Some (Double.of_Z 0) |};
     Exporter.attributes := [] |}.

Definition example_exporter : Exporter.LogDotMetricExporter :=
  Exporter.new_LogDotMetricExporter
    {| Exporter.cfg_apiKey := lit "ilog_live_key";
       Exporter.cfg_entityName := lit "svc";
       Exporter.cfg_debug := None; Exporter.cfg_timeout := None |}.

(** One gauge point of value 1. *)
Definition example_metrics : Exporter.ResourceMetrics :=
  {| Exporter.scopeMetrics :=
       [{| Exporter.metrics :=
             [{| Exporter.descriptor_name := lit "cpu";
                 Exporter.descriptor_unit := lit "percent";
                 Exporter.dataPointType := Exporter.GAUGE;
                 Exporter.dataPoints :=
                   [{| Exporter.point_value := Exporter.NumberValue (Double.of_Z 1);
                       Exporter.attributes := [] |}] |}] |}] |}.

(** The body of a response that names an entity. *)
Definition entity_body (id : JsString) : Json :=
  JObj [(lit "data", JObj [(lit "id", JStr id)])].

(** A console capture that flushes at two entries. *)
Definition example_capture : Capture.Process :=
  Capture.new_ConsoleCapture
    {| Capture.cfg_apiKey := lit "ilog_live_key"; Capture.cfg_hostname := lit "svc";
       Capture.cfg_debug := None; Capture.cfg_timeout := None;
       Capture.cfg_flushIntervalMs := None; Capture.cfg_maxBufferSize := Some 2 |}.

(** A heap whose object at address 1 is [{a: 1, b: 2}]. *)
Definition tagged_heap : Logger.Heap :=
  {[ 1%positive := {[ lit "a" := JNum 1; lit "b" := JNum 2 ]} ]}.

(** A metrics manager with the default policy, and a bound client that has
    queued two values of one metric. *)
Definition example_manager : Metrics.LogDotMetrics :=
  Metrics.new_LogDotMetrics
    {| Metrics.cfg_apiKey := lit "ilog_live_key"; Metrics.cfg_timeout := None;
       Metrics.cfg_retryAttempts := None; Metrics.cfg_retryDelayMs := None;
       Metrics.cfg_retryMaxDelayMs := None; Metrics.cfg_debug := None |}.

Definition example_bound : Metrics.BoundMetricsClient :=
  Metrics.forEntity example_manager (lit "E1").

Definition example_single_batch : Metrics.BoundMetricsClient :=
  let c0 := Metrics.beginBatch (lit "cpu") (lit "percent") example_bound in
  let c1 := snd (Metrics.add c0 1%Q None) in
  snd (Metrics.add c1 2%Q (Some [(lit "host", JStr (lit "a"))])).

Definition example_options : Metrics.CreateEntityOptions :=
  {| Metrics.opt_name := lit "svc"; Metrics.opt_description := None;
     Metrics.opt_metadata := None |}.

(** Options with a description and one key of metadata. *)
Definition described_options : Metrics.CreateEntityOptions :=
  {| Metrics.opt_name := lit "svc"; Metrics.opt_description := Some (lit "api");
     Metrics.opt_metadata := Some {[ lit "region" := JStr (lit "eu") ]} |}.

(** A span exporter, and a server span of 12.345678 ms that failed.  One
    of its attributes is named like a tag the exporter sets itself. *)
Definition example_span_exporter : SpanExporter.LogDotSpanExporter :=
  SpanExporter.new_LogDotSpanExporter
    {| SpanExporter.cfg_apiKey := lit "ilog_live_key";
       SpanExporter.cfg_hostname := lit "svc";
       SpanExporter.cfg_debug := None; SpanExporter.cfg_timeout := None |}.

Definition example_span : SpanExporter.ReadableSpan :=
  {| SpanExporter.span_name := lit "GET /users";
     SpanExporter.kind := SpanExporter.SERVER;
     SpanExporter.traceId := lit "t1";
     SpanExporter.spanId := lit "s1";
     SpanExporter.parentSpanId := Some (lit "s0");
     SpanExporter.startTime := (10, 999000000);
     SpanExporter.endTime := (11, 11345678);
     SpanExporter.status_code := SpanExporter.ERROR;
     SpanExporter.status_message := Some (lit "boom");
     SpanExporter.attributes :=
       [(lit "http.method", Some (JStr (lit "GET")));
        (lit "span_kind", Some (JStr (lit "mine")));
        (lit "peer", Some JNull);
        (lit "sizes", Some (JArr [JNum 1]))];
     SpanExporter.instrumentationLibrary := Some (lit "http") |}.

(** A logger whose policy allows no attempt: [retryAttempts: 0]. *)
Definition unretried_logger : Logger.LogDotLogger :=
  Logger.new_LogDotLogger
    {| Logger.cfg_apiKey := lit "ilog_live_key"; Logger.cfg_hostname := lit "svc";
       Logger.cfg_timeout := None; Logger.cfg_retryAttempts := Some 0;
       Logger.cfg_retryDelayMs := None; Logger.cfg_retryMaxDelayMs := None;
       Logger.cfg_debug := None |}
    1%positive.


(* ================================================================== *)
(** * Vocabulary of the properties *)
(* ================================================================== *)

(** ** What the service receives

    The requests of the service's interface, written out on their own:
    the properties compare what the code puts on the wire with them. *)

(** A POST of the SDK: a JSON body and the bearer token. *)
Definition api_post (apiKey url : JsString) (body : Json) : Request :=
  {| method := POST; url := url;
     headers := [(lit "Content-Type", lit "application/json");
                 (lit "Authorization", lit "Bearer " ++ apiKey)];
     body := Some body |}.

(** A GET of the SDK: the same headers and no body. *)
Definition api_get (apiKey url : JsString) : Request :=
  {| method := GET; url := url;
     headers := [(lit "Content-Type", lit "application/json");
                 (lit "Authorization", lit "Bearer " ++ apiKey)];
     body := None |}.

(** The text of a severity. *)
Definition severity_text (level : LogLevel) : JsString :=
  match level with
  | Debug => lit "debug"
  | Info => lit "info"
  | Warn => lit "warn"
  | Error => lit "error"
  end.

(** [j] is the JSON object that has exactly the keys and the values of the
    mapping [o], in whatever order. *)
Definition object_of (o : Obj) (j : Json) : Prop :=
  exists fields, j = JObj fields /\ fields ≡ₚ map_to_list o.

(** The optional [tags] field of a log: left out when there are no tags
    and when the mapping is empty. *)
Definition tags_sent (tags : option Obj) (fields : list (JsString * Json)) : Prop :=
  match tags with
  | Some t =>
      (t = ∅ /\ fields = []) \/
      (t <> ∅ /\ exists j, fields = [(lit "tags", j)] /\ object_of t j)
  | None => fields = []
  end.

(** A log inside a batch: [{message, severity, tags?}]. *)
Definition log_sent (entry : Logger.LogEntry) (j : Json) : Prop :=
  exists tags,
    j = JObj ([(lit "message", JStr (Logger.message entry));
               (lit "severity", JStr (severity_text (Logger.level entry)))]
              ++ tags) /\
    tags_sent (Logger.tags entry) tags.

(** The body of a batch of logs: [{hostname, logs}]. *)
Definition logs_batch (hostname : JsString) (logs : list Json) : Json :=
  JObj [(lit "hostname", JStr hostname); (lit "logs", JArr logs)].

(** The optional [tags] field of a metric: one ["key:value"] string per
    tag, in order; left out when there is none. *)
Definition metric_tags_sent `{Platform} (tags : option Metrics.Tags)
  : list (JsString * Json) :=
  match tags with
  | Some (kv :: t) =>
      [(lit "tags",
        JArr (map (fun kv => JStr (fst kv ++ lit ":" ++ String_of (snd kv))) (kv :: t)))]
  | Some [] | None => []
  end.

(** A buffered console line inside a batch: [{message, severity, tags}]. *)
Definition console_log_sent (l : Capture.BufferedLog) : Json :=
  JObj [(lit "message", JStr (Capture.message l));
        (lit "severity", JStr (severity_text (Capture.severity l)));
        (lit "tags", JObj (Capture.tags l))].

(** A derived metric inside the exporter's batch:
    [{name, value, unit, tags?}]. *)
Definition metric_sent (p : Exporter.LogDotMetricPayload) : Json :=
  JObj ([(lit "name", JStr (Exporter.name p));
         (lit "value", number_json (Exporter.value p));
         (lit "unit", JStr (Exporter.unit_ p))]
        ++ match Exporter.tags p with
           | Some t => [(lit "tags", JArr (map JStr t))]
           | None => []
           end).

(** The log a span becomes: the name of the span behind the name of its
    instrumentation library, the severity of its status, its tags. *)
Definition span_sent `{Platform} (span : SpanExporter.ReadableSpan) (j : Json) : Prop :=
  let lib :=
    match SpanExporter.instrumentationLibrary span with
    | Some name => if bool_decide (name = []) then lit "unknown" else name
    | None => lit "unknown"
    end in
  let severity :=
    match SpanExporter.status_code span with
    | SpanExporter.ERROR => lit "error"
    | SpanExporter.OK => lit "info"
    | SpanExporter.UNSET => lit "debug"
    end in
  exists tags,
    j = JObj [(lit "message",
               JStr (Utils.truncateBytes_default
                       (lit "[" ++ lib ++ lit "] " ++ SpanExporter.span_name span)));
              (lit "severity", JStr severity);
              (lit "tags", tags)] /\
    object_of (SpanExporter.span_tags span) tags.

(** ** Rounding, on a common scale

    To compare what the arithmetic returns, the numbers that are not
    negative are weighed in units of [2 ^ - scale], a unit small enough
    for every sum and every product of two of them to be a whole number
    of units. *)

Definition scale : Z := 2200.

(** The weight of the mantissa [m] at the exponent [e]. *)
Definition scaled (m e : Z) : Z := m * 2 ^ (e + scale).

(** The weight of a number that is not negative. *)
Definition weight (x : Double.t) : Z :=
  match x with
  | S754_finite _ m e => scaled (Z.pos m) e
  | _ => 0
  end.

(** The numbers of the format around the weight [w] are the multiples of
    [2 ^ grid_exponent w]: 53 bits of mantissa, and no exponent below
    -1074. *)
Definition grid_exponent (w : Z) : Z := Z.max (Z.log2 w - 52) (scale - 1074).

(** Is the quotient [q] with the rest [rest], on a grid of step [g],
    nearer to the next multiple, or as near and odd? *)
Definition round_up (g q rest : Z) : bool :=
  (g <? 2 * rest) || ((2 * rest =? g) && Z.odd q).

(** The weight on the grid that is nearest to [w], the even one of two
    equally near. *)
Definition nearest (w : Z) : Z :=
  let g := 2 ^ grid_exponent w in
  (w / g + (if round_up g (w / g) (w mod g) then 1 else 0)) * g.

(** The weights that are on their grid. *)
Definition fits (w : Z) : Prop := w mod 2 ^ grid_exponent w = 0.

(** The number of the weight [w]; the infinity, past the largest one. *)
Definition number_of (w : Z) : Double.t :=
  if w =? 0 then S754_zero false
  else
    let e := grid_exponent w - scale in
    if e <=? 971 then S754_finite false (Z.to_pos (w / 2 ^ grid_exponent w)) e
    else S754_infinity false.

(** [x] is the number of the weight [w], or the negative zero. *)
Definition measured (x : Double.t) (w : Z) : Prop :=
  0 <= w /\ fits w /\ (x = number_of w \/ x = S754_zero true /\ w = 0).

(** The three modes of a bound metrics client. *)
Definition in_single_batch (c : Metrics.BoundMetricsClient) : Prop :=
  Metrics.batchMode c = true /\ Metrics.multiBatchMode c = false.

Definition in_multi_batch (c : Metrics.BoundMetricsClient) : Prop :=
  Metrics.batchMode c = true /\ Metrics.multiBatchMode c = true.

Definition outside_batch (c : Metrics.BoundMetricsClient) : Prop :=
  Metrics.batchMode c = false /\ Metrics.multiBatchMode c = false.

(** The states a bound metrics client can be brought into through its
    public methods. *)
Inductive metrics_reachable `{Platform} : Metrics.BoundMetricsClient -> Prop :=
| reach_new http entityId debug :
    metrics_reachable (Metrics.new_BoundMetricsClient http entityId debug)
| reach_send c name value unit tags w :
    metrics_reachable c ->
    metrics_reachable (snd (fst (Metrics.send c name value unit tags w)))
| reach_beginBatch c metricName unit :
    metrics_reachable c -> metrics_reachable (Metrics.beginBatch metricName unit c)
| reach_add c value tags :
    metrics_reachable c -> metrics_reachable (snd (Metrics.add c value tags))
| reach_beginMultiBatch c :
    metrics_reachable c -> metrics_reachable (Metrics.beginMultiBatch c)
| reach_addMetric c name value unit tags :
    metrics_reachable c ->
    metrics_reachable (snd (Metrics.addMetric c name value unit tags))
| reach_sendBatch c w :
    metrics_reachable c -> metrics_reachable (snd (fst (Metrics.sendBatch c w)))
| reach_endBatch c :
    metrics_reachable c -> metrics_reachable (Metrics.endBatch c)
| reach_clearBatch c :
    metrics_reachable c -> metrics_reachable (Metrics.clearBatch c).

(** What one attempt of [post] or [get] comes to: it is read off the
    head of the network script. *)
Definition attempt_result (w : World) : Thrown + Http.HttpResponse :=
  match network w with
  | Responds status data :: _ => inr {| Http.status := status; Http.data := data |}
  | Rejects e :: _ => inl (ThrownError e)
  | [] => inl (ThrownError network_down)
  end.

(** The error in hand when every attempt of a script has been rejected. *)
Definition last_error (es : list JsError) (before : Thrown) : Thrown :=
  fold_left (fun _ e => ThrownError e) es before.

(** The guard of a console capture is set exactly while a POST started
    by [flush] has not settled. *)
Definition guard_coherent (p : Capture.Process) : Prop :=
  Capture.flushing (Capture.this p) = true <-> is_Some (Capture.in_flight p).

(** The states a capture goes through. *)
Inductive capture_reachable `{Platform} : Capture.Process -> Prop :=
| capture_new config : capture_reachable (Capture.new_ConsoleCapture config)
| capture_call p method args :
    capture_reachable p -> capture_reachable (Capture.console_call method args p)
| capture_tick p : capture_reachable p -> capture_reachable (Capture.timer_tick p)
| capture_settle p w : capture_reachable p -> capture_reachable (fst (Capture.settle p w))
| capture_shutdown p : capture_reachable p -> capture_reachable (Capture.shutdown p).

(** A Unicode scalar value: a code point that is not a surrogate. *)
Definition scalar_value (c : Z) : Prop :=
  0 <= c < 0x110000 /\ ~ (0xD800 <= c <= 0xDFFF).

(** The length in bytes of the UTF-8 encoding of a string. *)
Definition utf8_length (str : JsString) : Z :=
  Z.of_nat (length (Utils.TextEncoder_encode str)).

(** A JavaScript string: every code unit has 16 bits. *)
Definition js_string (s : JsString) : Prop :=
  Forall (fun u => 0 <= u <= 0xFFFF) s.

(** A call of [log]: its arguments. *)
Record LogCall := {
  call_level : LogLevel;
  call_message : JsString;
  call_tags : option Obj
}.

(** The entry [log] builds for a call. *)
Definition entry_of (this : Logger.LogDotLogger) (h : Logger.Heap) (call : LogCall)
  : Logger.LogEntry :=
  {| Logger.message := call_message call; Logger.level := call_level call;
     Logger.tags := Logger.mergeTags this h (call_tags call) |}.

(** A sequence of [log] calls, one after the other: what each returned,
    and the logger and the world after the last. *)
Definition log_all `{Platform} (h : Logger.Heap) (calls : list LogCall)
    (this : Logger.LogDotLogger) (w : World)
  : list (Thrown + bool) * Logger.LogDotLogger * World :=
  foldl (fun acc call =>
           let '(results, this, w) := acc in
           let '(r, this', w') :=
             Logger.log this h (call_level call) (call_message call) (call_tags call) w in
           (results ++ [r], this', w'))
        ([], this, w) calls.

(** What holds of a capture between two of its steps: nothing is buffered
    while a flush is in flight, the buffer is below its limit, and the
    transport is the silent one of the constructor, with the default
    number of attempts. *)
Definition capture_wellformed (p : Capture.Process) : Prop :=
  let c := Capture.this p in
  (Capture.flushing c = true -> Capture.buffer c = []) /\
  Z.of_nat (length (Capture.buffer c)) < Z.max 1 (Capture.maxBufferSize c) /\
  Http.debugEnabled (Capture.http c) = false /\
  Http.maxAttempts (Http.retryConfig (Capture.http c)) = 3.

(** The states a metric exporter goes through: one export after the
    other. *)
Inductive exporter_reachable `{Platform} : Exporter.LogDotMetricExporter -> Prop :=
| exporter_new config : exporter_reachable (Exporter.new_LogDotMetricExporter config)
| exporter_export this resourceMetrics w :
    exporter_reachable this ->
    exporter_reachable (snd (fst (Exporter.export this resourceMetrics w))).

(** Every payload an export would send. *)
Definition export_payloads `{Platform} (resourceMetrics : Exporter.ResourceMetrics)
  : list Exporter.LogDotMetricPayload :=
  flat_map (fun scope => flat_map Exporter.convertMetricData (Exporter.metrics scope))
           (Exporter.scopeMetrics resourceMetrics).

(** A string, a number or a boolean. *)
Definition primitive (v : Json) : Prop :=
  match v with
  | JStr _ | JNum _ | JBool _ => True
  | JNull | JArr _ | JObj _ => False
  end.

(** The entry the console wrapper buffers for a call. *)
Definition captured `{Platform} (call : Capture.ConsoleMethod * list Capture.Arg)
  : Capture.BufferedLog :=
  {| Capture.message := Utils.truncateBytes_default (Capture.formatArgs (snd call));
     Capture.severity :=
       match fst call with
       | Capture.m_log | Capture.m_info => Info
       | Capture.m_warn => Warn
       | Capture.m_error => Error
       | Capture.m_debug => Debug
       end;
     Capture.tags := [(lit "source", JStr (lit "console"))] |}.

(** Console calls, one after the other. *)
Definition console_calls `{Platform}
    (calls : list (Capture.ConsoleMethod * list Capture.Arg)) (p : Capture.Process)
  : Capture.Process :=
  foldl (fun p call => Capture.console_call (fst call) (snd call) p) p calls.

(* ================================================================== *)
(** * Properties *)
(* ================================================================== *)

Example truncate_ascii :
  Utils.truncateBytes (lit "hello world") 5 = lit "hello... [truncated]".
Proof. vm_compute. reflexivity. Qed.

Example truncate_two_byte :
  Utils.truncateBytes [97; 0xE9; 98] 2 = lit "a... [truncated]".
Proof. vm_compute. reflexivity. Qed.

Example truncate_four_byte :
  Utils.truncateBytes [97; 0xD83D; 0xDE00; 98] 4 = lit "a... [truncated]".
Proof. vm_compute. reflexivity. Qed.

Example truncate_four_byte_fits :
  Utils.truncateBytes [97; 0xD83D; 0xDE00; 98] 5
  = [97; 0xD83D; 0xDE00] ++ lit "... [truncated]".
Proof. vm_compute. reflexivity. Qed.

Example truncate_lone :
  Utils.truncateBytes [0xD800; 97; 98; 99] 4 = [0xFFFD; 97] ++ lit "... [truncated]".
Proof. vm_compute. reflexivity. Qed.

Example truncate_negative_budget :
  Utils.truncateBytes (lit "abc") (-1) = lit "ab... [truncated]".
Proof. vm_compute. reflexivity. Qed.

Example truncate_bom :
  Utils.truncateBytes [0xFEFF; 97; 98] 4 = [97] ++ lit "... [truncated]".
Proof. vm_compute. reflexivity. Qed.

(* ------------------------------------------------------------------ *)
(** ** The byte-safe truncator *)
(* ------------------------------------------------------------------ *)

Section Truncation.

Ltac dlia := Z.to_euclidean_division_equations; lia.

(** *** The codecs on scalar values *)

Lemma is_high_surrogate_iff (u : Z) :
  Utils.is_high_surrogate u = true <-> 0xD800 <= u <= 0xDBFF.
Proof. unfold Utils.is_high_surrogate. rewrite andb_true_iff, !Z.leb_le. tauto. Qed.

Lemma is_low_surrogate_iff (u : Z) :
  Utils.is_low_surrogate u = true <-> 0xDC00 <= u <= 0xDFFF.
Proof. unfold Utils.is_low_surrogate. rewrite andb_true_iff, !Z.leb_le. tauto. Qed.

Lemma not_surrogate (u : Z) :
  ~ (0xD800 <= u <= 0xDFFF) ->
  Utils.is_high_surrogate u = false /\ Utils.is_low_surrogate u = false.
Proof.
  intros Hu. split; apply not_true_is_false; intros Hs;
    [apply is_high_surrogate_iff in Hs | apply is_low_surrogate_iff in Hs]; lia.
Qed.

Lemma code_points_utf16_cons (c : Z) (rest : JsString) :
  scalar_value c ->
  Utils.code_points (Utils.utf16_of_cp c ++ rest) = c :: Utils.code_points rest.
Proof.
  intros [Hrange Hsur]. unfold Utils.utf16_of_cp.
  destruct (Z.ltb_spec c 0x10000) as [Hlt | Hge].
  - destruct (not_surrogate c Hsur) as [Hh Hl].
    cbn [app Utils.code_points]. by rewrite Hh, Hl.
  - cbn [app Utils.code_points].
    assert (Hh : Utils.is_high_surrogate (0xD800 + (c - 0x10000) / 0x400) = true)
      by (apply is_high_surrogate_iff; dlia).
    assert (Hl : Utils.is_low_surrogate (0xDC00 + (c - 0x10000) mod 0x400) = true)
      by (apply is_low_surrogate_iff; dlia).
    rewrite Hh, Hl. f_equal. dlia.
Qed.

(** A well-formed string reads back as the scalar values it spells. *)
Lemma code_points_utf16 (cps : list Z) :
  Forall scalar_value cps -> Utils.code_points (Utils.utf16 cps) = cps.
Proof.
  induction 1 as [|c cps Hc _ IH]; [reflexivity|].
  unfold Utils.utf16 in *. cbn [flat_map].
  by rewrite code_points_utf16_cons, IH.
Qed.

Lemma encode_utf16 (cps : list Z) :
  Forall scalar_value cps -> Utils.TextEncoder_encode (Utils.utf16 cps) = Utils.utf8 cps.
Proof. intros Hcps. unfold Utils.TextEncoder_encode. by rewrite code_points_utf16. Qed.

(** The test [(b & 0xc0) === 0x80] on a byte. *)
Lemma continuation_range (b : Z) :
  0 <= b < 256 ->
  Utils.is_continuation (Some b) = (0x80 <=? b) && (b <? 0xC0).
Proof.
  intros Hb.
  assert (Hall : forallb (fun n => Bool.eqb
                                     (Utils.is_continuation (Some (Z.of_nat n)))
                                     ((0x80 <=? Z.of_nat n) && (Z.of_nat n <? 0xC0)))
                   (seq 0 256) = true) by (vm_compute; reflexivity).
  rewrite forallb_forall in Hall.
  specialize (Hall (Z.to_nat b)). rewrite Z2Nat.id in Hall by lia.
  apply eqb_prop, Hall. apply in_seq. lia.
Qed.

(** The encoding of a scalar value is a byte that is not a continuation
    byte followed by at most three that are. *)
Lemma utf8_of_cp_shape (c : Z) :
  scalar_value c ->
  exists lead tail,
    Utils.utf8_of_cp c = lead :: tail /\
    Utils.is_continuation (Some lead) = false /\
    Forall (fun b => Utils.is_continuation (Some b) = true) tail.
Proof.
  intros [Hrange _]. unfold Utils.utf8_of_cp.
  destruct (Z.ltb_spec c 0x80); [|destruct (Z.ltb_spec c 0x800);
                                   [|destruct (Z.ltb_spec c 0x10000)]];
    eexists; eexists; (split; [reflexivity|]);
    (split; [rewrite continuation_range by dlia; apply andb_false_iff;
             rewrite Z.leb_gt, Z.ltb_ge; dlia|]);
    repeat constructor;
    rewrite continuation_range by dlia; apply andb_true_iff;
    rewrite Z.leb_le, Z.ltb_lt; dlia.
Qed.

Ltac decide_tests :=
  repeat match goal with
         | |- context [?a <=? ?b] => destruct (Z.leb_spec a b); try (exfalso; lia)
         | |- context [?a <? ?b] => destruct (Z.ltb_spec a b); try (exfalso; lia)
         | |- context [?a =? ?b] => destruct (Z.eqb_spec a b); try (exfalso; lia)
         end.

(** The decoder's transitions on the bytes an encoder produces. *)
Lemma decoder_ascii (b : Z) :
  b <= 0x7F -> Utils.decoder_step Utils.decoder_init b = (Utils.decoder_init, [b]).
Proof. intros Hb. unfold Utils.decoder_step, Utils.decoder_lead. cbn. by decide_tests. Qed.

Lemma decoder_lead2 (b : Z) :
  0xC2 <= b <= 0xDF ->
  Utils.decoder_step Utils.decoder_init b
  = ({| Utils.code_point := b mod 32; Utils.bytes_seen := 0; Utils.bytes_needed := 1;
        Utils.lower_boundary := 0x80; Utils.upper_boundary := 0xBF |}, []).
Proof. intros Hb. unfold Utils.decoder_step, Utils.decoder_lead. cbn. by decide_tests. Qed.

Lemma decoder_lead3 (b : Z) :
  0xE0 <= b <= 0xEF ->
  Utils.decoder_step Utils.decoder_init b
  = ({| Utils.code_point := b mod 16; Utils.bytes_seen := 0; Utils.bytes_needed := 2;
        Utils.lower_boundary := if b =? 0xE0 then 0xA0 else 0x80;
        Utils.upper_boundary := if b =? 0xED then 0x9F else 0xBF |}, []).
Proof. intros Hb. unfold Utils.decoder_step, Utils.decoder_lead. cbn. by decide_tests. Qed.

Lemma decoder_lead4 (b : Z) :
  0xF0 <= b <= 0xF4 ->
  Utils.decoder_step Utils.decoder_init b
  = ({| Utils.code_point := b mod 8; Utils.bytes_seen := 0; Utils.bytes_needed := 3;
        Utils.lower_boundary := if b =? 0xF0 then 0x90 else 0x80;
        Utils.upper_boundary := if b =? 0xF4 then 0x8F else 0xBF |}, []).
Proof. intros Hb. unfold Utils.decoder_step, Utils.decoder_lead. cbn. by decide_tests. Qed.

Lemma decoder_last (cp seen needed lo hi b : Z) :
  needed <> 0 -> lo <= b <= hi -> seen + 1 = needed ->
  Utils.decoder_step
    {| Utils.code_point := cp; Utils.bytes_seen := seen; Utils.bytes_needed := needed;
       Utils.lower_boundary := lo; Utils.upper_boundary := hi |} b
  = (Utils.decoder_init, [cp * 64 + b mod 64]).
Proof. intros Hn Hb Hs. unfold Utils.decoder_step. cbn. by decide_tests. Qed.

Lemma decoder_more (cp seen needed lo hi b : Z) :
  needed <> 0 -> lo <= b <= hi -> seen + 1 <> needed ->
  Utils.decoder_step
    {| Utils.code_point := cp; Utils.bytes_seen := seen; Utils.bytes_needed := needed;
       Utils.lower_boundary := lo; Utils.upper_boundary := hi |} b
  = ({| Utils.code_point := cp * 64 + b mod 64; Utils.bytes_seen := seen + 1;
        Utils.bytes_needed := needed;
        Utils.lower_boundary := 0x80; Utils.upper_boundary := 0xBF |}, []).
Proof. intros Hn Hb Hs. unfold Utils.decoder_step. cbn. by decide_tests. Qed.

(** The decoder reads the encoding of a scalar value back. *)
Lemma utf8_decode_cons (c : Z) (rest : list Z) :
  scalar_value c ->
  Utils.utf8_decode Utils.decoder_init (Utils.utf8_of_cp c ++ rest)
  = c :: Utils.utf8_decode Utils.decoder_init rest.
Proof.
  intros [Hrange Hsur]. unfold Utils.utf8_of_cp.
  destruct (Z.ltb_spec c 0x80); [|destruct (Z.ltb_spec c 0x800);
                                   [|destruct (Z.ltb_spec c 0x10000)]];
    cbn [app Utils.utf8_decode].
  - rewrite decoder_ascii by lia. reflexivity.
  - rewrite decoder_lead2 by dlia.
    rewrite decoder_last by dlia.
    cbn [app]. f_equal. dlia.
  - rewrite decoder_lead3 by dlia.
    rewrite decoder_more by (decide_tests; dlia).
    rewrite decoder_last by dlia.
    cbn [app]. f_equal. dlia.
  - rewrite decoder_lead4 by dlia.
    rewrite decoder_more by (decide_tests; dlia).
    rewrite decoder_more by dlia.
    rewrite decoder_last by dlia.
    cbn [app]. f_equal. dlia.
Qed.

Lemma utf8_decode_utf8 (cps : list Z) :
  Forall scalar_value cps ->
  Utils.utf8_decode Utils.decoder_init (Utils.utf8 cps) = cps.
Proof.
  induction 1 as [|c cps Hc _ IH]; [reflexivity|].
  unfold Utils.utf8 in *. cbn [flat_map].
  by rewrite utf8_decode_cons, IH.
Qed.

(** *** The cut *)

Lemma utf8_app (a b : list Z) : Utils.utf8 (a ++ b) = Utils.utf8 a ++ Utils.utf8 b.
Proof. unfold Utils.utf8. apply flat_map_app. Qed.

Lemma utf16_app (a b : list Z) : Utils.utf16 (a ++ b) = Utils.utf16 a ++ Utils.utf16 b.
Proof. unfold Utils.utf16. apply flat_map_app. Qed.

Lemma byte_at_middle (pre mid post : list Z) (i : Z) :
  Z.of_nat (length pre) <= i < Z.of_nat (length pre) + Z.of_nat (length mid) ->
  Utils.byte_at (pre ++ mid ++ post) i
  = nth_error mid (Z.to_nat (i - Z.of_nat (length pre))).
Proof.
  intros Hi. unfold Utils.byte_at.
  destruct (Z.ltb_spec i 0); [lia|].
  rewrite nth_error_app2 by lia.
  rewrite nth_error_app1 by lia.
  f_equal. lia.
Qed.

(** The unrolling in [truncateBytes] is long enough: where it ends, the
    condition of the [while] loop is false. *)
Lemma walk_back_stops (encoded : list Z) (maxBytes : Z) :
  let end_ := Utils.walk_back encoded (Z.to_nat maxBytes) maxBytes in
  (0 <? end_) && Utils.is_continuation (Utils.byte_at encoded end_) = false.
Proof.
  assert (Hgen : forall fuel e,
             e <= Z.of_nat fuel ->
             (0 <? Utils.walk_back encoded fuel e)
             && Utils.is_continuation
                  (Utils.byte_at encoded (Utils.walk_back encoded fuel e)) = false).
  { induction fuel as [|fuel IH]; intros e He; cbn [Utils.walk_back].
    - replace (0 <? e) with false by (symmetry; apply Z.ltb_ge; lia). reflexivity.
    - destruct ((0 <? e) && Utils.is_continuation (Utils.byte_at encoded e)) eqn:Hc.
      + apply IH. lia.
      + exact Hc. }
  apply Hgen. lia.
Qed.

(** From anywhere inside the encoding of one scalar value the loop walks
    back to its first byte and stops there. *)
Lemma walk_back_to_lead (pre post : list Z) (c : Z) :
  scalar_value c ->
  forall (d fuel : nat),
    (d < length (Utils.utf8_of_cp c))%nat -> (d <= fuel)%nat ->
    Utils.walk_back (pre ++ Utils.utf8_of_cp c ++ post) fuel
      (Z.of_nat (length pre) + Z.of_nat d)
    = Z.of_nat (length pre).
Proof.
  intros Hc.
  destruct (utf8_of_cp_shape c Hc) as (lead & tail & -> & Hlead & Htail).
  induction d as [|d IH]; intros fuel Hd Hfuel.
  - rewrite Z.add_0_r.
    destruct fuel as [|fuel]; [reflexivity|].
    cbn [Utils.walk_back].
    rewrite byte_at_middle by (cbn [length]; lia).
    replace (Z.to_nat _) with 0%nat by lia.
    cbn [nth_error]. rewrite Hlead. by rewrite andb_false_r.
  - destruct fuel as [|fuel]; [lia|].
    cbn [Utils.walk_back].
    rewrite byte_at_middle by (cbn [length] in *; lia).
    replace (Z.to_nat _) with (S d) by lia.
    cbn [nth_error].
    cbn [length] in Hd.
    destruct (nth_error tail d) as [b|] eqn:Hb;
      [|apply nth_error_None in Hb; lia].
    rewrite Forall_forall in Htail.
    rewrite (Htail b) by (apply list_elem_of_In; eapply nth_error_In; exact Hb).
    replace (0 <? _) with true by (symmetry; apply Z.ltb_lt; lia).
    cbn [andb].
    replace (Z.of_nat (length pre) + Z.of_nat (S d) - 1)
      with (Z.of_nat (length pre) + Z.of_nat d) by lia.
    apply IH; cbn [length]; lia.
Qed.

(** Every byte position of an encoding lies in the encoding of one of its
    scalar values. *)
Lemma split_at_byte (cps : list Z) :
  forall i,
    0 <= i < Z.of_nat (length (Utils.utf8 cps)) ->
    exists front c back,
      cps = front ++ c :: back /\
      Z.of_nat (length (Utils.utf8 front)) <= i
      < Z.of_nat (length (Utils.utf8 front)) + Z.of_nat (length (Utils.utf8_of_cp c)).
Proof.
  induction cps as [|c cps IH]; intros i Hi; [cbn in Hi; lia|].
  change (Utils.utf8 (c :: cps)) with (Utils.utf8_of_cp c ++ Utils.utf8 cps) in Hi.
  rewrite length_app in Hi.
  destruct (Z.lt_ge_cases i (Z.of_nat (length (Utils.utf8_of_cp c)))) as [Hin | Hout].
  - exists [], c, cps. split; [reflexivity|]. cbn. lia.
  - destruct (IH (i - Z.of_nat (length (Utils.utf8_of_cp c)))) as (front & c' & back & -> & Hb);
      [lia|].
    exists (c :: front), c', back. split; [reflexivity|].
    change (Utils.utf8 (c :: front)) with (Utils.utf8_of_cp c ++ Utils.utf8 front).
    rewrite length_app. lia.
Qed.

Lemma utf8_of_cp_nonempty (c : Z) : (1 <= length (Utils.utf8_of_cp c))%nat.
Proof.
  unfold Utils.utf8_of_cp.
  destruct (c <? 0x80); [|destruct (c <? 0x800); [|destruct (c <? 0x10000)]]; cbn; lia.
Qed.

Lemma slice0_prefix (pre post : list Z) :
  post <> [] -> Utils.slice0 (pre ++ post) (Z.of_nat (length pre)) = pre.
Proof.
  intros Hpost. unfold Utils.slice0.
  destruct (Z.ltb_spec (Z.of_nat (length pre)) 0); [lia|].
  rewrite length_app, Z.min_l by lia.
  rewrite Nat2Z.id. apply take_app_length.
Qed.

Lemma strip_bom_prefix (front back : list Z) (c : Z) :
  hd_error (front ++ c :: back) <> Some Utils.BOM ->
  Utils.strip_bom front = front.
Proof.
  destruct front as [|c0 front]; [reflexivity|].
  cbn. intros Hhd. destruct (Z.eqb_spec c0 Utils.BOM); [congruence | reflexivity].
Qed.

(** C2, as the code has it.  A string whose UTF-8 encoding fits the
    budget is returned as it is.  Otherwise, for a well-formed string (one
    that spells scalar values, with no unpaired surrogate) that does not
    begin with U+FEFF and a budget that is not negative, the result is the
    marker appended to the longest prefix, cut between two scalar values,
    whose UTF-8 encoding fits the budget; that encoding decodes to the
    prefix itself, with no replacement character.  The function is total:
    it returns for every input. *)
Theorem truncateBytes_prefix :
  (forall (str : JsString) (maxBytes : Z),
     utf8_length str <= maxBytes -> Utils.truncateBytes str maxBytes = str) /\
  (forall (cps : list Z) (maxBytes : Z),
     Forall scalar_value cps ->
     hd_error cps <> Some Utils.BOM ->
     0 <= maxBytes < utf8_length (Utils.utf16 cps) ->
     exists k,
       (k < length cps)%nat /\
       Utils.truncateBytes (Utils.utf16 cps) maxBytes
       = Utils.utf16 (firstn k cps) ++ Utils.TRUNCATED /\
       Utils.utf16 cps = Utils.utf16 (firstn k cps) ++ Utils.utf16 (skipn k cps) /\
       utf8_length (Utils.utf16 (firstn k cps)) <= maxBytes /\
       Utils.TextDecoder_decode (Utils.TextEncoder_encode (Utils.utf16 (firstn k cps)))
       = Utils.utf16 (firstn k cps) /\
       (forall j, utf8_length (Utils.utf16 (firstn j cps)) <= maxBytes -> (j <= k)%nat)).
Proof.
  split.
  - intros str maxBytes Hfits. unfold Utils.truncateBytes.
    unfold utf8_length in Hfits.
    by destruct (Z.leb_spec (Z.of_nat (length (Utils.TextEncoder_encode str))) maxBytes);
      [|lia].
  - intros cps maxBytes Hcps Hbom [Hmax Hover].
    unfold utf8_length in Hover. rewrite (encode_utf16 cps Hcps) in Hover.
    destruct (split_at_byte cps maxBytes (conj Hmax Hover))
      as (front & c & back & -> & Hlo & Hhi).
    apply Forall_app in Hcps as [Hfront Hrest].
    pose proof (Forall_inv Hrest) as Hc.
    pose proof (utf8_of_cp_nonempty c) as Hne.
    assert (Htake : firstn (length front) (front ++ c :: back) = front)
      by apply take_app_length.
    assert (Hdrop : skipn (length front) (front ++ c :: back) = c :: back)
      by apply drop_app_length.
    assert (Hdecode : Utils.TextDecoder_decode (Utils.utf8 front) = Utils.utf16 front).
    { unfold Utils.TextDecoder_decode.
      by rewrite (utf8_decode_utf8 front Hfront), (strip_bom_prefix front back c Hbom). }
    exists (length front). rewrite Htake, Hdrop.
    split; [rewrite length_app; cbn; lia|].
    split; [|split; [|split; [|split]]].
    + unfold Utils.truncateBytes.
      rewrite encode_utf16 by (apply Forall_app; auto).
      destruct (Z.leb_spec (Z.of_nat (length (Utils.utf8 (front ++ c :: back)))) maxBytes);
        [lia|].
      rewrite utf8_app.
      change (Utils.utf8 (c :: back)) with (Utils.utf8_of_cp c ++ Utils.utf8 back).
      replace maxBytes
        with (Z.of_nat (length (Utils.utf8 front))
              + Z.of_nat (Z.to_nat (maxBytes - Z.of_nat (length (Utils.utf8 front)))))
        at 2 by lia.
      rewrite (walk_back_to_lead (Utils.utf8 front) (Utils.utf8 back) c Hc) by lia.
      rewrite slice0_prefix by (destruct (Utils.utf8_of_cp c); [cbn in Hne; lia | done]).
      by rewrite Hdecode.
    + apply (utf16_app front (c :: back)).
    + unfold utf8_length. rewrite (encode_utf16 front Hfront). lia.
    + by rewrite (encode_utf16 front Hfront).
    + intros j Hj. destruct (Nat.le_gt_cases j (length front)) as [|Hgt]; [done|exfalso].
      unfold utf8_length in Hj.
      rewrite encode_utf16 in Hj by (apply Forall_take, Forall_app; auto).
      replace j with (length front + S (j - S (length front)))%nat in Hj by lia.
      rewrite firstn_app_2 in Hj. cbn [firstn] in Hj.
      rewrite utf8_app in Hj.
      change (Utils.utf8 (c :: ?l)) with (Utils.utf8_of_cp c ++ Utils.utf8 l) in Hj.
      rewrite !length_app in Hj. lia.
Qed.

End Truncation.

(** ["a😀b"] has 6 bytes; cut to 4 it keeps ["a"], the emoji needing four
    more. *)
Lemma truncateBytes_prefix_witness :
  Utils.truncateBytes [97; 0xD83D; 0xDE00; 98] 4 = [97] ++ Utils.TRUNCATED /\
  Utils.truncateBytes [97; 0xD83D; 0xDE00; 98] 6 = [97; 0xD83D; 0xDE00; 98].
Proof.
  destruct truncateBytes_prefix as [Hfits Hcut]. split.
  - destruct (Hcut [97; 0x1F600; 98] 4) as (k & Hk & Hrun & _ & Hle & _ & Hmax).
    + repeat constructor; unfold scalar_value; lia.
    + discriminate.
    + split; [lia | reflexivity].
    + assert (k = 1%nat) as ->.
      { assert (H1 : (1 <= k)%nat) by (apply Hmax; vm_compute; discriminate).
        destruct k as [|[|[|k]]]; [lia | reflexivity | | cbn in Hk; lia].
        vm_compute in Hle. congruence. }
      exact Hrun.
  - apply Hfits. vm_compute. discriminate.
Defined.

(** C2, as the claim has it, fails on a string with an unpaired surrogate:
    the encoder writes U+FFFD for it, so what comes back is not a prefix of
    the string. *)
Lemma truncateBytes_lone_surrogate_counterexample :
  let str := [0xD800; 97; 98; 99] in
  4 < utf8_length str /\
  Utils.truncateBytes str 4 = [0xFFFD; 97] ++ Utils.TRUNCATED /\
  ~ (exists p suffix,
       str = p ++ suffix /\ Utils.truncateBytes str 4 = p ++ Utils.TRUNCATED).
Proof.
  intros str.
  assert (Hrun : Utils.truncateBytes str 4 = [0xFFFD; 97] ++ Utils.TRUNCATED)
    by (vm_compute; reflexivity).
  split; [reflexivity|]. split; [exact Hrun|].
  intros (p & suffix & Hstr & Hp).
  rewrite Hrun in Hp. apply app_inv_tail in Hp. subst p.
  discriminate Hstr.
Qed.



(* ------------------------------------------------------------------ *)
(** ** The retrying transport: attempts *)
(* ------------------------------------------------------------------ *)

Section Attempts.
Context `{Platform}.

Lemma log_world (c : Http.HttpClient) (message : JsString) (w : World) :
  exists w',
    Http.log c message w = (inr tt, w') /\
    network w' = network w /\ entropy w' = entropy w /\
    wire w' = wire w /\ slept w' = slept w.
Proof.
  unfold Http.log. destruct (Http.debugEnabled c); eexists; (split; [reflexivity|]);
    cbn; auto.
Qed.

Lemma fetch_world (req : Request) (w : World) :
  exists w',
    fetch req w =
      (match attempt_result w with
       | inr r => inr (Http.status r, Http.data r)
       | inl t => inl t
       end, w') /\
    network w' = tl (network w) /\ wire w' = wire w ++ [req].
Proof.
  unfold fetch, attempt_result.
  destruct (network w) as [|[e | status data] rest];
    eexists; (split; [reflexivity|]); cbn; auto.
Qed.

Lemma post_attempt_world (c : Http.HttpClient) (url : JsString) (body : Json) (w : World) :
  fst (Http.post_attempt c url body w) = attempt_result w /\
  network (snd (Http.post_attempt c url body w)) = tl (network w) /\
  wire (snd (Http.post_attempt c url body w)) = wire w ++ [Http.post_request c url body].
Proof.
  unfold Http.post_attempt, bind.
  destruct (log_world c (lit "POST " ++ url) w) as (w1 & -> & Hn1 & _ & Hw1 & _).
  destruct (log_world c (lit "Payload: " ++ JSON_stringify body) w1)
    as (w2 & -> & Hn2 & _ & Hw2 & _).
  destruct (fetch_world (Http.post_request c url body) w2) as (w3 & -> & Hn3 & Hw3).
  assert (Ha : attempt_result w2 = attempt_result w)
    by (unfold attempt_result; by rewrite Hn2, Hn1).
  rewrite Ha, Hn2, Hn1 in *. rewrite Hw2, Hw1 in Hw3.
  destruct (attempt_result w) as [t | [status data]]; cbn; [auto|].
  destruct (log_world c (lit "Response status: " ++ Number_toString (inject_Z status)) w3)
    as (w4 & -> & Hn4 & _ & Hw4 & _).
  assert (Hbody : exists w5,
             match data with
             | Some d =>
                 if truthy d
                 then Http.log c (lit "Response body: " ++ JSON_stringify d)
                 else ret tt
             | None => ret tt
             end w4 = (inr tt, w5) /\ network w5 = network w4 /\ wire w5 = wire w4).
  { destruct data as [d|]; [destruct (truthy d)|]; try (by eexists).
    destruct (log_world c (lit "Response body: " ++ JSON_stringify d) w4)
      as (w5 & -> & Hn5 & _ & Hw5 & _). by eexists. }
  destruct Hbody as (w5 & -> & Hn5 & Hw5). cbn.
  rewrite Hn5, Hn4, Hw5, Hw4. auto.
Qed.

Lemma get_attempt_world (c : Http.HttpClient) (url : JsString) (w : World) :
  fst (Http.get_attempt c url w) = attempt_result w /\
  network (snd (Http.get_attempt c url w)) = tl (network w) /\
  wire (snd (Http.get_attempt c url w)) = wire w ++ [Http.get_request c url].
Proof.
  unfold Http.get_attempt, bind.
  destruct (log_world c (lit "GET " ++ url) w) as (w1 & -> & Hn1 & _ & Hw1 & _).
  destruct (fetch_world (Http.get_request c url) w1) as (w3 & -> & Hn3 & Hw3).
  assert (Ha : attempt_result w1 = attempt_result w)
    by (unfold attempt_result; by rewrite Hn1).
  rewrite Ha, Hn1 in *. rewrite Hw1 in Hw3.
  destruct (attempt_result w) as [t | [status data]]; cbn; [auto|].
  destruct (log_world c (lit "Response status: " ++ Number_toString (inject_Z status)) w3)
    as (w4 & -> & Hn4 & _ & Hw4 & _).
  cbn. rewrite Hn4, Hw4. auto.
Qed.

(** Between two attempts the loop draws a random number, may print and
    sleeps; it does not touch the network. *)
Lemma after_failure_world (c : Http.HttpClient) (attempt : Z) (e : JsError) (w : World) :
  exists w',
    Http.after_failure c attempt (ThrownError e) w = (inr tt, w') /\
    network w' = network w /\ wire w' = wire w.
Proof.
  unfold Http.after_failure.
  destruct (attempt <? _); [|by eexists].
  unfold Http.calculateBackoff, Math_random, lift, message_of, ret, Http.sleep.
  repeat unfold bind.
  destruct (entropy w) as [|r rest]; cbn;
    match goal with
    | |- context [Http.log c ?m ?w0] =>
        destruct (log_world c m w0) as (w1 & -> & Hn & _ & Hw & _)
    end; cbn; eexists; (split; [reflexivity|]); cbn; rewrite Hn, Hw; auto.
Qed.

Lemma attempt_result_thrown (w : World) (t : Thrown) :
  attempt_result w = inl t -> exists e, t = ThrownError e.
Proof.
  unfold attempt_result.
  destruct (network w) as [|[e | status data] rest]; intros [= <-]; by eexists.
Qed.

Lemma attempt_result_rejects (w : World) e rest :
  network w = Rejects e :: rest -> attempt_result w = inl (ThrownError e).
Proof. unfold attempt_result. by intros ->. Qed.

Lemma attempt_result_responds (w : World) status data rest :
  network w = Responds status data :: rest ->
  attempt_result w = inr {| Http.status := status; Http.data := data |}.
Proof. unfold attempt_result. by intros ->. Qed.

(** The loop of [executeWithRetry] around a function that makes one
    request per call. *)
Section Loop.
Variable c : Http.HttpClient.
Variable fn : Eff Http.HttpResponse.
Variable req : Request.
Hypothesis fn_attempt : forall w,
  fst (fn w) = attempt_result w /\
  network (snd (fn w)) = tl (network w) /\
  wire (snd (fn w)) = wire w ++ [req].

Lemma retry_loop_responds (es : list JsError) :
  forall remaining attempt before w status data rest,
    network w = map Rejects es ++ Responds status data :: rest ->
    (length es < remaining)%nat ->
    exists w',
      Http.retry_loop c fn remaining attempt before w
      = (inr {| Http.status := status; Http.data := data |}, w') /\
      wire w' = wire w ++ repeat req (S (length es)) /\
      network w' = rest.
Proof.
  induction es as [|e es IH]; intros remaining attempt before w status data rest Hnet Hlen;
    (destruct remaining as [|k]; [cbn in Hlen; lia|]);
    cbn [Http.retry_loop];
    destruct (fn_attempt w) as (Hr & Hn & Hw);
    destruct (fn w) as [r w1]; cbn in Hr, Hn, Hw; subst r.
  - rewrite (attempt_result_responds w status data rest Hnet).
    eexists. split; [reflexivity|]. rewrite Hn, Hnet. auto.
  - rewrite (attempt_result_rejects w e _ Hnet).
    destruct (after_failure_world c attempt e w1) as (w2 & -> & Hn2 & Hw2).
    destruct (IH k (attempt + 1) (ThrownError e) w2 status data rest) as (w' & -> & Hw' & Hn').
    + rewrite Hn2, Hn, Hnet. reflexivity.
    + cbn in Hlen. lia.
    + eexists. split; [reflexivity|]. split; [|exact Hn'].
      rewrite Hw', Hw2, Hw. cbn. by rewrite <- app_assoc.
Qed.

Lemma retry_loop_rejects (es : list JsError) :
  forall attempt before w rest,
    network w = map Rejects es ++ rest ->
    exists w',
      Http.retry_loop c fn (length es) attempt before w
      = (inl (last_error es before), w') /\
      wire w' = wire w ++ repeat req (length es) /\
      network w' = rest.
Proof.
  induction es as [|e es IH]; intros attempt before w rest Hnet.
  - cbn. eexists. split; [reflexivity|]. by rewrite app_nil_r.
  - cbn [length Http.retry_loop].
    destruct (fn_attempt w) as (Hr & Hn & Hw).
    destruct (fn w) as [r w1]; cbn in Hr, Hn, Hw; subst r.
    rewrite (attempt_result_rejects w e _ Hnet).
    destruct (after_failure_world c attempt e w1) as (w2 & -> & Hn2 & Hw2).
    destruct (IH (attempt + 1) (ThrownError e) w2 rest) as (w' & -> & Hw' & Hn').
    + rewrite Hn2, Hn, Hnet. reflexivity.
    + eexists. split; [reflexivity|]. split; [|exact Hn'].
      rewrite Hw', Hw2, Hw. cbn. by rewrite <- app_assoc.
Qed.

Lemma retry_loop_bounded (remaining : nat) :
  forall attempt before w,
    exists n,
      wire (snd (Http.retry_loop c fn remaining attempt before w))
      = wire w ++ repeat req n /\
      (n <= remaining)%nat /\
      ((0 < remaining)%nat -> (0 < n)%nat) /\
      (before <> ThrownNull \/ (0 < remaining)%nat ->
       fst (Http.retry_loop c fn remaining attempt before w) <> inl ThrownNull).
Proof.
  induction remaining as [|k IH]; intros attempt before w.
  - exists 0%nat. cbn. rewrite app_nil_r. repeat split; try lia.
    intros [Hb | Hk]; [congruence | lia].
  - cbn [Http.retry_loop].
    destruct (fn_attempt w) as (Hr & Hn & Hw).
    destruct (fn w) as [r w1]; cbn in Hr, Hn, Hw.
    destruct r as [t | value].
    + destruct (attempt_result_thrown w t (eq_sym Hr)) as [e ->].
      destruct (after_failure_world c attempt e w1) as (w2 & -> & Hn2 & Hw2).
      destruct (IH (attempt + 1) (ThrownError e) w2) as (n & Hwn & Hle & _ & Hnull).
      exists (S n). rewrite Hwn, Hw2, Hw. cbn. rewrite <- app_assoc.
      repeat split; try lia. intros _. apply Hnull. left. discriminate.
    + exists 1%nat. cbn. rewrite Hw. repeat split; try lia. discriminate.
Qed.

End Loop.

Lemma post_bounded (c : Http.HttpClient) (url : JsString) (body : Json) (w : World) :
  exists n,
    wire (snd (Http.post c url body w))
    = wire w ++ repeat (Http.post_request c url body) n /\
    Z.of_nat n <= Z.max 0 (Http.maxAttempts (Http.retryConfig c)) /\
    (1 <= Http.maxAttempts (Http.retryConfig c) ->
     (1 <= n)%nat /\ fst (Http.post c url body w) <> inl ThrownNull).
Proof.
  unfold Http.post, Http.executeWithRetry.
  destruct (retry_loop_bounded c _ _ (post_attempt_world c url body)
              (Z.to_nat (Http.maxAttempts (Http.retryConfig c))) 0 ThrownNull w)
    as (n & Hw & Hle & Hpos & Hnull).
  exists n. split; [exact Hw|]. split; [lia|].
  intros Hmax. split; [apply Hpos; lia | apply Hnull; right; lia].
Qed.

(** C3.  [post] makes another attempt only after an attempt has thrown.
    A response that completes, whatever its status, is returned at once;
    the number of requests never exceeds [maxAttempts]; and when the last
    permitted attempt throws, its error is what [post] throws. *)
Theorem post_retries_only_failures
    (c : Http.HttpClient) (url : JsString) (body : Json) (w : World) :
  let req := Http.post_request c url body in
  let maxAttempts := Http.maxAttempts (Http.retryConfig c) in
  (exists n,
     wire (snd (Http.post c url body w)) = wire w ++ repeat req n /\
     Z.of_nat n <= Z.max 0 maxAttempts) /\
  (forall es status data rest,
     network w = map Rejects es ++ Responds status data :: rest ->
     Z.of_nat (length es) < maxAttempts ->
     exists w',
       Http.post c url body w
       = (inr {| Http.status := status; Http.data := data |}, w') /\
       wire w' = wire w ++ repeat req (S (length es)) /\
       network w' = rest) /\
  (forall es e rest,
     network w = map Rejects (es ++ [e]) ++ rest ->
     Z.of_nat (length (es ++ [e])) = maxAttempts ->
     exists w',
       Http.post c url body w = (inl (ThrownError e), w') /\
       wire w' = wire w ++ repeat req (length (es ++ [e])) /\
       network w' = rest).
Proof.
  intros req maxAttempts. unfold Http.post, Http.executeWithRetry. fold maxAttempts.
  pose proof (post_attempt_world c url body) as Hfn. fold req in Hfn.
  split; [|split].
  - destruct (post_bounded c url body w) as (n & Hw & Hle & _).
    exists n. split; [exact Hw | exact Hle].
  - intros es status data rest Hnet Hlen.
    apply (retry_loop_responds c _ req Hfn es); [exact Hnet | lia].
  - intros es e rest Hnet Hlen.
    replace (Z.to_nat maxAttempts) with (length (es ++ [e])) by lia.
    destruct (retry_loop_rejects c _ req Hfn (es ++ [e]) 0 ThrownNull w rest Hnet)
      as (w' & Hrun & Hw & Hn).
    exists w'. split; [|auto].
    rewrite Hrun. unfold last_error. by rewrite fold_left_app.
Qed.

End Attempts.

(** With three attempts allowed: a timeout followed by a 503 gives the 503
    back after two requests; three failures in a row throw the third. *)
Lemma post_retries_only_failures_witness :
  let url := Http.BASE_LOGS_URL ++ lit "/logs" in
  let w1 := fresh_world [Rejects timed_out; Responds 503 None; Responds 200 None] [] in
  let w2 := fresh_world [Rejects timed_out; Rejects timed_out; Rejects refused;
                         Responds 200 None] [] in
  (fst (Http.post (H := stub_platform) example_client url JNull w1)
   = inr {| Http.status := 503; Http.data := None |}) /\
  (length (wire (snd (Http.post (H := stub_platform) example_client url JNull w1)))
   = 2%nat) /\
  (fst (Http.post (H := stub_platform) example_client url JNull w2)
   = inl (ThrownError refused)).
Proof.
  intros url w1 w2.
  destruct (@post_retries_only_failures stub_platform example_client url JNull w1)
    as (_ & Hresponds & _).
  destruct (@post_retries_only_failures stub_platform example_client url JNull w2)
    as (_ & _ & Hrejects).
  destruct (Hresponds [timed_out] 503 None [Responds 200 None])
    as (w' & -> & Hwire & _); [reflexivity | cbn; lia |].
  destruct (Hrejects [timed_out; timed_out] refused [Responds 200 None])
    as (w'' & -> & _); [reflexivity | reflexivity |].
  split; [reflexivity|]. split; [|reflexivity].
  cbn [snd]. rewrite Hwire. reflexivity.
Defined.

(* ------------------------------------------------------------------ *)
(** ** Binary64 arithmetic rounds to nearest *)
(* ------------------------------------------------------------------ *)

Section Nearest.

Lemma pow2_positive (a : Z) : 0 <= a -> 0 < 2 ^ a.
Proof. intros Ha. apply Z.pow_pos_nonneg; lia. Qed.

Lemma pow2_le (a b : Z) : 0 <= a <= b -> 2 ^ a <= 2 ^ b.
Proof. intros Hab. apply Z.pow_le_mono_r; lia. Qed.

Lemma pow2_lt (a b : Z) : 0 <= a < b -> 2 ^ a < 2 ^ b.
Proof. intros Hab. apply Z.pow_lt_mono_r; lia. Qed.

Lemma pow2_split (a b : Z) : 0 <= a <= b -> 2 ^ b = 2 ^ (b - a) * 2 ^ a.
Proof. intros Hab. rewrite <- Z.pow_add_r by lia. f_equal. lia. Qed.

Lemma grid_exponent_low (w : Z) : scale - 1074 <= grid_exponent w.
Proof. unfold grid_exponent. lia. Qed.

Lemma grid_exponent_mono (w1 w2 : Z) : w1 <= w2 -> grid_exponent w1 <= grid_exponent w2.
Proof. intros Hw. unfold grid_exponent. pose proof (Z.log2_le_mono w1 w2 Hw). lia. Qed.

Lemma grid_positive (w : Z) : 0 < 2 ^ grid_exponent w.
Proof. apply pow2_positive. pose proof (grid_exponent_low w). unfold scale in *. lia. Qed.

(** [nearest w] is one of the two neighbours of [w] on its grid. *)
Lemma nearest_neighbour (w : Z) :
  let g := 2 ^ grid_exponent w in
  (nearest w = w / g * g \/ nearest w = (w / g + 1) * g) /\
  w / g * g <= w < (w / g + 1) * g.
Proof.
  intros g. pose proof (grid_positive w) as Hg. fold g in Hg.
  split.
  - unfold nearest. fold g. destruct (round_up g (w / g) (w mod g)); [right | left];
      f_equal; lia.
  - pose proof (Z.div_mod w g ltac:(lia)) as Hdiv.
    pose proof (Z.mod_pos_bound w g Hg) as Hrest. lia.
Qed.

Lemma round_up_mono (g q r1 r2 : Z) :
  r1 <= r2 -> round_up g q r1 = true -> round_up g q r2 = true.
Proof.
  unfold round_up. intros Hr Hup.
  apply orb_true_iff in Hup as [Hup | Hup].
  - apply Z.ltb_lt in Hup. apply orb_true_iff. left. apply Z.ltb_lt. lia.
  - apply andb_true_iff in Hup as [Heq Hodd]. apply Z.eqb_eq in Heq.
    destruct (Z.eq_dec r1 r2) as [<- | Hne].
    + apply orb_true_iff. right. rewrite Hodd, andb_true_r. by apply Z.eqb_eq.
    + apply orb_true_iff. left. apply Z.ltb_lt. lia.
Qed.

(** A number below the next power of two stays at or below it when it is
    rounded. *)
Lemma nearest_below_power (w : Z) :
  0 <= w ->
  nearest w <= 2 ^ Z.max (Z.log2 w + 1) (grid_exponent w).
Proof.
  intros Hw.
  destruct (nearest_neighbour w) as [Hcases Hcell].
  pose proof (grid_positive w) as Hg.
  pose proof (grid_exponent_low w) as Hlow. unfold scale in Hlow.
  set (e := grid_exponent w) in *. set (g := 2 ^ e) in *.
  assert (Hpower : w < 2 ^ (Z.log2 w + 1)).
  { destruct (Z.eq_dec w 0) as [-> | Hne]; [reflexivity|].
    apply Z.log2_spec. lia. }
  assert (Hupper : (w / g + 1) * g <= 2 ^ Z.max (Z.log2 w + 1) e).
  { destruct (Z.le_gt_cases e (Z.log2 w + 1)) as [Hin | Hout].
    - rewrite Z.max_l by lia.
      rewrite (pow2_split e (Z.log2 w + 1)) in * by lia. fold g in Hpower |- *.
      apply Z.mul_le_mono_nonneg_r; [lia|].
      assert (w / g < 2 ^ (Z.log2 w + 1 - e)); [|lia].
      apply Z.div_lt_upper_bound; lia.
    - rewrite Z.max_r by lia. fold g.
      assert (w < g).
      { pose proof (pow2_lt (Z.log2 w + 1) e). pose proof (Z.log2_nonneg w). lia. }
      rewrite Z.div_small by lia. lia. }
  destruct Hcases as [-> | ->]; lia.
Qed.

(** Rounding keeps the order. *)
Lemma nearest_mono (w1 w2 : Z) : 0 <= w1 <= w2 -> nearest w1 <= nearest w2.
Proof.
  intros [Hpos Hle].
  pose proof (grid_exponent_mono w1 w2 Hle) as Hgrid.
  pose proof (grid_exponent_low w1) as Hlow. unfold scale in Hlow.
  destruct (nearest_neighbour w1) as [Hc1 Hcell1].
  destruct (nearest_neighbour w2) as [Hc2 Hcell2].
  pose proof (grid_positive w1) as Hg1. pose proof (grid_positive w2) as Hg2.
  destruct (Z.eq_dec (grid_exponent w1) (grid_exponent w2)) as [Hsame | Hdiff].
  - unfold nearest in *. rewrite <- Hsame in *.
    set (g := 2 ^ grid_exponent w1) in *.
    pose proof (Z.div_le_mono w1 w2 g Hg1 Hle) as Hq.
    destruct (Z.eq_dec (w1 / g) (w2 / g)) as [Heq | Hne].
    + assert (Hrest : w1 mod g <= w2 mod g).
      { pose proof (Z.div_mod w1 g ltac:(lia)). pose proof (Z.div_mod w2 g ltac:(lia)).
        rewrite Heq in *. lia. }
      rewrite Heq.
      destruct (round_up g (w2 / g) (w1 mod g)) eqn:Hup.
      * by rewrite (round_up_mono _ _ _ _ Hrest Hup).
      * destruct (round_up g (w2 / g) (w2 mod g)); nia.
    + destruct (round_up g (w1 / g) (w1 mod g)), (round_up g (w2 / g) (w2 mod g)); nia.
  - assert (Hhigh : grid_exponent w2 = Z.log2 w2 - 52) by (unfold grid_exponent in *; lia).
    assert (Hw2 : 0 < w2).
    { destruct (Z.eq_dec w2 0) as [-> | ?]; [|lia]. unfold grid_exponent in *. cbn in *. lia. }
    assert (Hfloor : 2 ^ Z.log2 w2 <= nearest w2).
    { pose proof (proj1 (Z.log2_spec w2 Hw2)) as Hlog.
      rewrite (pow2_split (grid_exponent w2) (Z.log2 w2)) in * by lia.
      replace (Z.log2 w2 - grid_exponent w2) with 52 in * by lia.
      set (g := 2 ^ grid_exponent w2) in *.
      assert (2 ^ 52 <= w2 / g) by (apply Z.div_le_lower_bound; lia).
      destruct Hc2 as [-> | ->]; nia. }
    pose proof (nearest_below_power w1 Hpos) as Hbelow.
    assert (Z.max (Z.log2 w1 + 1) (grid_exponent w1) <= Z.log2 w2).
    { unfold grid_exponent in *. lia. }
    pose proof (pow2_le (Z.max (Z.log2 w1 + 1) (grid_exponent w1)) (Z.log2 w2)).
    lia.
Qed.

Lemma nearest_fixed (w : Z) : fits w -> nearest w = w.
Proof.
  unfold fits, nearest. intros Hfit. rewrite Hfit.
  pose proof (grid_positive w) as Hg.
  unfold round_up.
  replace (2 ^ grid_exponent w <? 2 * 0) with false by (symmetry; apply Z.ltb_ge; lia).
  replace (2 * 0 =? 2 ^ grid_exponent w) with false by (symmetry; apply Z.eqb_neq; lia).
  cbn [orb andb]. rewrite Z.add_0_r.
  pose proof (Z.div_mod w (2 ^ grid_exponent w) ltac:(lia)). lia.
Qed.

Lemma fits_multiple (w a : Z) :
  grid_exponent w <= a -> w mod 2 ^ a = 0 -> fits w.
Proof.
  intros Ha Hmod. unfold fits.
  pose proof (grid_exponent_low w) as Hlow. unfold scale in Hlow.
  apply Z.mod_divide in Hmod; [|pose proof (pow2_positive a); lia].
  apply Z.mod_divide; [pose proof (grid_positive w); lia|].
  etransitivity; [|exact Hmod].
  rewrite (pow2_split (grid_exponent w) a) by lia. apply Z.divide_factor_r.
Qed.

Lemma nearest_fits (w : Z) : 0 <= w -> fits (nearest w).
Proof.
  intros Hw.
  destruct (nearest_neighbour w) as [Hcases Hcell].
  pose proof (grid_positive w) as Hg.
  pose proof (grid_exponent_low w) as Hlow. unfold scale in Hlow.
  pose proof (nearest_below_power w Hw) as Hbelow.
  set (e := grid_exponent w) in *. set (g := 2 ^ e) in *.
  assert (Hmult : nearest w mod g = 0).
  { destruct Hcases as [-> | ->]; apply Z.mod_mul; lia. }
  assert (Hnonneg : 0 <= nearest w).
  { assert (0 <= w / g) by (apply Z.div_pos; lia). destruct Hcases as [-> | ->]; nia. }
  destruct (Z.le_gt_cases (grid_exponent (nearest w)) e) as [Hsmall | Hlarge].
  - by apply (fits_multiple _ e).
  - (* the result has reached the next power of two *)
    assert (Hlog : Z.log2 w + 1 <= Z.log2 (nearest w)).
    { unfold grid_exponent in Hlarge. subst e. unfold grid_exponent in *. lia. }
    assert (Hnz : 0 < nearest w).
    { destruct (Z.eq_dec (nearest w) 0) as [Hz | ?]; [|lia].
      rewrite Hz in Hlog. cbn in Hlog. pose proof (Z.log2_nonneg w). lia. }
    pose proof (proj1 (Z.log2_spec _ Hnz)) as Hspec.
    assert (Hmax : Z.max (Z.log2 w + 1) e = Z.log2 w + 1).
    { destruct (Z.le_gt_cases e (Z.log2 w + 1)); [lia|].
      rewrite Z.max_r in Hbelow by lia.
      pose proof (pow2_le e (Z.log2 (nearest w))).
      assert (Z.log2 (nearest w) <= e).
      { destruct (Z.le_gt_cases (Z.log2 (nearest w)) e); [done|].
        pose proof (pow2_lt e (Z.log2 (nearest w))). lia. }
      unfold grid_exponent, scale in Hlarge. lia. }
    rewrite Hmax in Hbelow.
    pose proof (pow2_le (Z.log2 w + 1) (Z.log2 (nearest w))
                  ltac:(pose proof (Z.log2_nonneg w); lia)) as Hpow.
    assert (Hexact : nearest w = 2 ^ (Z.log2 w + 1)) by lia.
    assert (Hsame : Z.log2 (nearest w) = Z.log2 w + 1).
    { rewrite Hexact. apply Z.log2_pow2. pose proof (Z.log2_nonneg w). lia. }
    apply (fits_multiple _ (Z.log2 w + 1)).
    + unfold grid_exponent. rewrite Hsame.
      unfold grid_exponent in Hlarge. rewrite Hsame in Hlarge. subst e.
      unfold grid_exponent in *. lia.
    + rewrite Hexact. apply Z.mod_same.
      pose proof (pow2_positive (Z.log2 w + 1)). pose proof (Z.log2_nonneg w). lia.
Qed.

Lemma nearest_nonneg (w : Z) : 0 <= w -> 0 <= nearest w.
Proof.
  intros Hw. destruct (nearest_neighbour w) as [Hcases _].
  pose proof (grid_positive w) as Hg.
  assert (0 <= w / 2 ^ grid_exponent w) by (apply Z.div_pos; lia).
  destruct Hcases as [-> | ->]; nia.
Qed.

End Nearest.

Section Shifts.

Lemma digits2_size (p : positive) : digits2_pos p = Pos.size p.
Proof. induction p as [p IH | p IH |]; cbn; by rewrite ?IH. Qed.

Lemma Zdigits2_log2 (p : positive) : Zdigits2 (Z.pos p) = Z.log2 (Z.pos p) + 1.
Proof.
  cbn [Zdigits2]. rewrite digits2_size.
  destruct p as [p | p |]; cbn [Z.log2 Pos.size]; lia.
Qed.

Lemma shr_1_spec (m : Z) (r s : bool) :
  0 <= m ->
  shr_1 {| shr_m := m; shr_r := r; shr_s := s |}
  = {| shr_m := m / 2; shr_r := Z.odd m; shr_s := r || s |}.
Proof.
  intros Hm. rewrite <- Z.div2_div.
  destruct m as [|p|p]; [reflexivity | | lia].
  by destruct p.
Qed.

Lemma iter_pos_nat {A} (f : A -> A) (p : positive) (x : A) :
  SpecFloat.iter_pos f p x = Nat.iter (Pos.to_nat p) f x.
Proof.
  revert x. induction p as [p IH | p IH |]; intros x; cbn [SpecFloat.iter_pos].
  - rewrite !IH, Pos2Nat.inj_xI. cbn [Nat.mul].
    rewrite Nat.add_0_r, <- Nat.iter_succ_r, <- Nat.iter_add. f_equal. lia.
  - rewrite !IH, Pos2Nat.inj_xO. cbn [Nat.mul].
    rewrite Nat.add_0_r, Nat.iter_add. reflexivity.
  - reflexivity.
Qed.

Lemma pow2_S (k : nat) : 2 ^ Z.of_nat (S k) = 2 ^ Z.of_nat k * 2.
Proof.
  replace (Z.of_nat (S k)) with (Z.succ (Z.of_nat k)) by lia.
  rewrite Z.pow_succ_r by lia. lia.
Qed.

(** The record after [k + 1] shifts of [m]: the quotient, the last bit
    shifted out, and whether anything was shifted out before it. *)
Lemma shr_iter (m : Z) (k : nat) :
  0 <= m ->
  Nat.iter (S k) shr_1 {| shr_m := m; shr_r := false; shr_s := false |}
  = {| shr_m := m / 2 ^ Z.of_nat (S k);
       shr_r := Z.odd (m / 2 ^ Z.of_nat k);
       shr_s := negb (m mod 2 ^ Z.of_nat k =? 0) |}.
Proof.
  intros Hm. induction k as [|k IH].
  - cbn [Nat.iter]. rewrite shr_1_spec by lia.
    change (2 ^ Z.of_nat 1) with 2. change (2 ^ Z.of_nat 0) with 1.
    by rewrite Z.div_1_r, Z.mod_1_r.
  - rewrite Nat.iter_succ, IH.
    assert (Hp : 0 < 2 ^ Z.of_nat k) by (apply Z.pow_pos_nonneg; lia).
    assert (Hq : 0 < 2 ^ Z.of_nat (S k)) by (apply Z.pow_pos_nonneg; lia).
    rewrite shr_1_spec by (apply Z.div_pos; lia).
    f_equal.
    + rewrite Z.div_div by lia. by rewrite <- pow2_S.
    + rewrite (pow2_S k), Z.rem_mul_r, Zmod_odd by lia.
      pose proof (Z.mod_pos_bound m (2 ^ Z.of_nat k) Hp) as Hlow.
      destruct (Z.odd (m / 2 ^ Z.of_nat k)); cbn [orb].
      * symmetry. apply negb_true_iff, Z.eqb_neq. lia.
      * f_equal. f_equal. lia.
Qed.

(** Rounding to nearest after a shift by [n]. *)
Lemma shr_nearest (m e n : Z) :
  0 <= m -> 0 <= n ->
  let '(mrs, e') := shr {| shr_m := m; shr_r := false; shr_s := false |} e n in
  e' = e + n /\
  round_nearest_even (shr_m mrs) (loc_of_shr_record mrs)
  = m / 2 ^ n + (if round_up (2 ^ n) (m / 2 ^ n) (m mod 2 ^ n) then 1 else 0).
Proof.
  intros Hm Hn. destruct n as [|p|p]; [| |lia].
  - cbn [shr]. split; [lia|]. cbn [shr_m loc_of_shr_record round_nearest_even].
    change (2 ^ 0) with 1. rewrite Z.div_1_r, Z.mod_1_r. unfold round_up.
    change ((1 <? 2 * 0) || (2 * 0 =? 1) && Z.odd m) with false. cbv iota. lia.
  - cbn [shr]. split; [reflexivity|].
    rewrite iter_pos_nat.
    destruct (Pos2Nat.is_succ p) as [k Hk]. rewrite Hk, shr_iter by lia.
    replace (Z.pos p) with (Z.of_nat (S k)) by lia.
    cbn [shr_m].
    assert (Hp : 0 < 2 ^ Z.of_nat k) by (apply Z.pow_pos_nonneg; lia).
    pose proof (pow2_S k) as Hpow.
    assert (Hrest : m mod 2 ^ Z.of_nat (S k)
                    = m mod 2 ^ Z.of_nat k
                      + 2 ^ Z.of_nat k * (if Z.odd (m / 2 ^ Z.of_nat k) then 1 else 0)).
    { rewrite Hpow, Z.rem_mul_r, Zmod_odd by lia. reflexivity. }
    pose proof (Z.mod_pos_bound m (2 ^ Z.of_nat k) Hp) as Hlow.
    unfold round_up. rewrite Hrest, Hpow.
    destruct (Z.odd (m / 2 ^ Z.of_nat k)) eqn:Hbit;
      destruct (m mod 2 ^ Z.of_nat k =? 0) eqn:Hzero; cbn [negb loc_of_shr_record
        round_nearest_even].
    + apply Z.eqb_eq in Hzero. rewrite Hzero.
      replace (2 ^ Z.of_nat k * 2 <? 2 * (0 + 2 ^ Z.of_nat k * 1)) with false
        by (symmetry; apply Z.ltb_ge; lia).
      replace (2 * (0 + 2 ^ Z.of_nat k * 1) =? 2 ^ Z.of_nat k * 2) with true
        by (symmetry; apply Z.eqb_eq; lia).
      cbn [orb andb]. rewrite <- Z.negb_odd.
      destruct (Z.odd (m / (2 ^ Z.of_nat k * 2))); cbn; lia.
    + apply Z.eqb_neq in Hzero.
      replace (2 ^ Z.of_nat k * 2 <? 2 * (m mod 2 ^ Z.of_nat k + 2 ^ Z.of_nat k * 1))
        with true by (symmetry; apply Z.ltb_lt; lia).
      reflexivity.
    + apply Z.eqb_eq in Hzero. rewrite Hzero.
      replace (2 ^ Z.of_nat k * 2 <? 2 * (0 + 2 ^ Z.of_nat k * 0)) with false
        by (symmetry; apply Z.ltb_ge; lia).
      replace (2 * (0 + 2 ^ Z.of_nat k * 0) =? 2 ^ Z.of_nat k * 2) with false
        by (symmetry; apply Z.eqb_neq; lia).
      cbn. lia.
    + apply Z.eqb_neq in Hzero.
      replace (2 ^ Z.of_nat k * 2 <? 2 * (m mod 2 ^ Z.of_nat k + 2 ^ Z.of_nat k * 0))
        with false by (symmetry; apply Z.ltb_ge; lia).
      replace (2 * (m mod 2 ^ Z.of_nat k + 2 ^ Z.of_nat k * 0) =? 2 ^ Z.of_nat k * 2)
        with false by (symmetry; apply Z.eqb_neq; lia).
      cbn. lia.
Qed.

End Shifts.

Section Bridge.

Lemma fexp_double (d : Z) : fexp 53 1024 d = Z.max (d - 53) (-1074).
Proof. reflexivity. Qed.

Lemma log2_scaled (m e : Z) :
  0 < m -> - scale <= e -> Z.log2 (scaled m e) = e + scale + Z.log2 m.
Proof. unfold scaled. intros Hm He. rewrite Z.log2_mul_pow2 by lia. lia. Qed.

Lemma scaled_positive (m e : Z) : 0 < m -> - scale <= e -> 0 < scaled m e.
Proof.
  intros Hm He. unfold scaled. pose proof (pow2_positive (e + scale)). nia.
Qed.

Lemma round_up_scale (g q r s : Z) :
  0 < s -> round_up (g * s) q (r * s) = round_up g q r.
Proof.
  intros Hs. unfold round_up. f_equal; [|f_equal].
  - destruct (Z.ltb_spec g (2 * r)), (Z.ltb_spec (g * s) (2 * (r * s))); try reflexivity; nia.
  - destruct (Z.eqb_spec (2 * r) g), (Z.eqb_spec (2 * (r * s)) (g * s));
      try reflexivity; nia.
Qed.

(** The grid exponent of a mantissa [q] placed at exponent [E]. *)
Lemma grid_exponent_placed (q E : Z) :
  -1074 <= E -> 0 < q < 2 ^ 53 -> E = -1074 \/ 2 ^ 52 <= q ->
  grid_exponent (q * 2 ^ (E + scale)) = E + scale.
Proof.
  intros HE Hq Hnormal. unfold grid_exponent.
  unfold scale in *. rewrite Z.log2_mul_pow2 by lia.
  assert (Z.log2 q < 53) by (apply Z.log2_lt_pow2; lia).
  destruct Hnormal as [-> | Hbig]; [lia|].
  assert (52 <= Z.log2 q) by (apply Z.log2_le_pow2; lia).
  lia.
Qed.

(** The end of [binary_round_aux]: a rounded mantissa [q] at exponent [E]
    is put in shape and checked for overflow. *)
Lemma normalize_placed (q E : Z) :
  -1074 <= E -> 0 <= q <= 2 ^ 53 -> E = -1074 \/ 2 ^ 52 <= q \/ q = 0 ->
  (let '(mrs, e) := shr_fexp 53 1024 q E loc_Exact in
   match shr_m mrs with
   | 0 => S754_zero false
   | Z.pos m => if e <=? 1024 - 53 then S754_finite false m e else S754_infinity false
   | Z.neg _ => S754_nan
   end)
  = number_of (q * 2 ^ (E + scale)).
Proof.
  intros HE Hq Hnormal.
  pose proof (pow2_positive (E + scale) ltac:(unfold scale; lia)) as Hg.
  destruct (Z.eq_dec q 0) as [-> | Hnz].
  - unfold shr_fexp. cbn [Zdigits2 shr_record_of_loc]. rewrite fexp_double.
    replace (Z.max (0 + E - 53) (-1074) - E) with (Z.max (-53) (-1074 - E)) by lia.
    destruct (Z.max (-53) (-1074 - E)) as [|p|p] eqn:Hn; [| lia |]; reflexivity.
  - assert (Hpos : 0 < q) by lia.
    destruct q as [|p|p]; [lia | | lia].
    unfold shr_fexp. rewrite Zdigits2_log2, fexp_double. cbn [shr_record_of_loc].
    destruct (Z.eq_dec (Z.pos p) (2 ^ 53)) as [Htop | Hbelow].
    + assert (Hlog : Z.log2 (Z.pos p) = 53) by (rewrite Htop; reflexivity).
      rewrite Hlog.
      replace (Z.max (53 + 1 + E - 53) (-1074) - E) with 1 by lia.
      cbn [shr SpecFloat.iter_pos]. rewrite shr_1_spec by lia. cbn [shr_m].
      rewrite Htop. change (2 ^ 53 / 2) with (2 ^ 52).
      unfold number_of.
      assert (Hgrid : grid_exponent (2 ^ 53 * 2 ^ (E + scale)) = E + 1 + scale).
      { unfold grid_exponent. unfold scale in *. rewrite Z.log2_mul_pow2 by lia.
        change (Z.log2 (2 ^ 53)) with 53. lia. }
      rewrite Hgrid.
      replace (2 ^ 53 * 2 ^ (E + scale) =? 0) with false by (symmetry; apply Z.eqb_neq; lia).
      replace (E + 1 + scale - scale) with (E + 1) by lia.
      change (1024 - 53) with 971.
      destruct (E + 1 <=? 971); [|reflexivity].
      f_equal.
      replace (2 ^ (E + 1 + scale)) with (2 * 2 ^ (E + scale))
        by (rewrite <- Z.pow_succ_r by (unfold scale; lia); f_equal; lia).
      change (2 ^ 53) with (2 ^ 52 * 2).
      rewrite <- Z.mul_assoc, Z.div_mul by lia. reflexivity.
    + assert (Hlt : Z.pos p < 2 ^ 53) by lia.
      assert (Hlog : Z.log2 (Z.pos p) < 53) by (apply Z.log2_lt_pow2; lia).
      assert (Hshift : Z.max (Z.log2 (Z.pos p) + 1 + E - 53) (-1074) - E = 0).
      { destruct Hnormal as [-> | [Hbig | ?]]; [lia | | lia].
        assert (52 <= Z.log2 (Z.pos p)) by (apply Z.log2_le_pow2; lia). lia. }
      rewrite Hshift. cbn [shr shr_m].
      unfold number_of.
      rewrite grid_exponent_placed by (try lia; destruct Hnormal as [? | [? | ?]]; lia).
      replace (Z.pos p * 2 ^ (E + scale) =? 0) with false by (symmetry; apply Z.eqb_neq; lia).
      replace (E + scale - scale) with E by lia. change (1024 - 53) with 971.
      destruct (E <=? 971); [|reflexivity].
      rewrite Z.div_mul by lia. reflexivity.
Qed.

(** [binary_round_aux] rounds to nearest, ties to even. *)
Lemma binary_round_aux_nearest (m : positive) (e : Z) :
  - scale <= e ->
  e <= fexp 53 1024 (Zdigits2 (Z.pos m) + e) ->
  binary_round_aux 53 1024 false (Z.pos m) e loc_Exact
  = number_of (nearest (scaled (Z.pos m) e)).
Proof.
  intros He Hfine. rewrite Zdigits2_log2, fexp_double in Hfine.
  set (L := Z.log2 (Z.pos m)) in *.
  set (E := Z.max (L + 1 + e - 53) (-1074)) in *.
  assert (HL : 0 <= L) by apply Z.log2_nonneg.
  pose proof (Z.log2_spec (Z.pos m) ltac:(lia)) as Hlog. fold L in Hlog.
  assert (Hgrid : grid_exponent (scaled (Z.pos m) e) = E + scale).
  { unfold grid_exponent. rewrite log2_scaled by lia. fold L. subst E. unfold scale in *. lia. }
  pose proof (pow2_positive (e + scale) ltac:(lia)) as Hs.
  pose proof (pow2_positive (E - e) ltac:(lia)) as Hn.
  assert (Hg : 2 ^ (E + scale) = 2 ^ (E - e) * 2 ^ (e + scale)).
  { rewrite <- Z.pow_add_r by lia. f_equal. lia. }
  assert (Hnear : nearest (scaled (Z.pos m) e)
                  = (Z.pos m / 2 ^ (E - e)
                     + (if round_up (2 ^ (E - e)) (Z.pos m / 2 ^ (E - e))
                             (Z.pos m mod 2 ^ (E - e)) then 1 else 0))
                    * 2 ^ (E + scale)).
  { unfold nearest. rewrite Hgrid, Hg. unfold scaled.
    rewrite Z.div_mul_cancel_r, Z.mul_mod_distr_r, round_up_scale by lia. reflexivity. }
  rewrite Hnear.
  unfold binary_round_aux, shr_fexp at 1.
  rewrite Zdigits2_log2, fexp_double. fold L E. cbn [shr_record_of_loc].
  pose proof (shr_nearest (Z.pos m) e (E - e) ltac:(lia) ltac:(lia)) as Hshr.
  destruct (shr {| shr_m := Z.pos m; shr_r := false; shr_s := false |} e (E - e))
    as [mrs e'].
  destruct Hshr as [-> ->].
  replace (e + (E - e)) with E by lia.
  set (q := Z.pos m / 2 ^ (E - e)) in *.
  set (up := if round_up _ _ _ then 1 else 0).
  assert (Hup : 0 <= up <= 1) by (subst up; destruct (round_up _ _ _); lia).
  assert (Hq0 : 0 <= q) by (apply Z.div_pos; lia).
  apply normalize_placed; [lia | |].
  - (* the mantissa has at most 53 bits before it is rounded *)
    assert (q < 2 ^ 53); [|lia].
    apply Z.div_lt_upper_bound; [lia|].
    rewrite <- Z.pow_add_r by lia.
    eapply Z.lt_le_trans; [apply Hlog|].
    apply pow2_le. lia.
  - destruct (Z.eq_dec E (-1074)) as [? | Hhigh]; [by left | right].
    assert (HE : E = L + 1 + e - 53) by lia.
    assert (2 ^ 52 <= q); [|lia].
    apply Z.div_le_lower_bound; [lia|].
    rewrite Z.mul_comm, <- Z.pow_add_r by lia.
    replace (52 + (E - e)) with L by lia. lia.
Qed.

Lemma iter_xO (m d : positive) : Z.pos (Pos.iter xO m d) = Z.pos m * 2 ^ Z.pos d.
Proof.
  induction d as [|d IH] using Pos.peano_ind.
  - cbn [Pos.iter]. lia.
  - rewrite Pos.iter_succ, Pos2Z.inj_xO, IH, Pos2Z.inj_succ, Z.pow_succ_r by lia. lia.
Qed.

Lemma shl_align_scaled (m : positive) (e e' : Z) :
  let '(m', e'') := shl_align m e e' in
  e'' = Z.min e e' /\ Z.pos m' = Z.pos m * 2 ^ (e - e'').
Proof.
  unfold shl_align. destruct (e' - e) as [|d|d] eqn:Hd.
  - split; [lia|]. rewrite Z.sub_diag. lia.
  - split; [lia|]. rewrite Z.sub_diag. lia.
  - split; [lia|]. rewrite iter_xO. f_equal. f_equal. lia.
Qed.

(** [binary_round], which first makes the mantissa fine enough. *)
Lemma binary_round_nearest (m : positive) (e : Z) :
  - scale <= e ->
  binary_round 53 1024 false m e = number_of (nearest (scaled (Z.pos m) e)).
Proof.
  intros He. unfold binary_round.
  change (Z.pos (digits2_pos m)) with (Zdigits2 (Z.pos m)).
  rewrite Zdigits2_log2, fexp_double.
  set (E := Z.max (Z.log2 (Z.pos m) + 1 + e - 53) (-1074)).
  pose proof (shl_align_scaled m e E) as Halign.
  destruct (shl_align m e E) as [m' e']. destruct Halign as [-> Hm'].
  pose proof (Z.log2_nonneg (Z.pos m)) as HL.
  assert (Hsame : scaled (Z.pos m') (Z.min e E) = scaled (Z.pos m) e).
  { unfold scaled. rewrite Hm', <- Z.mul_assoc, <- Z.pow_add_r by (unfold scale in *; lia).
    f_equal. f_equal. lia. }
  rewrite binary_round_aux_nearest; [by rewrite Hsame | unfold scale in *; lia |].
  rewrite Zdigits2_log2, fexp_double, Hm', Z.log2_mul_pow2 by lia.
  subst E. lia.
Qed.

End Bridge.

Section Numbers.

Lemma bounded_canonical (m : positive) (e : Z) :
  bounded 53 1024 m e = true ->
  -1074 <= e <= 971 /\ Z.log2 (Z.pos m) <= 52 /\ (e = -1074 \/ Z.log2 (Z.pos m) = 52).
Proof.
  unfold bounded, canonical_mantissa. intros Hb.
  apply andb_true_iff in Hb as [Hc He].
  apply Z.eqb_eq in Hc. apply Z.leb_le in He.
  change (Z.pos (digits2_pos m)) with (Zdigits2 (Z.pos m)) in Hc.
  rewrite Zdigits2_log2, fexp_double in Hc. change (1024 - 53) with 971 in He. lia.
Qed.

Lemma canonical_bounded (m : positive) (e : Z) :
  -1074 <= e <= 971 -> Z.log2 (Z.pos m) <= 52 ->
  e = -1074 \/ Z.log2 (Z.pos m) = 52 ->
  bounded 53 1024 m e = true.
Proof.
  intros He HL Hn. unfold bounded, canonical_mantissa.
  change (Z.pos (digits2_pos m)) with (Zdigits2 (Z.pos m)).
  rewrite Zdigits2_log2, fexp_double. change (1024 - 53) with 971.
  apply andb_true_iff. split; [apply Z.eqb_eq | apply Z.leb_le]; lia.
Qed.

Lemma mantissa_range (m : positive) :
  Z.log2 (Z.pos m) <= 52 -> Z.pos m < 2 ^ 53.
Proof.
  intros HL. pose proof (proj2 (Z.log2_spec (Z.pos m) ltac:(lia))) as Hup.
  eapply Z.lt_le_trans; [exact Hup|]. apply pow2_le.
  pose proof (Z.log2_nonneg (Z.pos m)). lia.
Qed.

(** A valid positive number is the number of its weight. *)
Lemma number_of_canonical (m : positive) (e : Z) :
  bounded 53 1024 m e = true ->
  fits (scaled (Z.pos m) e) /\
  number_of (scaled (Z.pos m) e) = S754_finite false m e.
Proof.
  intros Hb. destruct (bounded_canonical m e Hb) as (He & HL & Hn).
  pose proof (mantissa_range m HL) as Hm.
  assert (Hgrid : grid_exponent (scaled (Z.pos m) e) = e + scale).
  { unfold scaled. apply grid_exponent_placed; [lia | lia |].
    destruct Hn as [-> | Hn]; [by left | right].
    rewrite <- Hn. apply Z.log2_spec. lia. }
  pose proof (pow2_positive (e + scale) ltac:(unfold scale; lia)) as Hg.
  split.
  - unfold fits. rewrite Hgrid. unfold scaled. apply Z.mod_mul. lia.
  - unfold number_of. rewrite Hgrid. unfold scaled.
    replace (Z.pos m * 2 ^ (e + scale) =? 0) with false by (symmetry; apply Z.eqb_neq; lia).
    replace (e + scale - scale) with e by lia.
    replace (e <=? 971) with true by (symmetry; apply Z.leb_le; lia).
    by rewrite Z.div_mul by lia.
Qed.

(** What [number_of] gives for a positive weight that fits. *)
Lemma number_of_positive (w : Z) :
  0 < w -> fits w ->
  (number_of w = S754_infinity false /\ 2 ^ (1024 + scale) <= w) \/
  (exists m e,
     number_of w = S754_finite false m e /\ bounded 53 1024 m e = true /\
     scaled (Z.pos m) e = w /\ e = grid_exponent w - scale /\ w < 2 ^ (1024 + scale)).
Proof.
  intros Hw Hfit. unfold number_of.
  replace (w =? 0) with false by (symmetry; apply Z.eqb_neq; lia).
  pose proof (grid_exponent_low w) as Hlow.
  pose proof (grid_positive w) as Hg.
  pose proof (Z.log2_spec w Hw) as [Hlo Hhi].
  pose proof (Z.log2_nonneg w) as HL.
  set (ge := grid_exponent w) in *.
  destruct (Z.leb_spec (ge - scale) 971) as [Hfin | Hover].
  - right.
    assert (Hq : w = w / 2 ^ ge * 2 ^ ge).
    { unfold fits in Hfit. fold ge in Hfit.
      pose proof (Z.div_mod w (2 ^ ge) ltac:(lia)). lia. }
    assert (Hqpos : 0 < w / 2 ^ ge) by nia.
    destruct (w / 2 ^ ge) as [|q|q] eqn:Hquot; [lia | | lia].
    exists q, (ge - scale). split; [reflexivity|].
    assert (Hlog : Z.log2 w = ge + Z.log2 (Z.pos q)).
    { rewrite Hq at 1. rewrite Z.log2_mul_pow2 by (unfold scale in *; lia). reflexivity. }
    assert (Hsmall : w < 2 ^ (1024 + scale)).
    { eapply Z.lt_le_trans; [exact Hhi|]. apply pow2_le.
      subst ge. unfold grid_exponent, scale in *. lia. }
    split; [|split; [|split; [reflexivity | exact Hsmall]]].
    + apply canonical_bounded; subst ge; unfold grid_exponent, scale in *; lia.
    + unfold scaled. replace (ge - scale + scale) with ge by lia. lia.
  - left. split; [reflexivity|].
    etransitivity; [|exact Hlo]. apply pow2_le.
    subst ge. unfold grid_exponent, scale in *. lia.
Qed.

Lemma number_of_zero : number_of 0 = S754_zero false.
Proof. reflexivity. Qed.

Lemma fits_zero : fits 0.
Proof. unfold fits. apply Z.mod_0_l. pose proof (grid_positive 0). lia. Qed.

(** The order of the weights is the order of the numbers. *)
Lemma number_of_le (w1 w2 : Z) :
  0 <= w1 <= w2 -> fits w1 -> fits w2 ->
  SFleb (number_of w1) (number_of w2) = true.
Proof.
  intros [Hpos Hle] Hf1 Hf2.
  destruct (Z.eq_dec w1 0) as [-> | Hnz1].
  - rewrite number_of_zero.
    destruct (Z.eq_dec w2 0) as [-> | Hnz2]; [reflexivity|].
    destruct (number_of_positive w2 ltac:(lia) Hf2) as [[-> _] | (m & e & -> & _)];
      reflexivity.
  - destruct (number_of_positive w1 ltac:(lia) Hf1)
      as [[-> Hbig1] | (m1 & e1 & -> & Hb1 & Hs1 & He1 & Hsmall1)];
      destruct (number_of_positive w2 ltac:(lia) Hf2)
        as [[-> Hbig2] | (m2 & e2 & -> & Hb2 & Hs2 & He2 & Hsmall2)];
      try reflexivity; [lia|].
    pose proof (grid_exponent_mono w1 w2 Hle) as Hgrid.
    unfold SFleb, SFcompare.
    destruct (Z.compare_spec e1 e2) as [Heq | Hlt | Hgt]; [|reflexivity|lia].
    assert (Hm : Z.pos m1 <= Z.pos m2).
    { unfold scaled in *.
      pose proof (pow2_positive (e1 + scale)
                    ltac:(pose proof (grid_exponent_low w1); unfold scale in *; lia)).
      rewrite <- Heq in Hs2. nia. }
    change (Pos.compare_cont Eq m1 m2) with (Pos.compare m1 m2).
    destruct (Pos.compare_spec m1 m2); try reflexivity. lia.
Qed.

(** And conversely, for valid positive numbers. *)
Lemma leb_weight (m1 m2 : positive) (e1 e2 : Z) :
  bounded 53 1024 m1 e1 = true -> bounded 53 1024 m2 e2 = true ->
  SFleb (S754_finite false m1 e1) (S754_finite false m2 e2) = true ->
  scaled (Z.pos m1) e1 <= scaled (Z.pos m2) e2.
Proof.
  intros Hb1 Hb2 Hle.
  destruct (bounded_canonical m1 e1 Hb1) as (He1 & HL1 & Hn1).
  destruct (bounded_canonical m2 e2 Hb2) as (He2 & HL2 & Hn2).
  pose proof (mantissa_range m1 HL1) as Hm1.
  unfold SFleb, SFcompare in Hle. unfold scaled.
  pose proof (pow2_positive (e1 + scale) ltac:(unfold scale; lia)) as Hg1.
  destruct (Z.compare_spec e1 e2) as [Heq | Hlt | Hgt]; [| |discriminate].
  - subst e2. change (Pos.compare_cont Eq m1 m2) with (Pos.compare m1 m2) in Hle.
    destruct (Pos.compare_spec m1 m2); try discriminate; nia.
  - assert (HL : Z.log2 (Z.pos m2) = 52) by lia.
    assert (Hm2 : 2 ^ 52 <= Z.pos m2) by (rewrite <- HL; apply Z.log2_spec; lia).
    rewrite (pow2_split (e1 + scale) (e2 + scale)) by (unfold scale; lia).
    assert (2 <= 2 ^ (e2 + scale - (e1 + scale))).
    { change 2 with (2 ^ 1) at 1. apply pow2_le. lia. }
    change (2 ^ 53) with (2 * 2 ^ 52) in Hm1.
    set (b := 2 ^ (e2 + scale - (e1 + scale))) in *. set (a := 2 ^ (e1 + scale)) in *.
    set (c := 2 ^ 52) in *.
    assert (Z.pos m1 <= Z.pos m2 * b) by nia.
    rewrite Z.mul_assoc. apply Z.mul_le_mono_nonneg_r; lia.
Qed.

End Numbers.

Section Measured.

Lemma measured_zero (s : bool) : measured (S754_zero s) 0.
Proof.
  split; [lia|]. split; [apply fits_zero|].
  destruct s; [right | left]; done.
Qed.

Lemma measured_number (w : Z) : 0 <= w -> measured (number_of (nearest w)) (nearest w).
Proof.
  intros Hw. split; [by apply nearest_nonneg|]. split; [by apply nearest_fits | by left].
Qed.

(** A finite number that is measured is a zero or a valid positive
    number. *)
Lemma measured_cases (x : spec_float) (w : Z) :
  measured x w -> Double.finite x = true ->
  (w = 0 /\ exists s, x = S754_zero s) \/
  (0 < w /\ w < 2 ^ (1024 + scale) /\
   exists m e, x = S754_finite false m e /\ bounded 53 1024 m e = true /\
               scaled (Z.pos m) e = w).
Proof.
  intros (Hw & Hfit & [-> | [-> ->]]) Hfin; [|left; eauto].
  destruct (Z.eq_dec w 0) as [-> | Hnz]; [left; eauto|].
  destruct (number_of_positive w ltac:(lia) Hfit)
    as [[Hinf _] | (m & e & Heq & Hb & Hs & _ & Hsmall)].
  - rewrite Hinf in Hfin. discriminate.
  - right. split; [lia|]. split; [exact Hsmall|]. by exists m, e.
Qed.

Lemma measured_finite (x : spec_float) (w : Z) :
  measured x w -> w < 2 ^ (1024 + scale) -> Double.finite x = true.
Proof.
  intros (Hw & Hfit & [-> | [-> ->]]) Hsmall; [|reflexivity].
  destruct (Z.eq_dec w 0) as [-> | Hnz]; [reflexivity|].
  destruct (number_of_positive w ltac:(lia) Hfit) as [[_ Hbig] | (m & e & -> & _)];
    [lia | reflexivity].
Qed.

(** A valid number that is not negative is measured by its weight. *)
Lemma measured_valid (x : spec_float) :
  valid_binary 53 1024 x = true -> SFleb (S754_zero false) x = true ->
  Double.finite x = true ->
  measured x (weight x).
Proof.
  intros Hvalid Hpos Hfin.
  destruct x as [s | s | | s m e]; try discriminate.
  - apply measured_zero.
  - destruct s; [discriminate|]. cbn [valid_binary weight] in *.
    destruct (number_of_canonical m e Hvalid) as [Hfit Heq].
    split; [|split; [exact Hfit | by left]].
    pose proof (bounded_canonical m e Hvalid) as [He _].
    pose proof (scaled_positive (Z.pos m) e ltac:(lia) ltac:(unfold scale; lia)). lia.
Qed.

(** Numbers compare as their weights do. *)
Lemma measured_leb (x y : spec_float) (wx wy : Z) :
  measured x wx -> measured y wy -> wx <= wy -> SFleb x y = true.
Proof.
  intros (Hx & Hfx & Hex) (Hy & Hfy & Hey) Hle.
  assert (Hzero : forall w, 0 <= w -> fits w ->
                    SFleb (S754_zero true) (number_of w) = true).
  { intros w Hw Hfit. destruct (Z.eq_dec w 0) as [-> | Hnz]; [reflexivity|].
    destruct (number_of_positive w ltac:(lia) Hfit) as [[-> _] | (m & e & -> & _)];
      reflexivity. }
  destruct Hex as [-> | [-> ->]], Hey as [-> | [-> ->]].
  - by apply number_of_le.
  - assert (wx = 0) as -> by lia. reflexivity.
  - by apply Hzero.
  - reflexivity.
Qed.

Lemma leb_measured (x y : spec_float) (wx wy : Z) :
  measured x wx -> measured y wy -> Double.finite x = true -> Double.finite y = true ->
  SFleb x y = true -> wx <= wy.
Proof.
  intros Hx Hy Hfx Hfy Hle.
  destruct (measured_cases x wx Hx Hfx)
    as [[-> _] | (Hpx & _ & mx & ex & -> & Hbx & <-)]; [by destruct Hy|].
  destruct (measured_cases y wy Hy Hfy)
    as [[-> [s ->]] | (Hpy & _ & my & ey & -> & Hby & <-)]; [discriminate|].
  by apply leb_weight.
Qed.

(** The sum of two numbers is the number nearest to the sum of their
    weights. *)
Lemma measured_add (x y : spec_float) (wx wy : Z) :
  measured x wx -> measured y wy -> Double.finite x = true -> Double.finite y = true ->
  measured (SFadd 53 1024 x y) (nearest (wx + wy)).
Proof.
  intros Hx Hy Hfx Hfy.
  destruct (measured_cases x wx Hx Hfx)
    as [[-> [sx ->]] | (Hpx & _ & mx & ex & -> & Hbx & Hwx)];
    destruct (measured_cases y wy Hy Hfy)
      as [[-> [sy ->]] | (Hpy & _ & my & ey & -> & Hby & Hwy)].
  - rewrite (nearest_fixed (0 + 0)) by apply fits_zero.
    destruct sx, sy; apply measured_zero.
  - rewrite Z.add_0_l, nearest_fixed by apply Hy. exact Hy.
  - rewrite Z.add_0_r, nearest_fixed by apply Hx. exact Hx.
  - pose proof (bounded_canonical mx ex Hbx) as [Hex _].
    pose proof (bounded_canonical my ey Hby) as [Hey _].
    unfold SFadd. cbn [cond_Zopp].
    pose proof (shl_align_scaled mx ex (Z.min ex ey)) as Hax.
    pose proof (shl_align_scaled my ey (Z.min ex ey)) as Hay.
    destruct (shl_align mx ex (Z.min ex ey)) as [mx' ex'].
    destruct (shl_align my ey (Z.min ex ey)) as [my' ey'].
    destruct Hax as [-> Hmx], Hay as [-> Hmy]. cbn [fst].
    change (Z.pos mx' + Z.pos my') with (Z.pos (mx' + my')).
    cbn [binary_normalize].
    rewrite binary_round_nearest by (unfold scale; lia).
    assert (Hsum : scaled (Z.pos (mx' + my')) (Z.min ex ey) = wx + wy).
    { rewrite <- Hwx, <- Hwy. unfold scaled.
      rewrite Pos2Z.inj_add, Hmx, Hmy, Z.mul_add_distr_r.
      rewrite <- !Z.mul_assoc, <- !Z.pow_add_r by (unfold scale; lia).
      f_equal; f_equal; f_equal; lia. }
    rewrite Hsum. apply measured_number. lia.
Qed.

(** Their product is the number nearest to the product of their
    weights. *)
Lemma measured_mul (x y : spec_float) (wx wy : Z) :
  measured x wx -> measured y wy -> Double.finite x = true -> Double.finite y = true ->
  measured (SFmul 53 1024 x y) (nearest (wx * wy / 2 ^ scale)).
Proof.
  intros Hx Hy Hfx Hfy.
  assert (Hnil : nearest 0 = 0) by (apply nearest_fixed, fits_zero).
  destruct (measured_cases x wx Hx Hfx)
    as [[-> [sx ->]] | (Hpx & _ & mx & ex & -> & Hbx & Hwx)];
    destruct (measured_cases y wy Hy Hfy)
      as [[-> [sy ->]] | (Hpy & _ & my & ey & -> & Hby & Hwy)].
  - change (0 * 0 / 2 ^ scale) with 0. rewrite Hnil. apply measured_zero.
  - rewrite Z.mul_0_l. change (0 / 2 ^ scale) with 0. rewrite Hnil. apply measured_zero.
  - rewrite Z.mul_0_r. change (0 / 2 ^ scale) with 0. rewrite Hnil. apply measured_zero.
  - destruct (bounded_canonical mx ex Hbx) as (Hex & HLx & Hnx).
    destruct (bounded_canonical my ey Hby) as (Hey & HLy & Hny).
    pose proof (Z.log2_nonneg (Z.pos mx)) as Hx0.
    pose proof (Z.log2_nonneg (Z.pos my)) as Hy0.
    pose proof (Z.log2_mul_below (Z.pos mx) (Z.pos my) ltac:(lia) ltac:(lia)) as Hlog.
    unfold SFmul. cbn [xorb].
    change (Z.pos (mx * my)) with (Z.pos mx * Z.pos my) in *.
    assert (Hprod : wx * wy / 2 ^ scale = scaled (Z.pos mx * Z.pos my) (ex + ey)).
    { rewrite <- Hwx, <- Hwy. unfold scaled.
      replace (Z.pos mx * 2 ^ (ex + scale) * (Z.pos my * 2 ^ (ey + scale)))
        with (Z.pos mx * Z.pos my * 2 ^ (ex + ey + scale) * 2 ^ scale).
      - apply Z.div_mul. pose proof (pow2_positive scale ltac:(unfold scale; lia)). lia.
      - rewrite <- !Z.mul_assoc. f_equal.
        rewrite (Z.mul_comm (2 ^ (ex + scale))), <- !Z.mul_assoc. f_equal.
        rewrite <- !Z.pow_add_r by (unfold scale; lia). f_equal. lia. }
    rewrite Hprod.
    change (Z.pos mx * Z.pos my) with (Z.pos (mx * my)).
    rewrite binary_round_aux_nearest.
    + apply measured_number.
      pose proof (scaled_positive (Z.pos (mx * my)) (ex + ey) ltac:(lia)
                    ltac:(unfold scale; lia)). lia.
    + unfold scale. lia.
    + rewrite Zdigits2_log2, fexp_double.
      change (Z.pos (mx * my)) with (Z.pos mx * Z.pos my). lia.
Qed.

End Measured.

Section Interval.

Lemma measured_pow2 (i : Z) : 0 <= i -> measured (Double.pow2 i) (2 ^ (i + scale)).
Proof.
  intros Hi. unfold Double.pow2, Double.prec, Double.emax. cbn [binary_normalize].
  rewrite binary_round_nearest by (unfold scale; lia).
  assert (Hfit : fits (scaled 1 i)).
  { apply (fits_multiple _ (i + scale)).
    - unfold grid_exponent, scaled. rewrite Z.mul_1_l, Z.log2_pow2 by (unfold scale; lia).
      unfold scale. lia.
    - unfold scaled. rewrite Z.mul_1_l. apply Z.mod_same.
      pose proof (pow2_positive (i + scale) ltac:(unfold scale; lia)). lia. }
  rewrite (nearest_fixed _ Hfit).
  replace (2 ^ (i + scale)) with (scaled 1 i) by (unfold scaled; lia).
  split; [|split; [exact Hfit | by left]].
  pose proof (scaled_positive 1 i ltac:(lia) ltac:(unfold scale; lia)). lia.
Qed.

Lemma three_tenths :
  Double.decimal 3 10 = S754_finite false 5404319552844595 (-54).
Proof. vm_compute. reflexivity. Qed.

Lemma one_number : Double.of_Z 1 = S754_finite false 4503599627370496 (-52).
Proof. vm_compute. reflexivity. Qed.

Lemma product_below (a b : Z) : 0 <= a <= 2 ^ scale -> 0 <= b -> a * b / 2 ^ scale <= b.
Proof.
  intros Ha Hb. pose proof (pow2_positive scale ltac:(unfold scale; lia)) as Hk.
  apply Z.div_le_upper_bound; [lia|]. nia.
Qed.

Lemma product_mono (a b c : Z) :
  0 <= a <= b -> 0 <= c -> a * c / 2 ^ scale <= b * c / 2 ^ scale.
Proof.
  intros Hab Hc. pose proof (pow2_positive scale ltac:(unfold scale; lia)) as Hk.
  apply Z.div_le_mono; [lia | nia].
Qed.

Lemma product_nonneg (a b : Z) : 0 <= a -> 0 <= b -> 0 <= a * b / 2 ^ scale.
Proof.
  intros Ha Hb. pose proof (pow2_positive scale ltac:(unfold scale; lia)) as Hk.
  apply Z.div_pos; nia.
Qed.

(** Short of overflow, the delay with its jitter lies between the delay
    and the delay plus three tenths of it. *)
Lemma backoff_interval (base r : Double.t) (i : Z) :
  let delay := Double.mul base (Double.pow2 i) in
  let jitter := Double.mul (Double.mul r (Double.decimal 3 10)) delay in
  Double.valid base = true -> Double.valid r = true ->
  Double.leb (Double.of_Z 0) base = true ->
  Double.leb (Double.of_Z 0) r = true -> Double.leb r (Double.of_Z 1) = true ->
  0 <= i ->
  Double.finite delay = true ->
  Double.leb delay (Double.add delay jitter) = true /\
  Double.leb (Double.add delay jitter)
    (Double.add delay (Double.mul (Double.decimal 3 10) delay)) = true.
Proof.
  intros delay jitter Hvb Hvr Hb0 Hr0 Hr1 Hi Hfd.
  unfold Double.valid, Double.leb, Double.prec, Double.emax in *.
  change (Double.of_Z 0) with (S754_zero false) in *.
  rewrite one_number in Hr1.
  (* the random number *)
  assert (Hfr : Double.finite r = true).
  { destruct r as [s | [|] | | s m e]; try reflexivity; discriminate. }
  pose proof (measured_valid r Hvr Hr0 Hfr) as Hr.
  assert (Hone : measured (Double.of_Z 1) (2 ^ scale)).
  { rewrite one_number.
    replace (2 ^ scale) with (weight (S754_finite false 4503599627370496 (-52)))
      by (vm_compute; reflexivity).
    by apply measured_valid. }
  assert (Hwr : weight r <= 2 ^ scale).
  { apply (leb_measured r (Double.of_Z 1)); try done; by rewrite one_number. }
  (* three tenths *)
  assert (Hc : measured (Double.decimal 3 10)
                 (weight (S754_finite false 5404319552844595 (-54)))).
  { rewrite three_tenths. by apply measured_valid. }
  assert (Hfc : Double.finite (Double.decimal 3 10) = true) by (by rewrite three_tenths).
  set (wc := weight (S754_finite false 5404319552844595 (-54))) in *.
  assert (Hwc : 0 <= wc <= 2 ^ scale).
  { split; [apply Hc|]. subst wc. vm_compute. discriminate. }
  (* the delay *)
  assert (Hp : measured (Double.pow2 i) (2 ^ (i + scale))) by (by apply measured_pow2).
  assert (Hfp : Double.finite (Double.pow2 i) = true).
  { clearbody jitter. subst delay. unfold Double.mul, Double.prec, Double.emax in Hfd.
    destruct (Double.pow2 i) as [s | s | | s m e]; try reflexivity;
      destruct base as [? | ? | | ? ? ?]; discriminate. }
  assert (Hfb : Double.finite base = true).
  { clearbody jitter. subst delay. unfold Double.mul, Double.prec, Double.emax in Hfd.
    destruct base as [s | s | | s m e]; try reflexivity; [|discriminate].
    destruct (Double.pow2 i) as [? | ? | | ? ? ?]; discriminate. }
  pose proof (measured_valid base Hvb Hb0 Hfb) as Hb.
  pose proof (measured_mul _ _ _ _ Hb Hp Hfb Hfp) as Hd.
  fold (Double.mul base (Double.pow2 i)) in Hd. fold delay in Hd.
  set (wd := nearest (weight base * 2 ^ (i + scale) / 2 ^ scale)) in *.
  assert (Hwd : 0 <= wd) by apply Hd.
  assert (Hbound : wd < 2 ^ (1024 + scale)).
  { destruct (measured_cases delay wd Hd Hfd) as [[-> _] | (_ & ? & _)]; [|done].
    apply pow2_positive. unfold scale. lia. }
  (* the jitter *)
  pose proof (measured_mul _ _ _ _ Hr Hc Hfr Hfc) as Hrc.
  set (wrc := nearest (weight r * wc / 2 ^ scale)) in *.
  assert (Hwrc : 0 <= wrc <= wc).
  { split; [apply Hrc|]. subst wrc.
    rewrite <- (nearest_fixed wc) at 2 by apply Hc.
    apply nearest_mono. split; [apply product_nonneg; [apply Hr | lia]|].
    apply product_below; [split; [apply Hr | done] | lia]. }
  assert (Hfrc : Double.finite (SFmul 53 1024 r (Double.decimal 3 10)) = true).
  { apply (measured_finite _ wrc Hrc).
    eapply Z.le_lt_trans; [apply Hwrc|]. eapply Z.le_lt_trans; [apply Hwc|].
    apply pow2_lt. unfold scale. lia. }
  pose proof (measured_mul _ _ _ _ Hrc Hd Hfrc Hfd) as Hj.
  pose proof (measured_mul _ _ _ _ Hc Hd Hfc Hfd) as Hj'.
  set (wj := nearest (wrc * wd / 2 ^ scale)) in *.
  set (wj' := nearest (wc * wd / 2 ^ scale)) in *.
  assert (Hwj : 0 <= wj <= wj').
  { split; [apply Hj|]. apply nearest_mono.
    split; [apply product_nonneg; lia | apply product_mono; lia]. }
  assert (Hwj' : wj' <= wd).
  { subst wj'. rewrite <- (nearest_fixed wd) at 2 by apply Hd.
    apply nearest_mono. split; [apply product_nonneg; lia | apply product_below; lia]. }
  assert (Hfj : Double.finite (SFmul 53 1024 (SFmul 53 1024 r (Double.decimal 3 10)) delay) = true)
    by (apply (measured_finite _ wj Hj); lia).
  assert (Hfj' : Double.finite (SFmul 53 1024 (Double.decimal 3 10) delay) = true)
    by (apply (measured_finite _ wj' Hj'); lia).
  pose proof (measured_add _ _ _ _ Hd Hj Hfd Hfj) as Hsum.
  pose proof (measured_add _ _ _ _ Hd Hj' Hfd Hfj') as Hsum'.
  split.
  - apply (measured_leb _ _ wd _ Hd Hsum).
    rewrite <- (nearest_fixed wd) at 1 by apply Hd.
    apply nearest_mono. lia.
  - apply (measured_leb _ _ _ _ Hsum Hsum'). apply nearest_mono. lia.
Qed.

End Interval.

(* ------------------------------------------------------------------ *)
(** ** The retrying transport: backoff *)
(* ------------------------------------------------------------------ *)


Section Backoff.
Context `{Platform}.

Lemma compare_same (a : Double.t) : SFcompare a a = Some Eq \/ SFcompare a a = None.
Proof.
  destruct a as [s | s | | s m e]; cbn; auto.
  - destruct s; auto.
  - rewrite Z.compare_refl, Pos.compare_cont_refl. destruct s; auto.
Qed.

(** [Math.min] never returns more than its second argument. *)
Lemma min_not_above (a b : Double.t) : Double.ltb b (Double.min a b) = false.
Proof.
  assert (Hsame : forall x, Double.ltb x x = false).
  { intros x. unfold Double.ltb, SFltb. by destruct (compare_same x) as [-> | ->]. }
  unfold Double.min.
  destruct a as [sa | sa | | sa ma ea], b as [sb | sb | | sb mb eb];
    try reflexivity;
    match goal with
    | |- Double.ltb ?y (if Double.ltb ?y ?x then _ else _) = _ =>
        destruct (Double.ltb y x) eqn:Hlt; [apply Hsame | exact Hlt]
    end.
Qed.

(** C4.  For every attempt index [i] and every value [r] of the random
    source, [calculateBackoff] returns [Math.min(delay + jitter, maxDelay)]
    with [delay = base * Math.pow(2, i)] and [jitter = r * 0.3 * delay],
    every operation being the one of binary64 arithmetic, and the result
    is never greater than [maxDelay].  When the base delay and [r] are
    numbers that are not negative, [r] is at most 1 and [delay] has not
    overflowed, [delay + jitter] lies between [delay] and
    [delay + 0.3 * delay], computed in the same arithmetic. *)
Theorem calculateBackoff_bounds
    (c : Http.HttpClient) (i : Z) (r : Double.t) (rest : list Double.t) (w : World) :
  entropy w = r :: rest ->
  let base := Http.baseDelayMs (Http.retryConfig c) in
  let cap := Http.maxDelayMs (Http.retryConfig c) in
  let delay := Double.mul base (Double.pow2 i) in
  let jitter := Double.mul (Double.mul r (Double.decimal 3 10)) delay in
  exists d,
    fst (Http.calculateBackoff c i w) = inr d /\
    d = Double.min (Double.add delay jitter) cap /\
    Double.ltb cap d = false /\
    (Double.ltb cap (Double.add delay jitter) = true -> d = cap) /\
    (0 <= i ->
     Double.valid base = true -> Double.leb (Double.of_Z 0) base = true ->
     Double.valid r = true -> Double.leb (Double.of_Z 0) r = true ->
     Double.leb r (Double.of_Z 1) = true ->
     Double.finite delay = true ->
     Double.leb delay (Double.add delay jitter) = true /\
     Double.leb (Double.add delay jitter)
       (Double.add delay (Double.mul (Double.decimal 3 10) delay)) = true).
Proof.
  intros Hent base cap delay jitter.
  unfold Http.calculateBackoff, bind, Math_random, ret. rewrite Hent. cbn [fst].
  fold base cap delay jitter.
  eexists. split; [reflexivity|]. split; [reflexivity|].
  split; [apply min_not_above|]. split.
  - intros Hover. unfold Double.min. rewrite Hover.
    unfold Double.ltb, SFltb in Hover.
    destruct (Double.add delay jitter), cap; try reflexivity; discriminate.
  - intros Hi Hvb Hb0 Hvr Hr0 Hr1 Hfd. by apply backoff_interval.
Qed.

End Backoff.

(** With the default policy (1000 ms base, 30000 ms cap), the third
    attempt ([i = 2]) and [r = 1/2] wait 4600 ms, which is between 4000 ms
    and 5200 ms. *)
Lemma calculateBackoff_bounds_witness :
  exists d,
    fst (Http.calculateBackoff
           (Http.new_HttpClient
              {| Http.cfg_apiKey := lit "k"; Http.cfg_timeout := None;
                 Http.cfg_debug := None; Http.cfg_retry := None |})
           2 (fresh_world [] [Double.decimal 1 2])) = inr d /\
    Double.ltb (Double.of_Z 30000) d = false /\
    Double.leb (Double.of_Z 4000) d = true /\
    Double.leb d (Double.of_Z 5200) = true /\
    exists q, Double.value d = Some q /\ (q == 4600)%Q.
Proof.
  destruct (calculateBackoff_bounds
              (Http.new_HttpClient
                 {| Http.cfg_apiKey := lit "k"; Http.cfg_timeout := None;
                    Http.cfg_debug := None; Http.cfg_retry := None |})
              2 (Double.decimal 1 2) [] (fresh_world [] [Double.decimal 1 2]))
    as (d & Hd & Heq & Hcap & _ & Hinterval).
  - reflexivity.
  - destruct Hinterval as [Hlow Hhigh]; try reflexivity; [lia|].
    assert (Hsum : d = Double.add (Double.of_Z 4000)
                         (Double.mul (Double.mul (Double.decimal 1 2)
                                        (Double.decimal 3 10))
                            (Double.of_Z 4000)))
      by (rewrite Heq; vm_compute; reflexivity).
    exists d. split; [exact Hd|]. split; [exact Hcap|].
    split; [rewrite Hsum; exact Hlow|].
    split; [rewrite Hsum; exact Hhigh|].
    rewrite Heq. eexists. split; [vm_compute; reflexivity | reflexivity].
Defined.

(** C4, as the claim has it, fails where the power overflows: at attempt
    1024 with [r = 0] the delay is infinite, the jitter is [0 * Infinity],
    and what comes back is NaN, which is neither the 30000 ms of the claimed
    formula nor a value in the claimed interval. *)
Lemma calculateBackoff_overflow_counterexample :
  let c :=
    Http.new_HttpClient
      {| Http.cfg_apiKey := lit "k"; Http.cfg_timeout := None;
         Http.cfg_debug := None; Http.cfg_retry := None |} in
  let d := fst (Http.calculateBackoff c 1024 (fresh_world [] [Double.of_Z 0])) in
  d = inr Double.NaN /\
  d <> inr (Double.of_Z 30000) /\
  ~ (exists x, d = inr x /\
       Double.leb (Double.mul (Http.baseDelayMs (Http.retryConfig c)) (Double.pow2 1024)) x
       = true).
Proof.
  intros c d.
  assert (Hd : d = inr Double.NaN) by (vm_compute; reflexivity).
  split; [exact Hd|]. rewrite Hd.
  split; [discriminate|].
  intros (x & [= <-] & Hle). vm_compute in Hle. discriminate Hle.
Qed.

(** The ends of the interval are computed ones.  With a base delay of
    201 ms, at attempt 0 and with [r] the largest number below 1, the delay
    is the binary64 number nearest to 261.3, which is a little above the
    exact product of 201 and 1.3. *)
Example backoff_rounds_above_the_interval :
  let c :=
    Http.new_HttpClient
      {| Http.cfg_apiKey := lit "k"; Http.cfg_timeout := None;
         Http.cfg_debug := None;
         Http.cfg_retry :=
           Some {| Http.retry_maxAttempts := None;
                   Http.retry_baseDelayMs := Some (Double.of_Z 201);
                   Http.retry_maxDelayMs := None |} |} in
  let r := S754_finite false 9007199254740991 (-53) in
  exists q,
    fst (Http.calculateBackoff c 0 (fresh_world [] [r])) = inr (Double.decimal 2613 10) /\
    Double.value (Double.decimal 2613 10) = Some q /\
    (inject_Z 201 * (13 # 10) < q)%Q.
Proof.
  intros c r. eexists. split; [vm_compute; reflexivity|].
  split; [vm_compute; reflexivity|]. vm_compute. reflexivity.
Qed.

(* ------------------------------------------------------------------ *)
(** ** The log accumulator: context *)
(* ------------------------------------------------------------------ *)

Section LoggerContext.

Lemma spread_one (a : Obj) : spread [a] = a.
Proof. unfold spread. cbn. apply (right_id_L ∅ (∪)). Qed.

Lemma spread_two (a b : Obj) : spread [a; b] = b ∪ a.
Proof. unfold spread. cbn. by rewrite (right_id_L ∅ (∪)). Qed.

Lemma spread_three (a b c : Obj) : spread [a; b; c] = c ∪ (b ∪ a).
Proof. unfold spread. cbn. by rewrite (right_id_L ∅ (∪)). Qed.

Lemma spread_nested (a b c : Obj) : spread [spread [a; b]; c] = spread [a; b; c].
Proof. by rewrite !spread_two, spread_three. Qed.

Lemma alloc_fresh (h : Logger.Heap) (o : Obj) :
  h !! fst (Logger.alloc h o) = None.
Proof. cbn. apply not_elem_of_dom. apply is_fresh. Qed.

Lemma withContext_heap (A : Logger.LogDotLogger) (X : Obj) (h : Logger.Heap) :
  let B := fst (Logger.withContext A X h) in
  let h1 := snd (Logger.withContext A X h) in
  h !! Logger.context B = None /\
  h1 = <[Logger.context B := spread [Logger.deref h (Logger.context A); X]]> h.
Proof.
  cbn. split; [|reflexivity].
  apply not_elem_of_dom. apply is_fresh.
Qed.

(** C5.  [A.withContext(X)] returns a new accumulator whose context is
    [{...A.context, ...X}], with [X] winning where both have a key, and
    leaves the context of [A] as it was; chaining, the context of
    [A.withContext(X).withContext(Y)] is [{...A.context, ...X, ...Y}]. *)
Theorem withContext_merges
    (A : Logger.LogDotLogger) (X Y : Obj) (h : Logger.Heap) (cA : Obj) :
  h !! Logger.context A = Some cA ->
  let B := fst (Logger.withContext A X h) in
  let h1 := snd (Logger.withContext A X h) in
  let C := fst (Logger.withContext B Y h1) in
  let h2 := snd (Logger.withContext B Y h1) in
  Logger.getContext B h1 = spread [cA; X] /\
  (forall k v, X !! k = Some v -> Logger.getContext B h1 !! k = Some v) /\
  (forall k, X !! k = None -> Logger.getContext B h1 !! k = cA !! k) /\
  Logger.context B <> Logger.context A /\
  Logger.getContext A h1 = cA /\
  Logger.getContext C h2 = spread [cA; X; Y] /\
  Logger.getContext A h2 = cA /\
  Logger.getContext B h2 = spread [cA; X].
Proof.
  intros HA B h1 C h2.
  destruct (withContext_heap A X h) as [HBfresh Hh1].
  fold B h1 in HBfresh, Hh1.
  destruct (withContext_heap B Y h1) as [HCfresh Hh2].
  fold C h2 in HCfresh, Hh2.
  assert (HBA : Logger.context B <> Logger.context A) by congruence.
  assert (HdA : Logger.deref h (Logger.context A) = cA)
    by (unfold Logger.deref; by rewrite HA).
  rewrite HdA in Hh1.
  assert (H1B : h1 !! Logger.context B = Some (spread [cA; X]))
    by (rewrite Hh1; apply lookup_insert_eq).
  assert (H1A : h1 !! Logger.context A = Some cA)
    by (rewrite Hh1, lookup_insert_ne; done).
  assert (HCB : Logger.context C <> Logger.context B) by congruence.
  assert (HCA : Logger.context C <> Logger.context A) by congruence.
  assert (HdB : Logger.deref h1 (Logger.context B) = spread [cA; X])
    by (unfold Logger.deref; by rewrite H1B).
  rewrite HdB in Hh2.
  assert (HgB : Logger.getContext B h1 = spread [cA; X])
    by (unfold Logger.getContext; by rewrite spread_one, HdB).
  repeat split.
  - exact HgB.
  - intros k v Hk. rewrite HgB, spread_two. by apply lookup_union_Some_l.
  - intros k Hk. rewrite HgB, spread_two. by apply lookup_union_r.
  - exact HBA.
  - unfold Logger.getContext, Logger.deref. by rewrite spread_one, H1A.
  - unfold Logger.getContext, Logger.deref.
    rewrite spread_one, Hh2, lookup_insert_eq. cbn. apply spread_nested.
  - unfold Logger.getContext, Logger.deref.
    rewrite spread_one, Hh2, lookup_insert_ne, H1A; done.
  - unfold Logger.getContext, Logger.deref.
    rewrite spread_one, Hh2, lookup_insert_ne, H1B; done.
Qed.

End LoggerContext.

(** A logger with context [{a: 1, b: 2}]; [withContext({b: 3})] then
    [withContext({c: null})]. *)
Lemma withContext_merges_witness :
  let A := Logger.new_LogDotLogger example_config 1%positive in
  let h : Logger.Heap :=
    {[ 1%positive := {[ lit "a" := JNum 1; lit "b" := JNum 2 ]} ]} in
  let B := fst (Logger.withContext A {[ lit "b" := JNum 3 ]} h) in
  let h1 := snd (Logger.withContext A {[ lit "b" := JNum 3 ]} h) in
  Logger.getContext B h1 !! lit "b" = Some (JNum 3) /\
  Logger.getContext A h1 !! lit "b" = Some (JNum 2).
Proof.
  intros A h B h1.
  destruct (withContext_merges A {[ lit "b" := JNum 3 ]} {[ lit "c" := JNull ]} h
              {[ lit "a" := JNum 1; lit "b" := JNum 2 ]})
    as (_ & Hwin & _ & _ & HA & _).
  - reflexivity.
  - split.
    + apply Hwin. reflexivity.
    + fold h1 in HA. rewrite HA. reflexivity.
Defined.

(* ------------------------------------------------------------------ *)
(** ** The bound metrics client: modes *)
(* ------------------------------------------------------------------ *)

Section MetricsModes.
Context `{Platform}.

Lemma record_response_modes (c : Metrics.BoundMetricsClient) status f :
  (forall x, Metrics.batchMode (f x) = Metrics.batchMode x) ->
  (forall x, Metrics.multiBatchMode (f x) = Metrics.multiBatchMode x) ->
  Metrics.batchMode (snd (Metrics.record_response c status f)) = Metrics.batchMode c /\
  Metrics.multiBatchMode (snd (Metrics.record_response c status f))
  = Metrics.multiBatchMode c.
Proof.
  intros Hb Hm. unfold Metrics.record_response.
  destruct (Metrics.is_success status); cbn; rewrite ?Hb, ?Hm; auto.
Qed.

Lemma record_failure_modes (c : Metrics.BoundMetricsClient) error :
  Metrics.batchMode (snd (Metrics.record_failure c error)) = Metrics.batchMode c /\
  Metrics.multiBatchMode (snd (Metrics.record_failure c error))
  = Metrics.multiBatchMode c.
Proof. unfold Metrics.record_failure. destruct (message_of error); auto. Qed.

(** Every reachable state is in exactly one of the three modes: the
    multi-metric flag is never set without the batch flag. *)
Lemma metrics_reachable_modes (c : Metrics.BoundMetricsClient) :
  metrics_reachable c -> Metrics.multiBatchMode c = true -> Metrics.batchMode c = true.
Proof.
  induction 1 as [ | c name value unit tags w _ IH | | c value tags _ IH | |
                   c name value unit tags _ IH | c w _ IH | | ]; cbn; auto; try discriminate.
  - unfold Metrics.send.
    destruct (Metrics.batchMode c) eqn:Hb; cbn; auto.
    destruct (Http.post _ _ _ w) as [[error | response] w1]; cbn.
    + destruct (record_failure_modes c error) as [-> ->]. rewrite Hb. exact IH.
    + destruct (record_response_modes c (Http.status response) (fun x => x)) as [-> ->];
        auto. rewrite Hb. exact IH.
  - unfold Metrics.add.
    destruct (negb (Metrics.batchMode c) || Metrics.multiBatchMode c); cbn; exact IH.
  - unfold Metrics.addMetric.
    destruct (negb (Metrics.multiBatchMode c)); cbn; exact IH.
  - unfold Metrics.sendBatch.
    destruct (negb (Metrics.batchMode c) || _); cbn; auto.
    destruct (Http.post _ _ _ w) as [[error | response] w1]; cbn.
    + destruct (record_failure_modes c error) as [-> ->]. exact IH.
    + destruct (record_response_modes c (Http.status response) Metrics.clearBatch)
        as [-> ->]; auto.
Qed.

Lemma metrics_reachable_trichotomy (c : Metrics.BoundMetricsClient) :
  metrics_reachable c -> in_single_batch c \/ in_multi_batch c \/ outside_batch c.
Proof.
  intros Hr. pose proof (metrics_reachable_modes c Hr) as Hm.
  unfold in_single_batch, in_multi_batch, outside_batch.
  destruct (Metrics.batchMode c), (Metrics.multiBatchMode c); auto.
Qed.

(** C6.  In every state of the bound metrics client: [add] in
    multi-metric batch mode or outside any batch mode returns false and
    leaves the queue as it was; [addMetric] in single-metric batch mode or
    outside any batch mode returns false and leaves the queue as it was;
    [send] in either batch mode returns false and the world is the one it
    was given: nothing was put on the wire. *)
Theorem mode_exclusivity (c : Metrics.BoundMetricsClient) :
  (in_multi_batch c \/ outside_batch c ->
   forall value tags,
     fst (Metrics.add c value tags) = false /\
     Metrics.batchQueue (snd (Metrics.add c value tags)) = Metrics.batchQueue c) /\
  (in_single_batch c \/ outside_batch c ->
   forall name value unit tags,
     fst (Metrics.addMetric c name value unit tags) = false /\
     Metrics.batchQueue (snd (Metrics.addMetric c name value unit tags))
     = Metrics.batchQueue c) /\
  (in_single_batch c \/ in_multi_batch c ->
   forall name value unit tags w,
     exists c',
       Metrics.send c name value unit tags w = (inr false, c', w) /\
       Metrics.batchQueue c' = Metrics.batchQueue c).
Proof.
  unfold in_single_batch, in_multi_batch, outside_batch.
  split; [|split].
  - intros Hmode value tags. unfold Metrics.add.
    destruct Hmode as [[-> ->] | [-> ->]]; split; reflexivity.
  - intros Hmode name value unit tags. unfold Metrics.addMetric.
    destruct Hmode as [[_ ->] | [_ ->]]; split; reflexivity.
  - intros Hmode name value unit tags w. unfold Metrics.send.
    destruct Hmode as [[-> _] | [-> _]]; eexists; split; reflexivity.
Qed.

End MetricsModes.

(** After [beginMultiBatch], [add] is refused; after [beginBatch],
    [addMetric] and [send] are. *)
Lemma mode_exclusivity_witness :
  let http :=
    Http.new_HttpClient
      {| Http.cfg_apiKey := lit "k"; Http.cfg_timeout := None;
         Http.cfg_debug := None; Http.cfg_retry := None |} in
  let client := Metrics.new_BoundMetricsClient http (lit "E1") false in
  let multi := snd (Metrics.addMetric (Metrics.beginMultiBatch client)
                      (lit "cpu") 1%Q (lit "percent") None) in
  let single := snd (Metrics.add (Metrics.beginBatch (lit "cpu") (lit "percent") client)
                       1%Q None) in
  (fst (Metrics.add multi 2%Q None) = false /\
   Metrics.getBatchSize (snd (Metrics.add multi 2%Q None)) = 1) /\
  (fst (Metrics.addMetric single (lit "mem") 2%Q (lit "MB") None) = false /\
   Metrics.getBatchSize (snd (Metrics.addMetric single (lit "mem") 2%Q (lit "MB") None)) = 1) /\
  fst (fst (Metrics.send (H := stub_platform) single (lit "mem") 2%Q (lit "MB") None
              (fresh_world [Responds 200 None] []))) = inr false.
Proof.
  intros http client multi single.
  destruct (@mode_exclusivity stub_platform multi) as (Hadd & _ & _).
  destruct (@mode_exclusivity stub_platform single) as (_ & HaddMetric & Hsend).
  split; [|split].
  - destruct (Hadd (or_introl (conj eq_refl eq_refl)) 2%Q None) as [-> Hq].
    split; [reflexivity|]. unfold Metrics.getBatchSize. rewrite Hq. reflexivity.
  - destruct (HaddMetric (or_introl (conj eq_refl eq_refl))
                (lit "mem") 2%Q (lit "MB") None) as [-> Hq].
    split; [reflexivity|]. unfold Metrics.getBatchSize. rewrite Hq. reflexivity.
  - destruct (Hsend (or_introl (conj eq_refl eq_refl))
                (lit "mem") 2%Q (lit "MB") None (fresh_world [Responds 200 None] []))
      as (c' & -> & _).
    reflexivity.
Defined.

(* ------------------------------------------------------------------ *)
(** ** The log accumulator: sending *)
(* ------------------------------------------------------------------ *)

Section LoggerSend.
Context `{Platform}.

Lemma is_success_iff (status : Z) :
  Logger.is_success status = true <-> status = 200 \/ status = 201.
Proof. unfold Logger.is_success. rewrite orb_true_iff, !Z.eqb_eq. tauto. Qed.

Lemma debugLog_world (this : Logger.LogDotLogger) (message : JsString) (w : World) :
  exists w',
    Logger.debugLog this message w = (inr tt, w') /\
    network w' = network w /\ wire w' = wire w.
Proof.
  unfold Logger.debugLog. destruct (Logger.debugEnabled this); by eexists.
Qed.

(** What the [catch] of [sendLog] and [sendBatch] does with an error. *)
Lemma report_failure_world (this : Logger.LogDotLogger) (prefix : JsString) e (w : World) :
  exists w',
    bind (lift (message_of (ThrownError e)))
      (fun message => bind (Logger.debugLog this (prefix ++ message))
                        (fun _ => ret false)) w
    = (inr false, w') /\
    network w' = network w /\ wire w' = wire w.
Proof.
  unfold bind, lift, message_of, ret.
  destruct (debugLog_world this (prefix ++ err_message e) w) as (w' & -> & Hn & Hw).
  by eexists.
Qed.

Lemma report_status_world (this : Logger.LogDotLogger) (line : JsString) (w : World) :
  exists w',
    bind (Logger.debugLog this line) (fun _ => ret false) w = (inr false, w') /\
    network w' = network w /\ wire w' = wire w.
Proof.
  unfold bind, ret.
  destruct (debugLog_world this line w) as (w' & -> & Hn & Hw). by eexists.
Qed.

Lemma post_request_api (c : Http.HttpClient) (url : JsString) (body : Json) :
  Http.post_request c url body = api_post (Http.apiKey c) url body.
Proof. reflexivity. Qed.

Lemma level_name_text (level : LogLevel) : level_name level = severity_text level.
Proof. by destruct level. Qed.

Lemma json_of_obj_object (o : Obj) : object_of o (json_of_obj o).
Proof. by exists (map_to_list o). Qed.

Lemma tags_field_sent (entry : Logger.LogEntry) :
  tags_sent (Logger.tags entry) (Logger.tags_field entry).
Proof.
  unfold tags_sent, Logger.tags_field, keys_length.
  destruct (Logger.tags entry) as [t|]; [|reflexivity].
  destruct (Z.ltb_spec 0 (Z.of_nat (size t))) as [Hpos | Hzero].
  - right. split.
    + intros ->. rewrite map_size_empty in Hpos. lia.
    + eexists. split; [reflexivity | apply json_of_obj_object].
  - left. split; [|reflexivity]. apply map_size_empty_iff. lia.
Qed.

Lemma batch_entry_sent (entry : Logger.LogEntry) :
  log_sent entry (Logger.batch_entry entry).
Proof.
  exists (Logger.tags_field entry). split; [|apply tags_field_sent].
  unfold Logger.batch_entry. by rewrite level_name_text.
Qed.

Lemma Forall2_map_self {A B} (P : A -> B -> Prop) (f : A -> B) (l : list A) :
  (forall x, P x (f x)) -> Forall2 P l (map f l).
Proof. intros Hf. induction l; constructor; auto. Qed.

Lemma batch_payload_sent (this : Logger.LogDotLogger) :
  exists logs,
    Logger.batch_payload this = logs_batch (Logger.hostname this) logs /\
    Forall2 log_sent (Logger.batchQueue this) logs.
Proof.
  exists (map Logger.batch_entry (Logger.batchQueue this)).
  split; [reflexivity|]. apply Forall2_map_self, batch_entry_sent.
Qed.

Lemma sendBatch_run (this : Logger.LogDotLogger) (w : World) :
  let url := Http.BASE_LOGS_URL ++ Logger.ENDPOINT_BATCH in
  let req := Http.post_request (Logger.http this) url (Logger.batch_payload this) in
  let maxAttempts := Http.maxAttempts (Http.retryConfig (Logger.http this)) in
  (Logger.batchMode this = false \/ Logger.batchQueue this = [] ->
   Logger.sendBatch this w = (inr false, this, w)) /\
  (Logger.batchMode this = true -> Logger.batchQueue this <> [] -> 1 <= maxAttempts ->
   exists (b : bool) this' w' n,
     Logger.sendBatch this w = (inr b, this', w') /\
     wire w' = wire w ++ repeat req n /\ (1 <= n)%nat /\ Z.of_nat n <= maxAttempts /\
     (b = true <->
      exists response,
        fst (Http.post (Logger.http this) url (Logger.batch_payload this) w)
        = inr response /\
        (Http.status response = 200 \/ Http.status response = 201)) /\
     (b = true ->
      Logger.batchQueue this' = [] /\ this' = Logger.clearBatch this) /\
     (b = false -> this' = this)).
Proof.
  intros url req maxAttempts. split.
  - intros Hidle. unfold Logger.sendBatch.
    destruct Hidle as [-> | ->]; [reflexivity|].
    by rewrite orb_true_r.
  - intros Hmode Hqueue Hmax.
    unfold Logger.sendBatch. rewrite Hmode.
    destruct (Logger.batchQueue this) as [|entry queue] eqn:Hq; [done|].
    change (negb true || (Z.of_nat (length (entry :: queue)) =? 0)) with false.
    cbv iota. fold url.
    destruct (post_bounded (Logger.http this) url (Logger.batch_payload this) w)
      as (n & Hwire & Hle & Hpos).
    fold req maxAttempts in Hwire, Hle, Hpos.
    destruct (Hpos Hmax) as [Hn Hnull].
    destruct (Http.post (Logger.http this) url (Logger.batch_payload this) w)
      as [[error | response] w1]; cbn [fst snd] in *.
    + destruct error as [|e]; [done|].
      destruct (report_failure_world this (lit "Failed to send batch: ") e w1)
        as (w2 & -> & _ & Hw2).
      exists false, this, w2, n.
      split; [reflexivity|]. rewrite Hw2.
      repeat split; try done; try lia.
      intros (response & [=] & _).
    + destruct (Logger.is_success (Http.status response)) eqn:Hok.
      * exists true, (Logger.clearBatch this), w1, n.
        split; [reflexivity|].
        repeat split; try done; try lia.
        intros _. exists response. split; [reflexivity|]. by apply is_success_iff.
      * destruct (report_status_world this
                    (lit "Failed to send batch. HTTP code: "
                     ++ Number_toString (inject_Z (Http.status response))) w1)
          as (w2 & -> & _ & Hw2).
        exists false, this, w2, n.
        split; [reflexivity|]. rewrite Hw2.
        repeat split; try done; try lia.
        intros (response' & [= <-] & Hst).
        apply is_success_iff in Hst. congruence.
Qed.



(** C10.  When the context merged with the tags of a log call is the
    empty mapping (an empty tags object over an empty context included),
    neither the body of the single-log request nor the entry in the batch
    body has a [tags] key: outside batch mode every request the call puts
    on the wire carries that body, and in batch mode the entry is queued
    and rendered without the key. *)
Theorem empty_tags_omitted
    (this : Logger.LogDotLogger) (h : Logger.Heap)
    (level : LogLevel) (message : JsString) (tags : option Obj) (w : World) :
  spread [Logger.deref h (Logger.context this); default ∅ tags] = ∅ ->
  let entry :=
    {| Logger.message := message; Logger.level := level;
       Logger.tags := Logger.mergeTags this h tags |} in
  let single := Logger.single_payload this entry in
  has_key (lit "tags") single = false /\
  has_key (lit "tags") (Logger.batch_entry entry) = false /\
  (Logger.batchMode this = false ->
   exists r w' n,
     Logger.log this h level message tags w = (r, this, w') /\
     wire w' = wire w
               ++ repeat (Http.post_request (Logger.http this)
                            (Http.BASE_LOGS_URL ++ Logger.ENDPOINT_SINGLE) single) n) /\
  (Logger.batchMode this = true ->
   Logger.log this h level message tags w
   = (inr true, Logger.push_entry entry this, w) /\
   json_get (lit "logs") (Logger.batch_payload (Logger.push_entry entry this))
   = Some (JArr (map Logger.batch_entry (Logger.batchQueue this)
                 ++ [Logger.batch_entry entry]))).
Proof.
  intros Hempty entry single.
  assert (Hfield : Logger.tags_field entry = []).
  { unfold Logger.tags_field, entry, Logger.mergeTags. cbn [Logger.tags].
    destruct (_ && _); [reflexivity|]. by rewrite Hempty. }
  split; [|split; [|split]].
  - unfold single, Logger.single_payload. rewrite Hfield. reflexivity.
  - unfold Logger.batch_entry. rewrite Hfield. reflexivity.
  - intros Hmode. unfold Logger.log. rewrite Hmode. fold entry.
    unfold Logger.sendLog, try_catch, bind. fold single.
    set (url := Http.BASE_LOGS_URL ++ Logger.ENDPOINT_SINGLE).
    destruct (post_bounded (Logger.http this) url single w) as (n & Hwire & _ & _).
    destruct (Http.post (Logger.http this) url single w)
      as [[error | response] w1]; cbn [fst snd] in *.
    + destruct (message_of error) as [t | text]; cbn.
      * by exists (inl t), w1, n.
      * destruct (debugLog_world this (lit "Failed to send log: " ++ text) w1)
          as (w2 & -> & _ & Hw2).
        exists (inr false), w2, n. by rewrite Hw2.
    + destruct (Logger.is_success (Http.status response)).
      * by exists (inr true), w1, n.
      * destruct (debugLog_world this
                    (lit "Failed to send log. HTTP code: "
                     ++ Number_toString (inject_Z (Http.status response))) w1)
          as (w2 & -> & _ & Hw2).
        exists (inr false), w2, n. by rewrite Hw2.
  - intros Hmode. unfold Logger.log. rewrite Hmode. fold entry.
    split; [reflexivity|].
    unfold Logger.batch_payload. cbn. by rewrite map_app.
Qed.

End LoggerSend.



(** [info("up", {})] on a logger whose context is empty. *)
Lemma empty_tags_omitted_witness :
  let entry :=
    {| Logger.message := lit "up"; Logger.level := Info;
       Logger.tags := Logger.mergeTags example_logger example_heap (Some ∅) |} in
  Logger.tags entry = Some ∅ /\
  has_key (lit "tags") (Logger.single_payload example_logger entry) = false /\
  has_key (lit "tags") (Logger.batch_entry entry) = false.
Proof.
  intros entry.
  destruct (@empty_tags_omitted stub_platform example_logger example_heap Info (lit "up")
              (Some ∅) (fresh_world [] [])) as (Hsingle & Hbatch & _).
  - reflexivity.
  - split; [reflexivity|]. split; [exact Hsingle | exact Hbatch].
Defined.

(* ------------------------------------------------------------------ *)
(** ** The console capture: recursion guard *)
(* ------------------------------------------------------------------ *)

Section CaptureGuard.
Context `{Platform}.

Lemma flush_coherent (p : Capture.Process) : guard_coherent p -> guard_coherent (Capture.flush p).
Proof.
  unfold guard_coherent, Capture.flush. intros Hp.
  destruct (_ || _); [exact Hp|]. cbn. split; eauto.
Qed.

Lemma settle_coherent (p : Capture.Process) (w : World) :
  guard_coherent p -> guard_coherent (fst (Capture.settle p w)).
Proof.
  unfold guard_coherent, Capture.settle. intros Hp.
  destruct (Capture.in_flight p) as [payload|] eqn:E; [|cbn; by rewrite E].
  destruct (Http.post _ _ _ w) as [r w']. cbn.
  split; [discriminate | intros [x [=]]].
Qed.

Lemma console_call_coherent (p : Capture.Process) method args :
  guard_coherent p -> guard_coherent (Capture.console_call method args p).
Proof.
  intros Hp. unfold Capture.console_call.
  destruct (negb (Capture.patched p)); [exact Hp|].
  destruct (Capture.flushing (Capture.this p)) eqn:Hf; [exact Hp|].
  match goal with |- guard_coherent (if ?b then _ else _) => destruct b end;
    [apply flush_coherent|]; unfold guard_coherent in *; cbn; rewrite Hf in *; exact Hp.
Qed.

(** In every state the capture goes through, the guard is set exactly
    while a flush is in flight. *)
Lemma capture_reachable_coherent (p : Capture.Process) :
  capture_reachable p -> guard_coherent p.
Proof.
  induction 1 as [config | p method args _ IH | p _ IH | p w _ IH | p _ IH].
  - unfold guard_coherent. cbn. split; [discriminate | intros [x [=]]].
  - by apply console_call_coherent.
  - unfold Capture.timer_tick. destruct (Capture.flushTimer _); [by apply flush_coherent | done].
  - by apply settle_coherent.
  - unfold Capture.shutdown, Capture.restore.
    match goal with
    | |- guard_coherent {| Capture.this := Capture.this (Capture.flush ?q) |} =>
        assert (Hq : guard_coherent (Capture.flush q))
          by (apply flush_coherent; exact IH)
    end.
    exact Hq.
Qed.

(** C7.  While the recursion guard is set, that is while the POST of a
    flush is in flight: a console call still reaches the saved original
    with its arguments and leaves the buffer as it was; [flush] does
    nothing; and when the POST settles, whatever the network did, the guard
    is cleared and the buffer is as it was.  A flush of a non-empty buffer
    with the guard clear takes the whole buffer into the body of one POST
    and leaves the buffer empty; the entries do not come back when that
    POST settles, whatever its outcome. *)
Theorem recursion_guard (p : Capture.Process) :
  guard_coherent p ->
  (Capture.flushing (Capture.this p) = true ->
   (forall method args,
      let p' := Capture.console_call method args p in
      Capture.terminal p' = Capture.terminal p ++ [(method, args)] /\
      Capture.this p' = Capture.this p /\
      Capture.in_flight p' = Capture.in_flight p) /\
   Capture.flush p = p /\
   (forall w,
      let p' := fst (Capture.settle p w) in
      Capture.flushing (Capture.this p') = false /\
      Capture.buffer (Capture.this p') = Capture.buffer (Capture.this p) /\
      Capture.in_flight p' = None)) /\
  (Capture.flushing (Capture.this p) = false ->
   Capture.buffer (Capture.this p) <> [] ->
   let p1 := Capture.flush p in
   Capture.buffer (Capture.this p1) = [] /\
   Capture.flushing (Capture.this p1) = true /\
   Capture.in_flight p1
   = Some (Capture.flush_payload (Capture.this p) (Capture.buffer (Capture.this p))) /\
   Capture.terminal p1 = Capture.terminal p /\
   (forall w,
      let p2 := fst (Capture.settle p1 w) in
      Capture.buffer (Capture.this p2) = [] /\
      Capture.flushing (Capture.this p2) = false /\
      Capture.in_flight p2 = None)).
Proof.
  intros Hcoh. split.
  - intros Hguard.
    destruct (proj1 Hcoh Hguard) as [payload Hpayload].
    split; [|split].
    + intros method args. unfold Capture.console_call. rewrite Hguard.
      destruct (negb (Capture.patched p)); cbn; auto.
    + unfold Capture.flush. rewrite Hguard. by rewrite orb_true_r.
    + intros w. unfold Capture.settle. rewrite Hpayload.
      destruct (Http.post _ _ _ w) as [r w']. cbn. auto.
  - intros Hclear Hbuffer.
    unfold Capture.flush. rewrite Hclear.
    destruct (Capture.buffer (Capture.this p)) as [|l logs] eqn:Hb; [done|].
    replace (Z.of_nat (length (l :: logs)) =? 0) with false by reflexivity.
    cbn -[Capture.flush_payload].
    repeat split.
    all: unfold Capture.settle; cbn -[Capture.flush_payload];
      destruct (Http.post _ _ _ w) as [r w']; reflexivity.
Qed.

End CaptureGuard.

(** Two console calls fill the buffer of a capture that flushes at two:
    the second call starts a flush; a third call made while that POST is in
    flight reaches the terminal but not the buffer; after the POST has
    failed the guard is clear and the buffer is still empty. *)
Lemma recursion_guard_witness :
  let p2 :=
    Capture.console_call (H := stub_platform) Capture.m_warn [Capture.ArgString (lit "b")]
      (Capture.console_call (H := stub_platform) Capture.m_log
         [Capture.ArgString (lit "a")] example_capture) in
  let p3 :=
    Capture.console_call (H := stub_platform) Capture.m_error
      [Capture.ArgString (lit "c")] p2 in
  let p4 :=
    fst (Capture.settle (H := stub_platform) p3
           (fresh_world [Rejects refused; Rejects refused; Rejects refused] [])) in
  Capture.flushing (Capture.this p2) = true /\
  length (Capture.terminal p3) = 3%nat /\
  Capture.buffer (Capture.this p3) = [] /\
  Capture.flushing (Capture.this p4) = false /\
  Capture.buffer (Capture.this p4) = [].
Proof.
  intros p2 p3 p4.
  assert (Hcoh : guard_coherent p2).
  { unfold guard_coherent. split; [intros _; by eexists | reflexivity]. }
  destruct (@recursion_guard stub_platform p2 Hcoh) as (Hset & _).
  destruct (Hset eq_refl) as (Hcall & _ & _).
  destruct (Hcall Capture.m_error [Capture.ArgString (lit "c")]) as (Hterm & Hthis & Hfl).
  fold p3 in Hterm, Hthis, Hfl.
  assert (Hcoh3 : guard_coherent p3).
  { unfold guard_coherent. rewrite Hthis, Hfl. exact Hcoh. }
  destruct (@recursion_guard stub_platform p3 Hcoh3) as (Hset3 & _).
  destruct Hset3 as (_ & _ & Hsettle); [rewrite Hthis; reflexivity|].
  destruct (Hsettle (fresh_world [Rejects refused; Rejects refused; Rejects refused] []))
    as (Hguard4 & Hbuf4 & _).
  fold p4 in Hguard4, Hbuf4.
  split; [reflexivity|]. split; [rewrite Hterm; reflexivity|].
  split; [rewrite Hthis; reflexivity|].
  split; [exact Hguard4|]. rewrite Hbuf4, Hthis. reflexivity.
Defined.

(* ------------------------------------------------------------------ *)
(** ** The metric exporter: histogram points *)
(* ------------------------------------------------------------------ *)

Section Histogram.
Context `{Platform}.

Lemma suffix_differs (base a b : JsString) : a <> b -> base ++ a <> base ++ b.
Proof. intros Hab Heq. apply Hab. by apply app_inv_head in Heq. Qed.

Ltac other_name :=
  match goal with
  | Hn : ?base ++ lit ?a = ?base ++ lit ?b |- _ =>
      exfalso; revert Hn; apply suffix_differs; vm_compute; discriminate
  end.

Ltac case_entries :=
  repeat match goal with
         | Hin : In _ (_ :: _) |- _ => destruct Hin as [<- | Hin]
         | Hin : In _ [] |- _ => destruct Hin
         | Hin : In _ (_ ++ _) |- _ => apply in_app_or in Hin; destruct Hin as [Hin | Hin]
         end.

Ltac absurd_flag :=
  match goal with
  | Hp : ?test = true, Hb : ?test = false |- _ => congruence
  end.

Ltac present_entry :=
  intros [Hin Hname]; case_entries; cbn in Hname; try other_name; eauto 8.

Ltac open_entry :=
  repeat match goal with
         | Hx : exists _, _ |- _ => destruct Hx
         | Hx : _ /\ _ |- _ => destruct Hx
         | Hx : None = Some _ |- _ => discriminate Hx
         | Hx : Some _ = Some _ |- _ => injection Hx as <-
         end.

Ltac entry_present :=
  let Hex := fresh "Hex" in
  intros Hex; open_entry; subst; try absurd_flag; split; cbn; auto 8.

Ltac entry_iff := intros e; split; [present_entry | entry_present].

(** A histogram metric is converted point by point. *)
Lemma convertMetricData_histogram (metricData : Exporter.MetricData) :
  Exporter.dataPointType metricData = Exporter.HISTOGRAM ->
  Exporter.convertMetricData metricData
  = flat_map
      (Exporter.convert_histogram_point (Exporter.descriptor_name metricData)
         (if bool_decide (Exporter.descriptor_unit metricData = []) then lit "1"
          else Exporter.descriptor_unit metricData))
      (Exporter.dataPoints metricData).
Proof. intros Htype. unfold Exporter.convertMetricData. by rewrite Htype. Qed.

(** C9, as the code has it.  A histogram point yields at most four
    entries, named [<base>.count], [<base>.avg], [<base>.min] and
    [<base>.max].  The count entry is there exactly when the count is
    present and greater than 0; the average entry exactly when moreover
    the sum is present and sum/count is not below 0, and its value is
    [Math.round(sum / count * 100) / 100], each operation being the one of
    binary64 arithmetic; the minimum and the maximum entry exactly when the
    field is present and not below 0. *)
Theorem histogram_point_entries
    (baseName unit : JsString) (point : Exporter.DataPoint) :
  let hist := Exporter.as_histogram (Exporter.point_value point) in
  let out := Exporter.convert_histogram_point baseName unit point in
  let entry suffix value unit :=
    {| Exporter.name := baseName ++ lit suffix; Exporter.value := value;
       Exporter.unit_ := unit;
       Exporter.tags := Exporter.formatTags (Exporter.attributes point) |} in
  let zero := Double.of_Z 0 in
  let hundred := Double.of_Z 100 in
  (length out <= 4)%nat /\
  (forall e, In e out ->
     Exporter.name e = baseName ++ lit ".count" \/
     Exporter.name e = baseName ++ lit ".avg" \/
     Exporter.name e = baseName ++ lit ".min" \/
     Exporter.name e = baseName ++ lit ".max") /\
  (forall e, In e out /\ Exporter.name e = baseName ++ lit ".count" <->
     exists c, Exporter.h_count hist = Some c /\ Double.ltb zero c = true /\
               e = entry ".count"%string c (lit "1")) /\
  (forall e, In e out /\ Exporter.name e = baseName ++ lit ".avg" <->
     exists c s, Exporter.h_count hist = Some c /\ Double.ltb zero c = true /\
                 Exporter.h_sum hist = Some s /\
                 Double.leb zero (Double.div s c) = true /\
                 e = entry ".avg"%string
                       (Double.div
                          (Double.round (Double.mul (Double.div s c) hundred))
                          hundred)
                       unit) /\
  (forall e, In e out /\ Exporter.name e = baseName ++ lit ".min" <->
     exists m, Exporter.h_min hist = Some m /\ Double.leb zero m = true /\
               e = entry ".min"%string m unit) /\
  (forall e, In e out /\ Exporter.name e = baseName ++ lit ".max" <->
     exists m, Exporter.h_max hist = Some m /\ Double.leb zero m = true /\
               e = entry ".max"%string m unit).
Proof.
  intros hist out entry zero hundred.
  unfold out, Exporter.convert_histogram_point, Exporter.Math_round. fold hist zero hundred.
  destruct (Exporter.h_count hist) as [c|];
    [destruct (Double.ltb zero c) eqn:Hc;
     [destruct (Exporter.h_sum hist) as [s|];
      [destruct (Double.leb zero (Double.div s c)) eqn:Hs|]|]|];
    (destruct (Exporter.h_min hist) as [lo|];
     [destruct (Double.leb zero lo) eqn:Hlo|]);
    (destruct (Exporter.h_max hist) as [hi|];
     [destruct (Double.leb zero hi) eqn:Hhi|]);
    cbn [app length].
  all: split; [lia|].
  all: split; [intros e Hin; case_entries; cbn; auto|].
  all: split; [entry_iff | split; [entry_iff | split; [entry_iff | entry_iff]]].
Qed.

End Histogram.

(** The point of the exporter's own test yields all four entries; the
    average of sum 100 over count 4 is 25. *)
Lemma histogram_point_entries_witness :
  let out :=
    Exporter.convert_histogram_point (H := stub_platform)
      (lit "request.duration") (lit "ms") tested_histogram_point in
  In {| Exporter.name := lit "request.duration" ++ lit ".count";
        Exporter.value := Double.of_Z 4; Exporter.unit_ := lit "1";
        Exporter.tags := None |} out /\
  In {| Exporter.name := lit "request.duration" ++ lit ".avg";
        Exporter.value := Double.of_Z 25; Exporter.unit_ := lit "ms";
        Exporter.tags := None |} out /\
  length out = 4%nat.
Proof.
  intros out.
  destruct (@histogram_point_entries stub_platform (lit "request.duration") (lit "ms")
              tested_histogram_point) as (_ & _ & Hcount & Havg & _).
  split; [|split].
  - apply Hcount. exists (Double.of_Z 4).
    split; [reflexivity|]. split; [reflexivity|]. reflexivity.
  - apply Havg. exists (Double.of_Z 4), (Double.of_Z 100).
    split; [reflexivity|]. split; [reflexivity|]. split; [reflexivity|].
    split; [reflexivity|]. vm_compute. reflexivity.
  - reflexivity.
Defined.

(** The average is rounded the way binary64 arithmetic rounds it: for
    sum 23 and count 40 the quotient times 100 falls just short of 57.5,
    and the entry carries 0.57. *)
Example histogram_average_of_23_over_40 :
  let point :=
    {| Exporter.point_value :=
         Exporter.HistogramValue
           {| Exporter.h_sum := Some (Double.of_Z 23);
              Exporter.h_count := Some (Double.of_Z 40);
              Exporter.h_min := None; Exporter.h_max := None |};
       Exporter.attributes := [] |} in
  map Exporter.value
    (Exporter.convert_histogram_point (H := stub_platform) (lit "m") (lit "ms") point)
  = [Double.of_Z 40; Double.decimal 57 100].
Proof. vm_compute. reflexivity. Qed.

(** And it is rounded up where the third decimal asks for it: sum 2 over
    count 3 gives 0.67. *)
Example histogram_average_of_2_over_3 :
  let point :=
    {| Exporter.point_value :=
         Exporter.HistogramValue
           {| Exporter.h_sum := Some (Double.of_Z 2);
              Exporter.h_count := Some (Double.of_Z 3);
              Exporter.h_min := None; Exporter.h_max := None |};
       Exporter.attributes := [] |} in
  map Exporter.value
    (Exporter.convert_histogram_point (H := stub_platform) (lit "m") (lit "ms") point)
  = [Double.of_Z 3; Double.decimal 67 100].
Proof. vm_compute. reflexivity. Qed.

(** C9, as the claim has it, fails on a point whose count is zero: the
    value the count entry would carry, 0, is not negative, yet there is no
    count entry. *)
Lemma histogram_zero_count_counterexample :
  let out :=
    Exporter.convert_histogram_point (H := stub_platform) (lit "m") (lit "ms")
      zero_histogram_point in
  ~ ((exists e, In e out /\ Exporter.name e = lit "m" ++ lit ".count")
     <-> Double.ltb (Double.of_Z 0) (Double.of_Z 0) = false).
Proof.
  intros out [_ Hemitted].
  destruct Hemitted as (e & Hin & Hname).
  - reflexivity.
  - vm_compute in Hin. destruct Hin as [<- | [<- | []]]; vm_compute in Hname; discriminate.
Qed.

(* ------------------------------------------------------------------ *)
(** ** The metric exporter: entity resolution *)
(* ------------------------------------------------------------------ *)

Section EntityResolution.
Context `{Platform}.

Lemma exporter_log_world (this : Exporter.LogDotMetricExporter) (message : JsString)
    (w : World) :
  exists w',
    Exporter.log this message w = (inr tt, w') /\
    network w' = network w /\ wire w' = wire w.
Proof. unfold Exporter.log. destruct (Exporter.debugEnabled this); by eexists. Qed.

(** Once the memo is set, [ensureEntity] does nothing: a resolved entity
    is never resolved again. *)
Lemma ensureEntity_memoized (this : Exporter.LogDotMetricExporter) (w : World) :
  Exporter.entityPromise this <> None -> Exporter.ensureEntity this w = (this, w).
Proof.
  unfold Exporter.ensureEntity. destruct (Exporter.entityPromise this); [reflexivity | done].
Qed.

(** With the memo set and no entity id, an export returns at once: it
    asks nothing of the network and leaves the exporter as it is, so the
    next export finds the same state. *)
Lemma export_skipped_forever (this : Exporter.LogDotMetricExporter)
    (resourceMetrics : Exporter.ResourceMetrics) (w : World) :
  Exporter.entityPromise this <> None ->
  Exporter.entityId this = None ->
  exists w',
    Exporter.doExport this resourceMetrics w = (inr tt, this, w') /\
    network w' = network w /\ wire w' = wire w.
Proof.
  intros Hmemo Hid. unfold Exporter.doExport.
  rewrite (ensureEntity_memoized this w Hmemo), Hid.
  destruct (exporter_log_world this
              (lit "No entity ID available, skipping metric export") w)
    as (w' & -> & Hn & Hw).
  by eexists.
Qed.

(** C8 on the code.  The lookup answers 404 and the creation answers 500:
    nothing is thrown, so the first export ends with no entity id and with
    the memo still set; from then on every export, whatever the network
    would answer, puts nothing on the wire. *)
Theorem failed_creation_never_retried :
  let w0 := fresh_world [Responds 404 None; Responds 500 None] [] in
  let run1 := Exporter.doExport example_exporter example_metrics w0 in
  let exporter := snd (fst run1) in
  fst (fst run1) = inr tt /\
  map method (wire (snd run1)) = [GET; POST] /\
  Exporter.entityId exporter = None /\
  Exporter.entityPromise exporter = Some Exporter.Fulfilled /\
  (forall resourceMetrics w,
     exists w',
       Exporter.doExport exporter resourceMetrics w = (inr tt, exporter, w') /\
       network w' = network w /\ wire w' = wire w).
Proof.
  intros w0 run1 exporter.
  assert (Hrun : run1
                 = (inr tt,
                    Exporter.set_entityPromise (Some Exporter.Fulfilled) example_exporter,
                    snd run1)).
  { unfold run1. reflexivity. }
  assert (Hexp : exporter
                 = Exporter.set_entityPromise (Some Exporter.Fulfilled) example_exporter)
    by (unfold exporter; rewrite Hrun; reflexivity).
  split; [by rewrite Hrun|].
  split; [reflexivity|].
  split; [by rewrite Hexp|].
  split; [by rewrite Hexp|].
  intros resourceMetrics w. apply export_skipped_forever; by rewrite Hexp.
Qed.

End EntityResolution.

(** When the lookup throws instead (three rejected attempts), the memo is
    reset and the next export looks the entity up again. *)
Example thrown_lookup_is_retried :
  let w0 := fresh_world [Rejects refused; Rejects refused; Rejects refused] [] in
  let run1 := Exporter.doExport (H := stub_platform) example_exporter example_metrics w0 in
  let exporter := snd (fst run1) in
  Exporter.entityPromise exporter = None /\
  let w1 := fresh_world [Responds 200 (Some (entity_body (lit "E1"))); Responds 200 None] [] in
  let second := Exporter.doExport (H := stub_platform) exporter example_metrics w1 in
  map method (wire (snd second)) = [GET; POST] /\
  Exporter.entityId (snd (fst second)) = Some (JStr (lit "E1")).
Proof. vm_compute. auto. Qed.

(** A resolved entity is not looked up again. *)
Example resolved_entity_is_reused :
  let w0 := fresh_world [Responds 200 (Some (entity_body (lit "E1"))); Responds 200 None] [] in
  let run1 := Exporter.doExport (H := stub_platform) example_exporter example_metrics w0 in
  let w1 := fresh_world [Responds 200 None] [] in
  let second := Exporter.doExport (H := stub_platform) (snd (fst run1)) example_metrics w1 in
  map method (wire (snd run1)) = [GET; POST] /\
  map method (wire (snd second)) = [POST].
Proof. vm_compute. auto. Qed.

(* ================================================================== *)
(** * Further properties *)
(* ================================================================== *)

#[local] Set Warnings "-clear-no-such-hyp".

(* ------------------------------------------------------------------ *)
(** ** The truncator on arbitrary strings *)
(* ------------------------------------------------------------------ *)

Section TruncationAnyString.

Ltac dlia := Z.to_euclidean_division_equations; lia.

(** The encoder only ever encodes scalar values. *)
Lemma code_points_scalar (s : JsString) :
  js_string s -> Forall scalar_value (Utils.code_points s).
Proof.
  assert (Hgen : forall n (t : JsString),
             (length t <= n)%nat -> js_string t ->
             Forall scalar_value (Utils.code_points t)).
  { induction n as [|n IH]; intros t Hlen Ht.
    - destruct t; [constructor | cbn in Hlen; lia].
    - destruct t as [|u rest]; [constructor|].
      apply Forall_cons in Ht as [Hu Hrest]. cbn [length] in Hlen.
      assert (Hrep : scalar_value Utils.REPLACEMENT)
        by (unfold scalar_value, Utils.REPLACEMENT; lia).
      cbn [Utils.code_points].
      destruct (Utils.is_high_surrogate u) eqn:Hh.
      + apply is_high_surrogate_iff in Hh.
        destruct rest as [|v rest']; [constructor; [exact Hrep | constructor]|].
        destruct (Utils.is_low_surrogate v) eqn:Hl.
        * apply is_low_surrogate_iff in Hl.
          apply Forall_cons in Hrest as [_ Hrest'].
          constructor; [unfold scalar_value; lia|].
          apply IH; [cbn [length] in Hlen; lia | exact Hrest'].
        * constructor; [exact Hrep|].
          change (Forall scalar_value (Utils.code_points (v :: rest'))).
          apply IH; [lia | exact Hrest].
      + destruct (Utils.is_low_surrogate u) eqn:Hl.
        * constructor; [exact Hrep | apply IH; [lia | exact Hrest]].
        * constructor; [|apply IH; [lia | exact Hrest]].
          unfold scalar_value. split; [lia|]. intros Hsur.
          assert (Hnh : ~ 0xD800 <= u <= 0xDBFF)
            by (intros Hx; apply is_high_surrogate_iff in Hx; congruence).
          assert (Hnl : ~ 0xDC00 <= u <= 0xDFFF)
            by (intros Hx; apply is_low_surrogate_iff in Hx; congruence).
          lia. }
  apply (Hgen (length s)). lia.
Qed.

Lemma code_points_utf16_app (cps : list Z) (rest : JsString) :
  Forall scalar_value cps ->
  Utils.code_points (Utils.utf16 cps ++ rest) = cps ++ Utils.code_points rest.
Proof.
  induction 1 as [|c cps Hc _ IH]; [reflexivity|].
  unfold Utils.utf16 in *. cbn [flat_map]. rewrite <- app_assoc.
  by rewrite code_points_utf16_cons, IH.
Qed.

Lemma utf8_strip_bom_length (cps : list Z) :
  (length (Utils.utf8 (Utils.strip_bom cps)) <= length (Utils.utf8 cps))%nat.
Proof.
  destruct cps as [|c cps]; [reflexivity|]. cbn [Utils.strip_bom].
  destruct (c =? Utils.BOM); [|reflexivity].
  change (Utils.utf8 (c :: cps)) with (Utils.utf8_of_cp c ++ Utils.utf8 cps).
  rewrite length_app. lia.
Qed.

Lemma strip_bom_scalar (cps : list Z) :
  Forall scalar_value cps -> Forall scalar_value (Utils.strip_bom cps).
Proof.
  destruct cps as [|c cps]; [done|]. cbn. intros Hall.
  destruct (c =? Utils.BOM); [by apply Forall_inv_tail in Hall | done].
Qed.

(** Where [truncateBytes] cuts a string that is over the budget. *)
Lemma truncateBytes_cut (str : JsString) (maxBytes : Z) :
  js_string str ->
  0 <= maxBytes < utf8_length str ->
  let cps := Utils.code_points str in
  exists k,
    (k < length cps)%nat /\
    Utils.truncateBytes str maxBytes
    = Utils.utf16 (Utils.strip_bom (firstn k cps)) ++ Utils.TRUNCATED /\
    Z.of_nat (length (Utils.utf8 (firstn k cps))) <= maxBytes /\
    (forall j, Z.of_nat (length (Utils.utf8 (firstn j cps))) <= maxBytes -> (j <= k)%nat).
Proof.
  intros Hstr [Hmax Hover] cps.
  pose proof (code_points_scalar str Hstr) as Hcps. fold cps in Hcps.
  unfold utf8_length, Utils.TextEncoder_encode in Hover. fold cps in Hover.
  destruct (split_at_byte cps maxBytes (conj Hmax Hover))
    as (front & c & back & Hsplit & Hlo & Hhi).
  rewrite Hsplit in Hcps.
  apply Forall_app in Hcps as [Hfront Hrest].
  pose proof (Forall_inv Hrest) as Hc.
  pose proof (utf8_of_cp_nonempty c) as Hne.
  exists (length front). rewrite Hsplit, take_app_length.
  split; [rewrite length_app; cbn; lia|].
  split; [|split; [lia|]].
  - unfold Utils.truncateBytes, Utils.TextEncoder_encode. fold cps. rewrite Hsplit.
    destruct (Z.leb_spec (Z.of_nat (length (Utils.utf8 (front ++ c :: back)))) maxBytes);
      [rewrite <- Hsplit in *; lia|].
    rewrite utf8_app.
    change (Utils.utf8 (c :: back)) with (Utils.utf8_of_cp c ++ Utils.utf8 back).
    replace maxBytes
      with (Z.of_nat (length (Utils.utf8 front))
            + Z.of_nat (Z.to_nat (maxBytes - Z.of_nat (length (Utils.utf8 front)))))
      at 2 by lia.
    rewrite (walk_back_to_lead (Utils.utf8 front) (Utils.utf8 back) c Hc) by lia.
    rewrite slice0_prefix by (destruct (Utils.utf8_of_cp c); [cbn in Hne; lia | done]).
    unfold Utils.TextDecoder_decode. by rewrite (utf8_decode_utf8 front Hfront).
  - intros j Hj. destruct (Nat.le_gt_cases j (length front)) as [|Hgt]; [done|exfalso].
    replace j with (length front + S (j - S (length front)))%nat in Hj by lia.
    rewrite firstn_app_2 in Hj. cbn [firstn] in Hj.
    rewrite utf8_app in Hj.
    change (Utils.utf8 (c :: ?l)) with (Utils.utf8_of_cp c ++ Utils.utf8 l) in Hj.
    rewrite !length_app in Hj. lia.
Qed.

(** X2.  For any string and any integer budget that is not negative and
    that the encoding exceeds, the result is the marker appended to the
    decoding of the longest run of whole encoded scalar values that fits
    the budget: an unpaired surrogate comes back as U+FFFD and a leading
    U+FEFF is dropped by the decoder. *)
Theorem truncateBytes_any_string (str : JsString) (maxBytes : Z) :
  js_string str ->
  0 <= maxBytes < utf8_length str ->
  let cps := Utils.code_points str in
  exists k,
    (k < length cps)%nat /\
    Utils.truncateBytes str maxBytes
    = Utils.utf16 (Utils.strip_bom (firstn k cps)) ++ Utils.TRUNCATED /\
    Z.of_nat (length (Utils.utf8 (firstn k cps))) <= maxBytes /\
    (forall j, Z.of_nat (length (Utils.utf8 (firstn j cps))) <= maxBytes -> (j <= k)%nat).
Proof. exact (truncateBytes_cut str maxBytes). Qed.

(** X1.  Whatever the string, and for every integer budget that is not
    negative, the UTF-8 encoding of the result is at most the budget plus
    the fifteen bytes of the marker; with the default budget of 16000
    bytes a message therefore stays below 16 KiB. *)
Theorem truncateBytes_size (str : JsString) (maxBytes : Z) :
  js_string str ->
  0 <= maxBytes ->
  utf8_length (Utils.truncateBytes str maxBytes) <= maxBytes + 15 /\
  (maxBytes = Utils.MAX_MESSAGE_BYTES ->
   utf8_length (Utils.truncateBytes_default str) < 16384).
Proof.
  intros Hstr Hmax.
  assert (Hsize : utf8_length (Utils.truncateBytes str maxBytes) <= maxBytes + 15).
  { destruct (Z.le_gt_cases (utf8_length str) maxBytes) as [Hfits | Hover].
    - unfold Utils.truncateBytes. unfold utf8_length in Hfits.
      destruct (Z.leb_spec (Z.of_nat (length (Utils.TextEncoder_encode str))) maxBytes);
        [unfold utf8_length; lia | lia].
    - destruct (truncateBytes_cut str maxBytes Hstr) as (k & _ & -> & Hle & _);
        [lia|].
      pose proof (code_points_scalar str Hstr) as Hcps.
      unfold utf8_length, Utils.TextEncoder_encode.
      rewrite code_points_utf16_app by (apply strip_bom_scalar, Forall_take, Hcps).
      rewrite utf8_app, length_app.
      pose proof (utf8_strip_bom_length (firstn k (Utils.code_points str))) as Hbom.
      replace (length (Utils.utf8 (Utils.code_points Utils.TRUNCATED))) with 15%nat
        by (vm_compute; reflexivity).
      lia. }
  split; [exact Hsize|].
  intros ->. unfold Utils.truncateBytes_default.
  unfold Utils.MAX_MESSAGE_BYTES in *. lia.
Qed.

End TruncationAnyString.

(** A string that begins with U+FEFF, cut to four bytes, loses its first
    character. *)
Lemma truncateBytes_any_string_witness :
  Utils.truncateBytes [0xFEFF; 97; 98] 4 = [97] ++ Utils.TRUNCATED.
Proof.
  destruct (truncateBytes_any_string [0xFEFF; 97; 98] 4) as (k & Hk & Hrun & Hle & Hmax).
  - repeat constructor; lia.
  - split; [lia | reflexivity].
  - assert (k = 2%nat) as ->.
    { assert (H2 : (2 <= k)%nat) by (apply Hmax; vm_compute; discriminate).
      cbn in Hk. lia. }
    exact Hrun.
Defined.

(** Four bytes of budget give at most nineteen bytes. *)
Lemma truncateBytes_size_witness :
  utf8_length (Utils.truncateBytes [0xD800; 97; 98; 99] 4) <= 19.
Proof.
  apply (truncateBytes_size [0xD800; 97; 98; 99] 4).
  - repeat constructor; lia.
  - lia.
Defined.

(* ------------------------------------------------------------------ *)
(** ** The retrying transport: [get], pauses and silence *)
(* ------------------------------------------------------------------ *)

Section TransportMore.
Context `{Platform}.

(** X3.  [get] retries like [post]: a response that completes, whatever
    its status, is returned at once; the number of requests never exceeds
    [maxAttempts]; when the last permitted attempt throws, its error is
    what [get] throws. *)
Theorem get_retries_only_failures (c : Http.HttpClient) (url : JsString) (w : World) :
  let req := Http.get_request c url in
  let maxAttempts := Http.maxAttempts (Http.retryConfig c) in
  (exists n,
     wire (snd (Http.get c url w)) = wire w ++ repeat req n /\
     Z.of_nat n <= Z.max 0 maxAttempts) /\
  (forall es status data rest,
     network w = map Rejects es ++ Responds status data :: rest ->
     Z.of_nat (length es) < maxAttempts ->
     exists w',
       Http.get c url w = (inr {| Http.status := status; Http.data := data |}, w') /\
       wire w' = wire w ++ repeat req (S (length es)) /\
       network w' = rest) /\
  (forall es e rest,
     network w = map Rejects (es ++ [e]) ++ rest ->
     Z.of_nat (length (es ++ [e])) = maxAttempts ->
     exists w',
       Http.get c url w = (inl (ThrownError e), w') /\
       wire w' = wire w ++ repeat req (length (es ++ [e])) /\
       network w' = rest).
Proof.
  intros req maxAttempts. unfold Http.get, Http.executeWithRetry. fold maxAttempts.
  pose proof (get_attempt_world c url) as Hfn. fold req in Hfn.
  split; [|split].
  - destruct (retry_loop_bounded c _ req Hfn (Z.to_nat maxAttempts) 0 ThrownNull w)
      as (n & Hw & Hle & _).
    exists n. split; [exact Hw | lia].
  - intros es status data rest Hnet Hlen.
    apply (retry_loop_responds c _ req Hfn es); [exact Hnet | lia].
  - intros es e rest Hnet Hlen.
    replace (Z.to_nat maxAttempts) with (length (es ++ [e])) by lia.
    destruct (retry_loop_rejects c _ req Hfn (es ++ [e]) 0 ThrownNull w rest Hnet)
      as (w' & Hrun & Hw & Hn).
    exists w'. split; [|auto].
    rewrite Hrun. unfold last_error. by rewrite fold_left_app.
Qed.

Lemma log_quiet (c : Http.HttpClient) (message : JsString) (w : World) :
  Http.debugEnabled c = false -> Http.log c message w = (inr tt, w).
Proof. intros Hd. unfold Http.log. by rewrite Hd. Qed.

Lemma log_keeps (c : Http.HttpClient) (message : JsString) (w : World) :
  network (snd (Http.log c message w)) = network w /\
  wire (snd (Http.log c message w)) = wire w /\
  slept (snd (Http.log c message w)) = slept w /\
  fst (Http.log c message w) = inr tt.
Proof. unfold Http.log. by destruct (Http.debugEnabled c). Qed.

Lemma fetch_keeps (req : Request) (w : World) :
  slept (snd (fetch req w)) = slept w /\ console (snd (fetch req w)) = console w.
Proof. unfold fetch. by destruct (network w) as [|[e | status data] rest]. Qed.

Lemma post_attempt_keeps (c : Http.HttpClient) (url : JsString) (body : Json) (w : World) :
  slept (snd (Http.post_attempt c url body w)) = slept w /\
  (Http.debugEnabled c = false ->
   console (snd (Http.post_attempt c url body w)) = console w).
Proof.
  unfold Http.post_attempt, bind, Http.log, ret, fetch, console_log.
  destruct (Http.debugEnabled c);
    destruct (network w) as [|[e | status [d|]] rest]; cbn;
    try destruct (truthy d); cbn;
    (split; [reflexivity | first [discriminate | intros _; reflexivity]]).
Qed.

Lemma get_attempt_keeps (c : Http.HttpClient) (url : JsString) (w : World) :
  slept (snd (Http.get_attempt c url w)) = slept w /\
  (Http.debugEnabled c = false ->
   console (snd (Http.get_attempt c url w)) = console w).
Proof.
  unfold Http.get_attempt, bind, Http.log, ret, fetch, console_log.
  destruct (Http.debugEnabled c);
    destruct (network w) as [|[e | status data] rest]; cbn;
    (split; [reflexivity | first [discriminate | intros _; reflexivity]]).
Qed.

(** What the pause between two attempts does to the world. *)
Lemma after_failure_pause (c : Http.HttpClient) (attempt : Z) (e : JsError) (w : World) :
  exists w',
    Http.after_failure c attempt (ThrownError e) w = (inr tt, w') /\
    network w' = network w /\ wire w' = wire w /\
    (Http.debugEnabled c = false -> console w' = console w) /\
    (if attempt <? Http.maxAttempts (Http.retryConfig c) - 1
     then exists d, slept w' = slept w ++ [d] /\
                    Double.ltb (Http.maxDelayMs (Http.retryConfig c)) d = false
     else slept w' = slept w).
Proof.
  unfold Http.after_failure.
  destruct (attempt <? _); [|by eexists].
  unfold Http.calculateBackoff, Math_random, lift, message_of, ret, Http.sleep, Http.log.
  repeat unfold bind.
  destruct (entropy w) as [|r rest]; destruct (Http.debugEnabled c); cbn;
    eexists; (split; [reflexivity|]); cbn;
    (split; [reflexivity|]); (split; [reflexivity|]);
    (split; [auto; discriminate|]);
    eexists; (split; [reflexivity|]); apply min_not_above.
Qed.

Section Pauses.
Variable c : Http.HttpClient.
Variable fn : Eff Http.HttpResponse.
Variable req : Request.
Hypothesis fn_attempt : forall w,
  fst (fn w) = attempt_result w /\
  network (snd (fn w)) = tl (network w) /\
  wire (snd (fn w)) = wire w ++ [req].
Hypothesis fn_keeps : forall w,
  slept (snd (fn w)) = slept w /\
  (Http.debugEnabled c = false -> console (snd (fn w)) = console w).

Lemma retry_loop_pauses (remaining : nat) :
  forall attempt before w,
    attempt + Z.of_nat remaining = Http.maxAttempts (Http.retryConfig c) ->
    exists n delays,
      wire (snd (Http.retry_loop c fn remaining attempt before w))
      = wire w ++ repeat req n /\
      slept (snd (Http.retry_loop c fn remaining attempt before w))
      = slept w ++ delays /\
      length delays = pred n /\
      Forall (fun d => Double.ltb (Http.maxDelayMs (Http.retryConfig c)) d = false) delays /\
      ((0 < remaining)%nat -> (0 < n)%nat).
Proof.
  induction remaining as [|k IH]; intros attempt before w Hsum.
  - exists 0%nat, []. cbn. rewrite !app_nil_r. repeat split; auto; lia.
  - cbn [Http.retry_loop].
    destruct (fn_attempt w) as (Hr & _ & Hw).
    destruct (fn_keeps w) as (Hs & _).
    destruct (fn w) as [r w1]; cbn in Hr, Hw, Hs.
    destruct r as [t | value].
    + destruct (attempt_result_thrown w t (eq_sym Hr)) as [e ->].
      destruct (after_failure_pause c attempt e w1) as (w2 & -> & _ & Hw2 & _ & Hpause).
      destruct (IH (attempt + 1) (ThrownError e) w2) as (n & delays & Hwn & Hsn & Hlen & Hall & Hpos);
        [lia|].
      destruct (Z.ltb_spec attempt (Http.maxAttempts (Http.retryConfig c) - 1)).
      * destruct Hpause as (d & Hd & Hle).
        exists (S n), (d :: delays).
        rewrite Hwn, Hsn, Hw2, Hw, Hd, Hs. cbn. rewrite <- !app_assoc. cbn.
        assert (0 < n)%nat by (apply Hpos; lia).
        repeat split; auto; lia.
      * assert (k = 0%nat) as -> by lia.
        exists 1%nat, []. cbn. rewrite Hw2, Hpause, Hw, Hs, app_nil_r.
        repeat split; auto; lia.
    + exists 1%nat, []. cbn. rewrite Hw, Hs, app_nil_r. repeat split; auto; lia.
Qed.

Lemma retry_loop_silent (remaining : nat) :
  Http.debugEnabled c = false ->
  forall attempt before w,
    console (snd (Http.retry_loop c fn remaining attempt before w)) = console w.
Proof.
  intros Hquiet.
  induction remaining as [|k IH]; intros attempt before w; [reflexivity|].
  cbn [Http.retry_loop].
  destruct (fn_attempt w) as (Hr & _ & _).
  destruct (fn_keeps w) as (_ & Hc).
  destruct (fn w) as [r w1]; cbn in Hr, Hc.
  destruct r as [t | value]; [|by apply Hc].
  destruct (attempt_result_thrown w t (eq_sym Hr)) as [e ->].
  destruct (after_failure_pause c attempt e w1) as (w2 & -> & _ & _ & Hc2 & _).
  rewrite IH, Hc2, Hc; auto.
Qed.

End Pauses.

(** X4.  [post] sleeps once between every two consecutive attempts and
    not after the last one, and never longer than [maxDelayMs]: with [n]
    requests made there are [n - 1] pauses. *)
Theorem post_pauses (c : Http.HttpClient) (url : JsString) (body : Json) (w : World) :
  exists n delays,
    wire (snd (Http.post c url body w))
    = wire w ++ repeat (Http.post_request c url body) n /\
    slept (snd (Http.post c url body w)) = slept w ++ delays /\
    length delays = pred n /\
    Forall (fun d => Double.ltb (Http.maxDelayMs (Http.retryConfig c)) d = false) delays.
Proof.
  unfold Http.post, Http.executeWithRetry.
  destruct (Z.le_gt_cases 0 (Http.maxAttempts (Http.retryConfig c))) as [Hpos | Hneg].
  - destruct (retry_loop_pauses c _ _ (post_attempt_world c url body)
                (post_attempt_keeps c url body)
                (Z.to_nat (Http.maxAttempts (Http.retryConfig c))) 0 ThrownNull w)
      as (n & delays & Hw & Hs & Hlen & Hall & _); [lia|].
    by exists n, delays.
  - replace (Z.to_nat _) with 0%nat by lia.
    exists 0%nat, []. cbn. by rewrite !app_nil_r.
Qed.

(** X5.  A client whose debug flag is off writes nothing to the console,
    whatever the network does. *)
Theorem transport_silent (c : Http.HttpClient) (url : JsString) (body : Json) (w : World) :
  Http.debugEnabled c = false ->
  console (snd (Http.post c url body w)) = console w /\
  console (snd (Http.get c url w)) = console w.
Proof.
  intros Hquiet. unfold Http.post, Http.get, Http.executeWithRetry. split.
  - apply (retry_loop_silent c _ _ (post_attempt_world c url body)
             (post_attempt_keeps c url body)); exact Hquiet.
  - apply (retry_loop_silent c _ _ (get_attempt_world c url)
             (get_attempt_keeps c url)); exact Hquiet.
Qed.

End TransportMore.

(** A lookup that times out once and then answers 404 gives the 404 back
    after two requests. *)
Lemma get_retries_only_failures_witness :
  fst (Http.get (H := stub_platform) example_client (lit "u")
         (fresh_world [Rejects timed_out; Responds 404 None] []))
  = inr {| Http.status := 404; Http.data := None |}.
Proof.
  destruct (@get_retries_only_failures stub_platform example_client (lit "u")
              (fresh_world [Rejects timed_out; Responds 404 None] []))
    as (_ & Hresponds & _).
  destruct (Hresponds [timed_out] 404 None []) as (w' & -> & _).
  - reflexivity.
  - cbn. lia.
  - reflexivity.
Defined.

(** The default client prints nothing even when every attempt fails. *)
Lemma transport_silent_witness :
  console (snd (Http.post (H := stub_platform) example_client (lit "u") JNull
                  (fresh_world [] []))) = [].
Proof.
  destruct (@transport_silent stub_platform example_client (lit "u") JNull
              (fresh_world [] [])) as [Hpost _].
  - reflexivity.
  - exact Hpost.
Defined.

(* ------------------------------------------------------------------ *)
(** ** The log accumulator: single sends, queue order, tags *)
(* ------------------------------------------------------------------ *)

Section LoggerMore.
Context `{Platform}.

Lemma log_run
    (this : Logger.LogDotLogger) (h : Logger.Heap)
    (level : LogLevel) (message : JsString) (tags : option Obj) (w : World) :
  Logger.batchMode this = false ->
  1 <= Http.maxAttempts (Http.retryConfig (Logger.http this)) ->
  let entry :=
    {| Logger.message := message; Logger.level := level;
       Logger.tags := Logger.mergeTags this h tags |} in
  let url := Http.BASE_LOGS_URL ++ Logger.ENDPOINT_SINGLE in
  let body := Logger.single_payload this entry in
  exists (b : bool) w' n,
    Logger.log this h level message tags w = (inr b, this, w') /\
    wire w' = wire w ++ repeat (Http.post_request (Logger.http this) url body) n /\
    (1 <= n)%nat /\
    Z.of_nat n <= Http.maxAttempts (Http.retryConfig (Logger.http this)) /\
    (b = true <->
     exists response,
       fst (Http.post (Logger.http this) url body w) = inr response /\
       (Http.status response = 200 \/ Http.status response = 201)).
Proof.
  intros Hmode Hmax entry url body.
  unfold Logger.log. rewrite Hmode. fold entry.
  unfold Logger.sendLog, try_catch, bind. fold url body.
  destruct (post_bounded (Logger.http this) url body w) as (n & Hwire & Hle & Hpos).
  destruct (Hpos Hmax) as [Hn Hnull].
  destruct (Http.post (Logger.http this) url body w)
    as [[error | response] w1]; cbn [fst snd] in *.
  - destruct error as [|e]; [done|]. cbn.
    destruct (debugLog_world this (lit "Failed to send log: " ++ err_message e) w1)
      as (w2 & -> & _ & Hw2).
    exists false, w2, n. rewrite Hw2.
    repeat split; try done; try lia.
    intros (response & [=] & _).
  - destruct (Logger.is_success (Http.status response)) eqn:Hok.
    + exists true, w1, n. repeat split; try done; try lia.
      intros _. exists response. split; [reflexivity|]. by apply is_success_iff.
    + destruct (debugLog_world this
                  (lit "Failed to send log. HTTP code: "
                   ++ Number_toString (inject_Z (Http.status response))) w1)
        as (w2 & -> & _ & Hw2).
      exists false, w2, n. rewrite Hw2.
      repeat split; try done; try lia.
      intros (response' & [= <-] & Hst).
      apply is_success_iff in Hst. congruence.
Qed.

(** X6.  Outside batch mode (the policy allowing at least one attempt)
    what [log] puts on the wire is one request, a POST to [/logs] with the
    bearer token whose body is [{message, severity, hostname, tags?}] for
    the entry alone, the tags being the merged ones and left out when
    there are none.  [log] changes nothing in the logger and never throws:
    it returns true exactly when the transport comes back with status 200
    or 201, and false on any other status and on a transport error. *)
Theorem log_immediate
    (this : Logger.LogDotLogger) (h : Logger.Heap)
    (level : LogLevel) (message : JsString) (tags : option Obj) (w : World) :
  Logger.batchMode this = false ->
  1 <= Http.maxAttempts (Http.retryConfig (Logger.http this)) ->
  let url := lit "https://logs.logdot.io/api/v1/logs" in
  exists fields (b : bool) w' n,
    tags_sent (Logger.mergeTags this h tags) fields /\
    let body :=
      JObj ([(lit "message", JStr message);
             (lit "severity", JStr (severity_text level));
             (lit "hostname", JStr (Logger.hostname this))]
            ++ fields) in
    Logger.log this h level message tags w = (inr b, this, w') /\
    wire w' = wire w ++ repeat (api_post (Http.apiKey (Logger.http this)) url body) n /\
    (1 <= n)%nat /\
    Z.of_nat n <= Http.maxAttempts (Http.retryConfig (Logger.http this)) /\
    (b = true <->
     exists response,
       fst (Http.post (Logger.http this) url body w) = inr response /\
       (Http.status response = 200 \/ Http.status response = 201)).
Proof.
  intros Hmode Hmax url.
  destruct (log_run this h level message tags w Hmode Hmax)
    as (b & w' & n & Hrun & Hwire & Hrest).
  set (entry := {| Logger.message := message; Logger.level := level;
                   Logger.tags := Logger.mergeTags this h tags |}) in *.
  exists (Logger.tags_field entry), b, w', n.
  split; [exact (tags_field_sent entry)|].
  unfold Logger.single_payload in Hwire, Hrest. cbn [Logger.message Logger.level entry] in *.
  rewrite level_name_text in Hwire, Hrest. rewrite post_request_api in Hwire.
  split; [exact Hrun|]. split; [exact Hwire | exact Hrest].
Qed.

Lemma mergeTags_push (this : Logger.LogDotLogger) (h : Logger.Heap) entry tags :
  Logger.mergeTags (Logger.push_entry entry this) h tags = Logger.mergeTags this h tags.
Proof. reflexivity. Qed.

Lemma log_all_batch (h : Logger.Heap) (calls : list LogCall) :
  forall (this0 this : Logger.LogDotLogger) (w : World) results,
    Logger.batchMode this = true ->
    Logger.context this = Logger.context this0 ->
    exists this',
      foldl (fun acc call =>
               let '(results, this, w) := acc in
               let '(r, this', w') :=
                 Logger.log this h (call_level call) (call_message call)
                   (call_tags call) w in
               (results ++ [r], this', w'))
            (results, this, w) calls
      = (results ++ map (fun _ => inr true) calls, this', w) /\
      Logger.batchQueue this' = Logger.batchQueue this ++ map (entry_of this0 h) calls /\
      Logger.batchMode this' = true /\
      Logger.hostname this' = Logger.hostname this /\
      Logger.http this' = Logger.http this.
Proof.
  induction calls as [|call calls IH]; intros this0 this w results Hmode Hctx.
  - exists this. cbn. by rewrite !app_nil_r.
  - cbn [foldl]. unfold Logger.log at 2. rewrite Hmode.
    set (entry := {| Logger.message := call_message call;
                     Logger.level := call_level call;
                     Logger.tags := Logger.mergeTags this h (call_tags call) |}).
    destruct (IH this0 (Logger.push_entry entry this) w (results ++ [inr true]))
      as (this' & Hrun & Hq & Hm & Hh & Hc); [exact Hmode | exact Hctx |].
    exists this'. rewrite Hrun, Hq. cbn. rewrite <- !app_assoc. cbn.
    repeat split; auto.
    do 2 f_equal. unfold entry, entry_of, Logger.mergeTags. by rewrite Hctx.
Qed.

(** X7.  In batch mode a sequence of [log] calls asks nothing of the
    network, every call returns true, and the entries are queued in the
    order of the calls, behind what was queued before.  The body of the
    request [sendBatch] then makes is [{hostname, logs}] with one
    [{message, severity, tags?}] per entry, in that order. *)
Theorem batch_queue_fifo
    (this : Logger.LogDotLogger) (h : Logger.Heap) (calls : list LogCall) (w : World) :
  Logger.batchMode this = true ->
  let queue := Logger.batchQueue this ++ map (entry_of this h) calls in
  exists this' logs,
    log_all h calls this w = (map (fun _ => inr true) calls, this', w) /\
    Logger.batchMode this' = true /\
    Logger.batchQueue this' = queue /\
    Forall2 log_sent queue logs /\
    forall w2,
      queue <> [] ->
      1 <= Http.maxAttempts (Http.retryConfig (Logger.http this)) ->
      exists n,
        (1 <= n)%nat /\
        wire (snd (Logger.sendBatch this' w2))
        = wire w2
          ++ repeat (api_post (Http.apiKey (Logger.http this))
                       (lit "https://logs.logdot.io/api/v1/logs/batch")
                       (logs_batch (Logger.hostname this) logs)) n.
Proof.
  intros Hmode queue. unfold log_all.
  destruct (log_all_batch h calls this this w [] Hmode eq_refl)
    as (this' & Hrun & Hq & Hm & Hhost & Hhttp).
  destruct (batch_payload_sent this') as (logs & Hbody & Hlogs).
  rewrite Hq in Hlogs. rewrite Hhost in Hbody.
  exists this', logs. split; [exact Hrun|]. split; [exact Hm|]. split; [exact Hq|].
  split; [exact Hlogs|].
  intros w2 Hqueue Hmax.
  destruct (sendBatch_run this' w2) as [_ Hsend].
  destruct Hsend as (b & this2 & w3 & n & Hsent & Hwire & Hn & _);
    [exact Hm | by rewrite Hq | by rewrite Hhttp |].
  exists n. split; [exact Hn|].
  rewrite Hsent. cbn [snd]. rewrite Hwire, Hbody, post_request_api, Hhttp. reflexivity.
Qed.

Lemma keys_length_zero (o : Obj) : (keys_length o =? 0) = true <-> o = ∅.
Proof.
  unfold keys_length. rewrite Z.eqb_eq. split.
  - intros Hz. apply map_size_empty_iff. lia.
  - intros ->. by rewrite map_size_empty.
Qed.

(** X8.  The tags of an entry are the context overlaid with the tags of
    the call: a key of the call's tags carries the call's value, any other
    key carries the context's; there are no tags at all exactly when the
    context is empty and the call gave none. *)
Theorem mergeTags_precedence
    (this : Logger.LogDotLogger) (h : Logger.Heap) (tags : option Obj) :
  let ctx := Logger.deref h (Logger.context this) in
  (Logger.mergeTags this h tags = None <-> ctx = ∅ /\ tags = None) /\
  (forall merged,
     Logger.mergeTags this h tags = Some merged ->
     forall k,
       merged !! k
       = match tags ≫= (fun t => t !! k) with
         | Some v => Some v
         | None => ctx !! k
         end).
Proof.
  intros ctx. unfold Logger.mergeTags. fold ctx.
  assert (Hsome : bool_decide (is_Some tags) = match tags with Some _ => true | None => false end).
  { destruct tags; [by apply bool_decide_eq_true | apply bool_decide_eq_false; by intros [? ?]]. }
  rewrite Hsome.
  destruct (keys_length ctx =? 0) eqn:Hk.
  - apply keys_length_zero in Hk.
    destruct tags as [t|]; cbn [negb andb default mbind option_bind].
    + split; [split; [discriminate | intros [_ [=]]]|].
      intros merged [= <-] k. rewrite spread_two, lookup_union.
      destruct (t !! k), (ctx !! k); reflexivity.
    + split; [done|]. intros merged [=].
  - assert (Hne : ctx <> ∅).
    { intros He. apply keys_length_zero in He. congruence. }
    cbn [negb andb]. split; [split; [discriminate | intros [? _]; done]|].
    intros merged [= <-] k. rewrite spread_two, lookup_union.
    destruct tags as [t|]; cbn -[lookup].
    + destruct (t !! k), (ctx !! k); reflexivity.
    + rewrite lookup_empty. destruct (ctx !! k); reflexivity.
Qed.

End LoggerMore.

(** An [info] sent on its own to a service that answers 201. *)
Lemma log_immediate_witness :
  fst (fst (Logger.info (H := stub_platform) example_logger example_heap (lit "up") None
              (fresh_world [Responds 201 None] []))) = inr true.
Proof.
  destruct (@log_immediate stub_platform example_logger example_heap Info (lit "up") None
              (fresh_world [Responds 201 None] []))
    as (fields & b & w' & n & Htags & Hrun & _ & _ & _ & Hiff).
  - reflexivity.
  - cbn. lia.
  - unfold Logger.info. rewrite Hrun. cbn [fst].
    f_equal. apply Hiff.
    assert (fields = []) as ->.
    { vm_compute in Htags. tauto. }
    eexists. split; [reflexivity|]. right. reflexivity.
Defined.

(** Two calls after [beginBatch] leave two entries, in order. *)
Lemma batch_queue_fifo_witness :
  map Logger.message
    (Logger.batchQueue
       (snd (fst (log_all (H := stub_platform) example_heap
                    [{| call_level := Info; call_message := lit "a"; call_tags := None |};
                     {| call_level := Warn; call_message := lit "b"; call_tags := None |}]
                    (Logger.beginBatch example_logger) (fresh_world [] [])))))
  = [lit "a"; lit "b"].
Proof.
  destruct (@batch_queue_fifo stub_platform (Logger.beginBatch example_logger) example_heap
              [{| call_level := Info; call_message := lit "a"; call_tags := None |};
               {| call_level := Warn; call_message := lit "b"; call_tags := None |}]
              (fresh_world [] []))
    as (this' & logs & Hrun & _ & Hq & _).
  - reflexivity.
  - rewrite Hrun. cbn [fst snd]. rewrite Hq. reflexivity.
Defined.

Lemma mergeTags_precedence_witness :
  let this := Logger.new_LogDotLogger example_config 1%positive in
  exists merged,
    Logger.mergeTags this tagged_heap (Some {[ lit "b" := JNum 3 ]}) = Some merged /\
    merged !! lit "b" = Some (JNum 3) /\ merged !! lit "a" = Some (JNum 1).
Proof.
  intros this.
  destruct (@mergeTags_precedence this tagged_heap (Some {[ lit "b" := JNum 3 ]}))
    as [Hnone Hkeys].
  destruct (Logger.mergeTags this tagged_heap (Some {[ lit "b" := JNum 3 ]}))
    as [merged|].
  - exists merged. split; [reflexivity|].
    split; rewrite (Hkeys merged eq_refl); reflexivity.
  - destruct (proj1 Hnone eq_refl) as [_ [=]].
Defined.

(* ------------------------------------------------------------------ *)
(** ** The bound metrics client: sending and the queue *)
(* ------------------------------------------------------------------ *)

Section MetricsMore.
Context `{Platform}.

Lemma metrics_is_success_iff (status : Z) :
  Metrics.is_success status = true <-> status = 200 \/ status = 201.
Proof. unfold Metrics.is_success. rewrite orb_true_iff, !Z.eqb_eq. tauto. Qed.

Lemma get_bounded (c : Http.HttpClient) (url : JsString) (w : World) :
  exists n,
    wire (snd (Http.get c url w)) = wire w ++ repeat (Http.get_request c url) n /\
    Z.of_nat n <= Z.max 0 (Http.maxAttempts (Http.retryConfig c)) /\
    (1 <= Http.maxAttempts (Http.retryConfig c) ->
     (1 <= n)%nat /\ fst (Http.get c url w) <> inl ThrownNull).
Proof.
  unfold Http.get, Http.executeWithRetry.
  destruct (retry_loop_bounded c _ _ (get_attempt_world c url)
              (Z.to_nat (Http.maxAttempts (Http.retryConfig c))) 0 ThrownNull w)
    as (n & Hw & Hle & Hpos & Hnull).
  exists n. split; [exact Hw|]. split; [lia|].
  intros Hmax. split; [apply Hpos; lia | apply Hnull; right; lia].
Qed.

Lemma metrics_sendBatch_run (c : Metrics.BoundMetricsClient) (w : World) :
  let url := Http.BASE_METRICS_URL ++ Metrics.ENDPOINT_BATCH in
  let body := Metrics.batch_payload c in
  let maxAttempts := Http.maxAttempts (Http.retryConfig (Metrics.http c)) in
  (Metrics.batchMode c = false \/ Metrics.batchQueue c = [] ->
   Metrics.sendBatch c w = (inr false, c, w)) /\
  (Metrics.batchMode c = true -> Metrics.batchQueue c <> [] -> 1 <= maxAttempts ->
   exists (b : bool) c' w' n,
     Metrics.sendBatch c w = (inr b, c', w') /\
     wire w' = wire w ++ repeat (Http.post_request (Metrics.http c) url body) n /\
     (1 <= n)%nat /\ Z.of_nat n <= maxAttempts /\
     (b = true <->
      exists response,
        fst (Http.post (Metrics.http c) url body w) = inr response /\
        (Http.status response = 200 \/ Http.status response = 201)) /\
     Metrics.batchQueue c' = (if b then [] else Metrics.batchQueue c) /\
     (b = true -> Metrics.lastError c' = []) /\
     Metrics.batchMode c' = true /\
     Metrics.multiBatchMode c' = Metrics.multiBatchMode c /\
     (forall response,
        fst (Http.post (Metrics.http c) url body w) = inr response ->
        Metrics.lastHttpCode c' = Http.status response) /\
     (forall e,
        fst (Http.post (Metrics.http c) url body w) = inl (ThrownError e) ->
        Metrics.lastError c' = err_message e /\
        Metrics.lastHttpCode c' = Metrics.lastHttpCode c)).
Proof.
  intros url body maxAttempts. split.
  - intros Hidle. unfold Metrics.sendBatch.
    destruct Hidle as [-> | ->]; [reflexivity | by rewrite orb_true_r].
  - intros Hmode Hqueue Hmax.
    unfold Metrics.sendBatch. rewrite Hmode.
    destruct (Metrics.batchQueue c) as [|entry queue] eqn:Hq; [done|].
    change (negb true || (Z.of_nat (length (entry :: queue)) =? 0)) with false.
    cbv iota. fold url body.
    destruct (post_bounded (Metrics.http c) url body w) as (n & Hwire & Hle & Hpos).
    destruct (Hpos Hmax) as [Hn Hnull].
    destruct (Http.post (Metrics.http c) url body w)
      as [[error | response] w1]; cbn [fst snd] in *.
    + destruct error as [|e]; [done|].
      exists false, (Metrics.set_lastError (err_message e) c), w1, n.
      split; [reflexivity|]. cbn.
      repeat split; auto; try lia; try done; try naive_solver.
    + unfold Metrics.record_response.
      destruct (Metrics.is_success (Http.status response)) eqn:Hok.
      * eexists true, _, w1, n. split; [reflexivity|]. cbn.
        apply metrics_is_success_iff in Hok.
        repeat split; auto; try lia; try done; try naive_solver.
      * eexists false, _, w1, n. split; [reflexivity|]. cbn.
        assert (Hno : ~ (Http.status response = 200 \/ Http.status response = 201))
          by (rewrite <- metrics_is_success_iff; congruence).
        repeat split; auto; try lia; try done; try naive_solver.
Qed.

Lemma metrics_send_run
    (c : Metrics.BoundMetricsClient) (name : JsString) (value : Q) (unit : JsString)
    (tags : option Metrics.Tags) (w : World) :
  Metrics.batchMode c = false ->
  1 <= Http.maxAttempts (Http.retryConfig (Metrics.http c)) ->
  let url := Http.BASE_METRICS_URL ++ Metrics.ENDPOINT_SINGLE in
  let body := Metrics.single_payload c name value unit tags in
  exists (b : bool) c' w' n,
    Metrics.send c name value unit tags w = (inr b, c', w') /\
    wire w' = wire w ++ repeat (Http.post_request (Metrics.http c) url body) n /\
    (1 <= n)%nat /\
    (b = true <->
     exists response,
       fst (Http.post (Metrics.http c) url body w) = inr response /\
       (Http.status response = 200 \/ Http.status response = 201)) /\
    (b = true -> Metrics.lastError c' = []) /\
    Metrics.batchQueue c' = Metrics.batchQueue c /\
    Metrics.batchMode c' = false /\
    Metrics.multiBatchMode c' = Metrics.multiBatchMode c /\
    (forall response,
       fst (Http.post (Metrics.http c) url body w) = inr response ->
       Metrics.lastHttpCode c' = Http.status response).
Proof.
  intros Hmode Hmax url body.
  unfold Metrics.send. rewrite Hmode. fold url body.
  destruct (post_bounded (Metrics.http c) url body w) as (n & Hwire & Hle & Hpos).
  destruct (Hpos Hmax) as [Hn Hnull].
  destruct (Http.post (Metrics.http c) url body w)
    as [[error | response] w1]; cbn [fst snd] in *.
  - destruct error as [|e]; [done|].
    exists false, (Metrics.set_lastError (err_message e) c), w1, n.
    split; [reflexivity|]. cbn.
    repeat split; auto; try lia; try done; try naive_solver.
  - unfold Metrics.record_response.
    destruct (Metrics.is_success (Http.status response)) eqn:Hok.
    + eexists true, _, w1, n. split; [reflexivity|]. cbn.
      apply metrics_is_success_iff in Hok.
      repeat split; auto; try lia; try done; try naive_solver.
    + eexists false, _, w1, n. split; [reflexivity|]. cbn.
      assert (Hno : ~ (Http.status response = 200 \/ Http.status response = 201))
        by (rewrite <- metrics_is_success_iff; congruence).
      repeat split; auto; try lia; try done; try naive_solver.
Qed.

Lemma metric_tags_field (tags : option Metrics.Tags) :
  Metrics.tags_field tags = metric_tags_sent tags.
Proof.
  unfold Metrics.tags_field, Metrics.formatTags, metric_tags_sent.
  destruct tags as [[|kv t]|]; [reflexivity | | reflexivity].
  replace (Z.of_nat (length (kv :: t)) =? 0) with false
    by (symmetry; apply Z.eqb_neq; cbn [length]; lia).
  by rewrite map_map.
Qed.

(** X9.  [sendBatch] of the bound client returns false and leaves the
    world untouched outside batch mode or with an empty queue.  Otherwise
    (the policy allowing at least one attempt) every request it makes is
    the same POST to [/metrics/batch], with the bearer token and the body
    [{entity_id, name?, metrics}]: one [{value, unit, name?, tags?}] per
    queued entry, in the order of the queue, the name at top level in
    single-metric mode and inside every entry in multi-metric mode.  It
    never throws; it returns true, with the queue emptied and the last
    error cleared, exactly when the transport comes back with 200 or 201;
    otherwise it returns false and the queue is kept.  Both batch flags
    stay as they were, and the status of a completed response is what
    [getLastHttpCode] then gives. *)
Theorem metrics_sendBatch_contract (c : Metrics.BoundMetricsClient) (w : World) :
  let url := lit "https://metrics.logdot.io/api/v1/metrics/batch" in
  let multi := Metrics.multiBatchMode c in
  let metric (entry : Metrics.MetricEntry) :=
    JObj ([(lit "value", JNum (Metrics.value entry));
           (lit "unit", JStr (Metrics.unit_ entry))]
          ++ (if multi then [(lit "name", JStr (Metrics.name entry))] else [])
          ++ metric_tags_sent (Metrics.tags entry)) in
  let body :=
    JObj ([(lit "entity_id", JStr (Metrics.entityId c));
           (lit "metrics", JArr (map metric (Metrics.batchQueue c)))]
          ++ (if multi then [] else [(lit "name", JStr (Metrics.batchMetricName c))])) in
  let maxAttempts := Http.maxAttempts (Http.retryConfig (Metrics.http c)) in
  (Metrics.batchMode c = false \/ Metrics.batchQueue c = [] ->
   Metrics.sendBatch c w = (inr false, c, w)) /\
  (Metrics.batchMode c = true -> Metrics.batchQueue c <> [] -> 1 <= maxAttempts ->
   exists (b : bool) c' w' n,
     Metrics.sendBatch c w = (inr b, c', w') /\
     wire w' = wire w ++ repeat (api_post (Http.apiKey (Metrics.http c)) url body) n /\
     (1 <= n)%nat /\ Z.of_nat n <= maxAttempts /\
     (b = true <->
      exists response,
        fst (Http.post (Metrics.http c) url body w) = inr response /\
        (Http.status response = 200 \/ Http.status response = 201)) /\
     Metrics.batchQueue c' = (if b then [] else Metrics.batchQueue c) /\
     (b = true -> Metrics.lastError c' = []) /\
     Metrics.batchMode c' = true /\
     Metrics.multiBatchMode c' = Metrics.multiBatchMode c /\
     (forall response,
        fst (Http.post (Metrics.http c) url body w) = inr response ->
        Metrics.lastHttpCode c' = Http.status response) /\
     (forall e,
        fst (Http.post (Metrics.http c) url body w) = inl (ThrownError e) ->
        Metrics.lastError c' = err_message e /\
        Metrics.lastHttpCode c' = Metrics.lastHttpCode c)).
Proof.
  intros url multi metric body maxAttempts.
  assert (Hbody : Metrics.batch_payload c = body).
  { unfold Metrics.batch_payload, body. do 6 f_equal.
    apply map_ext. intros entry. unfold Metrics.batch_metric, metric.
    by rewrite metric_tags_field. }
  pose proof (metrics_sendBatch_run c w) as Hrun.
  cbv zeta in Hrun. rewrite Hbody, post_request_api in Hrun. exact Hrun.
Qed.

(** X10.  Outside batch mode (the policy allowing at least one attempt)
    every request [send] makes is the same POST to [/metrics], with the
    bearer token and the body [{entity_id, name, value, unit, tags?}], the
    tags as one ["key:value"] string per tag and left out when there is
    none.  [send] never throws; it returns true, with the last error
    cleared, exactly when the transport comes back with 200 or 201.  The
    queue and the batch flags are untouched, and the status of a completed
    response is recorded. *)
Theorem metrics_send_contract
    (c : Metrics.BoundMetricsClient) (name : JsString) (value : Q) (unit : JsString)
    (tags : option Metrics.Tags) (w : World) :
  Metrics.batchMode c = false ->
  1 <= Http.maxAttempts (Http.retryConfig (Metrics.http c)) ->
  let url := lit "https://metrics.logdot.io/api/v1/metrics" in
  let body :=
    JObj ([(lit "entity_id", JStr (Metrics.entityId c));
           (lit "name", JStr name);
           (lit "value", JNum value);
           (lit "unit", JStr unit)]
          ++ metric_tags_sent tags) in
  exists (b : bool) c' w' n,
    Metrics.send c name value unit tags w = (inr b, c', w') /\
    wire w' = wire w ++ repeat (api_post (Http.apiKey (Metrics.http c)) url body) n /\
    (1 <= n)%nat /\
    (b = true <->
     exists response,
       fst (Http.post (Metrics.http c) url body w) = inr response /\
       (Http.status response = 200 \/ Http.status response = 201)) /\
    (b = true -> Metrics.lastError c' = []) /\
    Metrics.batchQueue c' = Metrics.batchQueue c /\
    Metrics.batchMode c' = false /\
    Metrics.multiBatchMode c' = Metrics.multiBatchMode c /\
    (forall response,
       fst (Http.post (Metrics.http c) url body w) = inr response ->
       Metrics.lastHttpCode c' = Http.status response).
Proof.
  intros Hmode Hmax url body.
  pose proof (metrics_send_run c name value unit tags w Hmode Hmax) as Hrun.
  cbv zeta in Hrun. unfold Metrics.single_payload in Hrun.
  rewrite metric_tags_field, post_request_api in Hrun. exact Hrun.
Qed.

(** X11.  The batch body names the metric once, at top level, in
    single-metric mode and in every entry in multi-metric mode, never
    both; an entry carries a [tags] key exactly when it has at least one
    tag, and then one ["key:value"] string per tag, in order. *)
Theorem batch_payload_shape (c : Metrics.BoundMetricsClient) (entry : Metrics.MetricEntry) :
  has_key (lit "name") (Metrics.batch_payload c) = negb (Metrics.multiBatchMode c) /\
  has_key (lit "name") (Metrics.batch_metric c entry) = Metrics.multiBatchMode c /\
  (Metrics.multiBatchMode c = false ->
   json_get (lit "name") (Metrics.batch_payload c)
   = Some (JStr (Metrics.batchMetricName c))) /\
  (Metrics.multiBatchMode c = true ->
   json_get (lit "name") (Metrics.batch_metric c entry)
   = Some (JStr (Metrics.name entry))) /\
  json_get (lit "tags") (Metrics.batch_metric c entry)
  = match Metrics.tags entry with
    | Some (kv :: t) =>
        Some (JArr (map (fun kv => JStr (fst kv ++ lit ":" ++ String_of (snd kv)))
                      (kv :: t)))
    | _ => None
    end.
Proof.
  unfold Metrics.batch_payload, Metrics.batch_metric, Metrics.tags_field,
    Metrics.formatTags.
  destruct (Metrics.multiBatchMode c);
    destruct (Metrics.tags entry) as [[|kv t]|];
    cbn -[lit Z.of_nat];
    repeat match goal with
           | |- context [Z.of_nat (S ?n) =? 0] =>
               replace (Z.of_nat (S n) =? 0) with false by (symmetry; apply Z.eqb_neq; lia)
           | |- context [bool_decide (lit ?a = lit ?b)] =>
               let v := eval vm_compute in (bool_decide (lit a = lit b)) in
               change (bool_decide (lit a = lit b)) with v
           | _ => progress cbn -[lit Z.of_nat]
           end;
    repeat split; try reflexivity; try discriminate;
    try (by rewrite map_map).
Qed.

(** X12.  In every state the client can be brought into: outside batch
    mode the queue is empty, and in single-metric batch mode every queued
    entry has the name and the unit given to [beginBatch], so hoisting the
    name to the top of the batch body loses nothing. *)
Theorem metrics_queue_invariant (c : Metrics.BoundMetricsClient) :
  metrics_reachable c ->
  (Metrics.batchMode c = false -> Metrics.batchQueue c = []) /\
  (in_single_batch c ->
   Forall (fun e => Metrics.name e = Metrics.batchMetricName c /\
                    Metrics.unit_ e = Metrics.batchUnit c)
          (Metrics.batchQueue c)).
Proof.
  unfold in_single_batch.
  induction 1 as [ | c name value unit tags w Hr IH | c metricName unit Hr IH
                 | c value tags Hr IH | c Hr IH
                 | c name value unit tags Hr IH | c w Hr IH | c Hr IH | c Hr IH ].
  - cbn. split; [done | intros [[=] _]].
  - pose proof (metrics_reachable_modes c Hr) as Hmodes.
    unfold Metrics.send.
    destruct (Metrics.batchMode c) eqn:Hb; [cbn; rewrite ?Hb; exact IH|].
    destruct (Http.post _ _ _ w) as [[error | response] w1]; cbn [fst snd].
    + unfold Metrics.record_failure. destruct (message_of error); cbn; rewrite ?Hb; exact IH.
    + unfold Metrics.record_response.
      destruct (Metrics.is_success _); cbn; rewrite ?Hb; exact IH.
  - cbn. split; [discriminate | intros _; constructor].
  - unfold Metrics.add.
    destruct (Metrics.batchMode c) eqn:Hb, (Metrics.multiBatchMode c) eqn:Hm;
      cbn; rewrite ?Hb, ?Hm; try exact IH.
    split; [discriminate|]. intros _.
    apply Forall_app. split; [apply IH; auto | by repeat constructor].
  - cbn. split; [discriminate | intros [_ [=]]].
  - pose proof (metrics_reachable_modes c Hr) as Hmodes.
    unfold Metrics.addMetric.
    destruct (Metrics.multiBatchMode c) eqn:Hm; cbn; rewrite ?Hm; [|exact IH].
    rewrite (Hmodes eq_refl). split; [discriminate | intros [_ [=]]].
  - unfold Metrics.sendBatch.
    destruct (Metrics.batchMode c) eqn:Hb; cbn [negb orb]; [|cbn; rewrite ?Hb; exact IH].
    destruct (Z.of_nat (length (Metrics.batchQueue c)) =? 0); [cbn; rewrite ?Hb; exact IH|].
    destruct (Http.post _ _ _ w) as [[error | response] w1]; cbn [fst snd].
    + unfold Metrics.record_failure. destruct (message_of error); cbn; rewrite ?Hb; exact IH.
    + unfold Metrics.record_response.
      destruct (Metrics.is_success _); cbn; rewrite ?Hb; [|exact IH].
      split; [discriminate | intros _; constructor].
  - cbn. split; [done | intros [[=] _]].
  - cbn. split; [done | intros _; constructor].
Qed.

End MetricsMore.

(** The batch of two values against a service that answers 500: refused,
    and both values are still queued. *)
Lemma metrics_sendBatch_contract_witness :
  let run := Metrics.sendBatch (H := stub_platform) example_single_batch
               (fresh_world [Responds 500 None] []) in
  fst (fst run) = inr false /\
  Metrics.getBatchSize (snd (fst run)) = 2 /\
  Metrics.getLastHttpCode (snd (fst run)) = 500.
Proof.
  intros run.
  destruct (@metrics_sendBatch_contract stub_platform example_single_batch
              (fresh_world [Responds 500 None] [])) as (_ & Hsend).
  destruct Hsend
    as (b & c' & w' & n & Hrun & _ & _ & _ & Hiff & Hq & _ & _ & _ & Hcode & _).
  - reflexivity.
  - discriminate.
  - cbn. lia.
  - assert (Hb : b = false).
    { destruct b; [|reflexivity].
      destruct (proj1 Hiff eq_refl) as (response & Hpost & Hst).
      vm_compute in Hpost. injection Hpost as <-.
      destruct Hst as [Hst | Hst]; discriminate Hst. }
    subst b. unfold run. rewrite Hrun. cbn [fst snd].
    split; [reflexivity|].
    unfold Metrics.getBatchSize, Metrics.getLastHttpCode. rewrite Hq.
    split; [reflexivity|]. by rewrite (Hcode _ eq_refl).
Defined.

(** One metric sent on its own to a service that answers 200. *)
Lemma metrics_send_contract_witness :
  fst (fst (Metrics.send (H := stub_platform) example_bound (lit "cpu") 1%Q (lit "percent")
              None (fresh_world [Responds 200 None] []))) = inr true.
Proof.
  destruct (@metrics_send_contract stub_platform example_bound (lit "cpu") 1%Q
              (lit "percent") None (fresh_world [Responds 200 None] []))
    as (b & c' & w' & n & Hrun & _ & _ & Hiff & _).
  - reflexivity.
  - cbn. lia.
  - rewrite Hrun. cbn [fst]. f_equal. apply Hiff.
    eexists. split; [reflexivity|]. left. reflexivity.
Defined.

(** In the single-metric batch of the example, the body carries the name
    ["cpu"] once and its entries carry none. *)
Lemma batch_payload_shape_witness :
  json_get (lit "name") (Metrics.batch_payload (H := stub_platform) example_single_batch)
  = Some (JStr (lit "cpu")).
Proof.
  destruct (@batch_payload_shape stub_platform example_single_batch
              {| Metrics.name := []; Metrics.value := 0%Q; Metrics.unit_ := [];
                 Metrics.tags := None |})
    as (_ & _ & Hname & _).
  apply Hname. reflexivity.
Defined.

(** Both queued values of the example batch are named ["cpu"]. *)
Lemma metrics_queue_invariant_witness :
  Forall (fun e => Metrics.name e = lit "cpu" /\ Metrics.unit_ e = lit "percent")
    (Metrics.batchQueue example_single_batch).
Proof.
  destruct (@metrics_queue_invariant stub_platform example_single_batch) as [_ Hsingle].
  - unfold example_single_batch, example_bound, Metrics.forEntity.
    do 2 apply reach_add. apply reach_beginBatch. apply reach_new.
  - apply Hsingle. split; reflexivity.
Defined.

(* ------------------------------------------------------------------ *)
(** ** The metrics manager: creating and finding entities *)
(* ------------------------------------------------------------------ *)

Section EntityMore.
Context `{Platform}.

Lemma m_debugLog_world (this : Metrics.LogDotMetrics) (message : JsString) (w : World) :
  fst (Metrics.m_debugLog this message w) = inr tt /\
  network (snd (Metrics.m_debugLog this message w)) = network w /\
  wire (snd (Metrics.m_debugLog this message w)) = wire w.
Proof. unfold Metrics.m_debugLog. by destruct (Metrics.m_debugEnabled this). Qed.


(** What [createEntity] does to the wire and to the transport it holds. *)
Lemma createEntity_run (this : Metrics.LogDotMetrics)
    (options : Metrics.CreateEntityOptions) (w : World) :
  1 <= Http.maxAttempts (Http.retryConfig (Metrics.m_http this)) ->
  exists r this' w' n,
    Metrics.createEntity this options w = (inr r, this', w') /\
    wire w' = wire w
              ++ repeat (Http.post_request (Metrics.m_http this)
                           (Http.BASE_METRICS_URL ++ Metrics.ENDPOINT_ENTITIES)
                           (Metrics.create_payload options)) n /\
    (1 <= n)%nat /\
    Metrics.m_http this' = Metrics.m_http this.
Proof.
  intros Hmax. unfold Metrics.createEntity.
  destruct (post_bounded (Metrics.m_http this)
              (Http.BASE_METRICS_URL ++ Metrics.ENDPOINT_ENTITIES)
              (Metrics.create_payload options) w) as (n & Hwire & _ & Hpos).
  destruct (Hpos Hmax) as [Hn Hnull].
  destruct (Http.post _ _ _ w) as [[error | response] w1]; cbn [fst snd] in *.
  - destruct error as [|e]; [done|]. cbn. by eexists _, _, _, n.
  - destruct (if Metrics.is_success _ then _ else _) as [id|].
    + match goal with
      | |- context [Metrics.m_debugLog ?t ?m w1] =>
          destruct (m_debugLog_world t m w1) as (_ & _ & Hw2);
          destruct (Metrics.m_debugLog t m w1) as [u w2]
      end.
      cbn [snd] in Hw2. eexists _, _, w2, n. by rewrite Hw2.
    + by eexists _, _, w1, n.
Qed.

(** What [getEntityByName] does to the wire and to the transport it holds. *)
Lemma getEntityByName_run (this : Metrics.LogDotMetrics) (name : JsString) (w : World) :
  1 <= Http.maxAttempts (Http.retryConfig (Metrics.m_http this)) ->
  exists r this' w' n,
    Metrics.getEntityByName this name w = (inr r, this', w') /\
    wire w' = wire w
              ++ repeat (Http.get_request (Metrics.m_http this)
                           (Http.BASE_METRICS_URL ++ Metrics.ENDPOINT_ENTITIES_BY_NAME
                            ++ lit "/" ++ encodeURIComponent name)) n /\
    (1 <= n)%nat /\
    Metrics.m_http this' = Metrics.m_http this.
Proof.
  intros Hmax. unfold Metrics.getEntityByName.
  destruct (get_bounded (Metrics.m_http this)
              (Http.BASE_METRICS_URL ++ Metrics.ENDPOINT_ENTITIES_BY_NAME
               ++ lit "/" ++ encodeURIComponent name) w) as (n & Hwire & _ & Hpos).
  destruct (Hpos Hmax) as [Hn Hnull].
  destruct (Http.get _ _ w) as [[error | response] w1]; cbn [fst snd] in *.
  - destruct error as [|e]; [done|]. cbn. by eexists _, _, _, n.
  - destruct (if Http.status response =? 200 then _ else _) as [id|].
    + match goal with
      | |- context [Metrics.m_debugLog ?t ?m w1] =>
          destruct (m_debugLog_world t m w1) as (_ & _ & Hw2);
          destruct (Metrics.m_debugLog t m w1) as [u w2]
      end.
      cbn [snd] in Hw2. eexists _, _, w2, n. by rewrite Hw2.
    + by eexists _, _, w1, n.
Qed.


Lemma get_request_api (c : Http.HttpClient) (url : JsString) :
  Http.get_request c url = api_get (Http.apiKey c) url.
Proof. reflexivity. Qed.

(** X14.  Every request [getEntityByName] makes (the policy allowing at
    least one attempt) is the same GET of [/entities/by-name/<name>], the
    name URL-encoded, with the bearer token.  It never throws and finds an
    entity exactly when the transport comes back with status 200 (a 201
    does not count) and a body whose [data.id] is truthy.  The entity
    carries that id, the [data.name] of the body when there is one and it
    is truthy and the name asked for otherwise, and the [data.description]
    of the body. *)
Theorem getEntityByName_contract (this : Metrics.LogDotMetrics) (name : JsString)
    (w : World) :
  let url := lit "https://metrics.logdot.io/api/v1/entities/by-name/"
             ++ encodeURIComponent name in
  let got := fst (Http.get (Metrics.m_http this) url w) in
  let field (key : JsString) (response : Http.HttpResponse) : option Json :=
    body ← Http.data response; inner ← json_get (lit "data") body; json_get key inner in
  1 <= Http.maxAttempts (Http.retryConfig (Metrics.m_http this)) ->
  exists r this' w' n,
    Metrics.getEntityByName this name w = (inr r, this', w') /\
    wire w' = wire w ++ repeat (api_get (Http.apiKey (Metrics.m_http this)) url) n /\
    (1 <= n)%nat /\
    (is_Some r <->
     exists response id,
       got = inr response /\ Http.status response = 200 /\
       field (lit "id") response = Some id /\ truthy id = true) /\
    (forall entity, r = Some entity ->
       (exists response,
          got = inr response /\
          field (lit "id") response = Some (Metrics.entity_id entity) /\
          Metrics.entity_name entity
          = match field (lit "name") response with
            | Some found => if truthy found then found else JStr name
            | None => JStr name
            end /\
          Metrics.entity_description entity = field (lit "description") response) /\
       Metrics.m_lastError this' = []) /\
    (forall response, got = inr response ->
       Metrics.m_lastHttpCode this' = Http.status response) /\
    (forall e, got = inl (ThrownError e) ->
       r = None /\ Metrics.m_lastError this' = err_message e /\
       Metrics.m_lastHttpCode this' = Metrics.m_lastHttpCode this).
Proof.
  intros url got field Hmax.
  assert (Hfield : forall key response,
             Metrics.response_field key response = field key response).
  { intros key response. unfold Metrics.response_field, field.
    destruct (Http.data response) as [body|]; [|reflexivity]. cbn.
    by destruct (json_get (lit "data") body). }
  assert (Hid : forall response id,
             Metrics.response_id response = Some id
             <-> field (lit "id") response = Some id /\ truthy id = true).
  { intros response id. unfold Metrics.response_id. rewrite Hfield.
    destruct (field (lit "id") response) as [found|];
      [|split; [discriminate | intros [[=] _]]].
    destruct (truthy found) eqn:Ht; split.
    - by intros [= <-].
    - by intros [[= <-] _].
    - discriminate.
    - intros [[= <-] Hc]. congruence. }
  destruct (getEntityByName_run this name w Hmax) as (r0 & this0 & w0 & n & Hrun & Hwire & Hn & _).
  change (Http.BASE_METRICS_URL ++ Metrics.ENDPOINT_ENTITIES_BY_NAME ++ lit "/"
          ++ encodeURIComponent name) with url in Hwire.
  rewrite get_request_api in Hwire.
  exists r0, this0, w0, n. split; [exact Hrun|]. split; [exact Hwire|]. split; [exact Hn|].
  revert Hrun. clear Hwire Hn.
  unfold Metrics.getEntityByName. subst got.
  change (Http.BASE_METRICS_URL ++ Metrics.ENDPOINT_ENTITIES_BY_NAME ++ lit "/"
          ++ encodeURIComponent name) with url.
  destruct (get_bounded (Metrics.m_http this) url w) as (k & _ & _ & Hpos).
  destruct (Hpos Hmax) as [_ Hnull].
  destruct (Http.get _ _ w) as [[error | response] w1]; cbn [fst snd] in *.
  - destruct error as [|e]; [done|]. cbn. intros [= <- <- <-]. cbn.
    split; [split; [by intros [? [=]] | by intros (? & ? & [=] & _)]|].
    split; [done|]. split; [done|]. by intros ? [= <-].
  - destruct (Http.status response =? 200) eqn:Hok.
    + destruct (Metrics.response_id response) as [id|] eqn:Hrid.
      * destruct (Metrics.m_debugLog _ _ w1) as [u w2]. cbn.
        intros [= <- <- <-]. cbn.
        apply Z.eqb_eq in Hok. apply Hid in Hrid as [Hf Ht].
        split; [split; [intros _; by exists response, id | by eexists]|].
        split; [|by split; [intros ? [= <-]|]].
        intros entity [= <-]. cbn. split; [|done].
        exists response. by rewrite <- !Hfield in *; rewrite ?Hf.
      * cbn. intros [= <- <- <-]. cbn.
        split; [split; [by intros [? [=]]
                       | intros (? & id & [= <-] & _ & Hf & Ht);
                         assert (Metrics.response_id response = Some id) by (by apply Hid);
                         congruence]|].
        split; [done|]. by split; [intros ? [= <-]|].
    + cbn. intros [= <- <- <-]. cbn.
      apply Z.eqb_neq in Hok.
      split; [split; [by intros [? [=]] | intros (? & ? & [= <-] & Hst & _); tauto]|].
      split; [done|]. by split; [intros ? [= <-]|].
Qed.

(** X15.  [getOrCreateEntity] looks the name up first and creates only
    when the lookup gave nothing: its requests are the lookup's GETs
    followed by the creation's POSTs, and when the lookup finds an entity
    that entity is returned and nothing is posted. *)
Theorem getOrCreateEntity_lookup_first (this : Metrics.LogDotMetrics)
    (options : Metrics.CreateEntityOptions) (w : World) :
  let http := Metrics.m_http this in
  let lookup :=
    Http.get_request http
      (Http.BASE_METRICS_URL ++ Metrics.ENDPOINT_ENTITIES_BY_NAME ++ lit "/"
       ++ encodeURIComponent (Metrics.opt_name options)) in
  let creation :=
    Http.post_request http (Http.BASE_METRICS_URL ++ Metrics.ENDPOINT_ENTITIES)
      (Metrics.create_payload options) in
  let found := fst (fst (Metrics.getEntityByName this (Metrics.opt_name options) w)) in
  1 <= Http.maxAttempts (Http.retryConfig http) ->
  exists r this' w' n m,
    Metrics.getOrCreateEntity this options w = (inr r, this', w') /\
    wire w' = wire w ++ repeat lookup n ++ repeat creation m /\
    (1 <= n)%nat /\
    (forall existing, found = inr (Some existing) -> r = Some existing /\ m = 0%nat) /\
    (found = inr None -> (1 <= m)%nat).
Proof.
  intros http lookup creation found Hmax. subst found.
  unfold Metrics.getOrCreateEntity.
  destruct (getEntityByName_run this (Metrics.opt_name options) w Hmax)
    as (r1 & this1 & w1 & n & -> & Hw1 & Hn & Hhttp).
  cbn [fst snd]. destruct r1 as [existing|].
  - exists (Some existing), this1, w1, n, 0%nat. cbn. rewrite app_nil_r.
    split; [done|]. split; [exact Hw1|]. split; [done|].
    split; [by intros ? [= <-] | done].
  - destruct (createEntity_run this1 options w1) as (r & this2 & w2 & m & -> & Hw2 & Hm & _);
      [by rewrite Hhttp|].
    exists r, this2, w2, n, m. rewrite Hw2, Hw1, Hhttp, <- app_assoc.
    split; [done|]. split; [done|]. split; [done|]. split; [done|]. done.
Qed.

(** X29.  Every request [createEntity] makes (the policy allowing at
    least one attempt) is the same POST to [/entities], with the bearer
    token and the body [{name, description?, metadata?}]: the description
    is left out when there is none and when it is the empty string, the
    metadata when there is none and when it has no key. *)
Theorem createEntity_request (this : Metrics.LogDotMetrics)
    (options : Metrics.CreateEntityOptions) (w : World) :
  let url := lit "https://metrics.logdot.io/api/v1/entities" in
  let description :=
    match Metrics.opt_description options with
    | Some d => if bool_decide (d = []) then [] else [(lit "description", JStr d)]
    | None => []
    end in
  1 <= Http.maxAttempts (Http.retryConfig (Metrics.m_http this)) ->
  exists metadata n,
    match Metrics.opt_metadata options with
    | Some m =>
        (m = ∅ /\ metadata = []) \/
        (m <> ∅ /\ exists j, metadata = [(lit "metadata", j)] /\ object_of m j)
    | None => metadata = []
    end /\
    wire (snd (Metrics.createEntity this options w))
    = wire w
      ++ repeat (api_post (Http.apiKey (Metrics.m_http this)) url
                   (JObj ([(lit "name", JStr (Metrics.opt_name options))]
                          ++ description ++ metadata))) n /\
    (1 <= n)%nat.
Proof.
  intros url description Hmax.
  destruct (createEntity_run this options w Hmax) as (r & this' & w' & n & Hrun & Hwire & Hn & _).
  rewrite post_request_api in Hwire. rewrite Hrun. cbn [snd].
  eexists _, n. split; [|split; [exact Hwire | exact Hn]].
  destruct (Metrics.opt_metadata options) as [m|]; [|reflexivity].
  unfold keys_length.
  destruct (Z.ltb_spec 0 (Z.of_nat (size m))) as [Hpos | Hzero].
  - right. split.
    + intros ->. rewrite map_size_empty in Hpos. lia.
    + eexists. split; [reflexivity | apply json_of_obj_object].
  - left. split; [|reflexivity]. apply map_size_empty_iff. lia.
Qed.

End EntityMore.

(* ------------------------------------------------------------------ *)
(** ** The console capture: buffer, shutdown and silence *)
(* ------------------------------------------------------------------ *)

Section CaptureMore.
Context `{Platform}.

Lemma flush_wellformed (p : Capture.Process) :
  let c := Capture.this p in
  (Capture.flushing c = true -> Capture.buffer c = []) ->
  Http.debugEnabled (Capture.http c) = false ->
  Http.maxAttempts (Http.retryConfig (Capture.http c)) = 3 ->
  Z.of_nat (length (Capture.buffer c)) < Z.max 1 (Capture.maxBufferSize c) \/
  Capture.flushing c = false /\ Capture.buffer c <> [] ->
  capture_wellformed (Capture.flush p).
Proof.
  intros c Hguard Hquiet Hmax Hcases. subst c.
  unfold capture_wellformed, Capture.flush.
  destruct (Capture.buffer (Capture.this p)) as [|l logs] eqn:Hb.
  - rewrite (eq_refl : (Z.of_nat (@length Capture.BufferedLog []) =? 0) = true).
    cbn. rewrite Hb. cbn. repeat split; auto; lia.
  - destruct (Capture.flushing (Capture.this p)) eqn:Hf; [by specialize (Hguard eq_refl)|].
    replace (Z.of_nat (length (l :: logs)) =? 0) with false by reflexivity.
    cbn. repeat split; auto; lia.
Qed.

Lemma capture_reachable_wellformed (p : Capture.Process) :
  capture_reachable p -> capture_wellformed p.
Proof.
  induction 1 as [config | p method args _ IH | p _ IH | p w _ IH | p _ IH].
  - unfold capture_wellformed. cbn. repeat split; auto; try discriminate; lia.
  - destruct IH as (Hguard & Hlen & Hquiet & Hmax).
    unfold Capture.console_call.
    destruct (negb (Capture.patched p)); [by repeat split|].
    destruct (Capture.flushing (Capture.this p)) eqn:Hf;
      [unfold capture_wellformed; cbn; rewrite Hf; by repeat split|].
    match goal with
    | |- capture_wellformed (if ?b then _ else _) => destruct b eqn:Hfull
    end.
    + apply flush_wellformed; cbn; auto; try discriminate.
      right. split; [reflexivity|]. by destruct (Capture.buffer (Capture.this p)).
    + cbn in Hfull. apply Z.leb_gt in Hfull.
      unfold capture_wellformed. cbn. repeat split; auto; try discriminate; lia.
  - destruct IH as (Hguard & Hlen & Hquiet & Hmax).
    unfold Capture.timer_tick.
    destruct (Capture.flushTimer _); [apply flush_wellformed; auto | by repeat split].
  - destruct IH as (Hguard & Hlen & Hquiet & Hmax).
    unfold Capture.settle.
    destruct (Capture.in_flight p); [|by repeat split].
    destruct (Http.post _ _ _ w) as [r w']. unfold capture_wellformed. cbn.
    repeat split; auto; discriminate.
  - destruct IH as (Hguard & Hlen & Hquiet & Hmax).
    unfold Capture.shutdown, Capture.restore.
    match goal with
    | |- capture_wellformed {| Capture.this := Capture.this (Capture.flush ?q) |} =>
        assert (Hq : capture_wellformed (Capture.flush q))
          by (apply flush_wellformed; cbn; auto)
    end.
    exact Hq.
Qed.

(** X16.  In every state the capture goes through, the buffer holds fewer
    entries than [maxBufferSize] (none, when the limit is below one), and
    it is empty while the POST of a flush is in flight. *)
Theorem capture_buffer_bounded (p : Capture.Process) :
  capture_reachable p ->
  let c := Capture.this p in
  Z.of_nat (length (Capture.buffer c)) < Z.max 1 (Capture.maxBufferSize c) /\
  (is_Some (Capture.in_flight p) -> Capture.buffer c = []).
Proof.
  intros Hr c.
  destruct (capture_reachable_wellformed p Hr) as (Hguard & Hlen & _).
  split; [exact Hlen|].
  intros Hin. apply Hguard. by apply (capture_reachable_coherent p Hr).
Qed.

Lemma shutdown_run (p : Capture.Process) :
  capture_reachable p ->
  let q := Capture.shutdown p in
  Capture.buffer (Capture.this q) = [] /\
  Capture.flushTimer (Capture.this q) = false /\
  Capture.patched q = false /\
  (Capture.buffer (Capture.this p) <> [] ->
   Capture.in_flight q
   = Some (Capture.flush_payload (Capture.this p) (Capture.buffer (Capture.this p)))) /\
  (forall method args,
     Capture.console_call method args q
     = {| Capture.this := Capture.this q;
          Capture.terminal := Capture.terminal q ++ [(method, args)];
          Capture.patched := false;
          Capture.in_flight := Capture.in_flight q |}) /\
  Capture.timer_tick q = q /\
  Capture.shutdown q = q.
Proof.
  intros Hr q. subst q.
  destruct (capture_reachable_wellformed p Hr) as (Hguard & _).
  unfold Capture.shutdown, Capture.restore, Capture.timer_tick, Capture.console_call,
    Capture.flush.
  cbn -[Capture.flush_payload].
  destruct (Capture.buffer (Capture.this p)) as [|l logs] eqn:Hb.
  - repeat first
      [ rewrite (eq_refl : (Z.of_nat (@length Capture.BufferedLog []) =? 0) = true)
      | progress cbn -[Capture.flush_payload Z.of_nat length] ].
    by repeat split.
  - destruct (Capture.flushing (Capture.this p)) eqn:Hf; [by specialize (Hguard eq_refl)|].
    replace (Z.of_nat (length (l :: logs)) =? 0) with false by reflexivity.
    repeat first
      [ rewrite (eq_refl : (Z.of_nat (@length Capture.BufferedLog []) =? 0) = true)
      | progress cbn -[Capture.flush_payload Z.of_nat length] ].
    by repeat split.
Qed.

Lemma flush_payload_sent (c : Capture.ConsoleCapture) (logs : list Capture.BufferedLog) :
  Capture.flush_payload c logs
  = logs_batch (Capture.hostname c) (map console_log_sent logs).
Proof.
  unfold Capture.flush_payload, logs_batch. do 4 f_equal.
Qed.

(** X17.  [shutdown] leaves nothing behind: afterwards the buffer is
    empty, the timer is off and the console is restored, and the body of
    the POST that was started is [{hostname, logs}] with one
    [{message, severity, tags}] for each entry that was buffered, in the
    order of the buffer.  From then on a console call only reaches the
    original console, a timer tick does nothing, and a second [shutdown]
    changes nothing. *)
Theorem shutdown_final (p : Capture.Process) :
  capture_reachable p ->
  let q := Capture.shutdown p in
  Capture.buffer (Capture.this q) = [] /\
  Capture.flushTimer (Capture.this q) = false /\
  Capture.patched q = false /\
  (Capture.buffer (Capture.this p) <> [] ->
   Capture.in_flight q
   = Some (logs_batch (Capture.hostname (Capture.this p))
             (map console_log_sent (Capture.buffer (Capture.this p))))) /\
  (forall method args,
     Capture.console_call method args q
     = {| Capture.this := Capture.this q;
          Capture.terminal := Capture.terminal q ++ [(method, args)];
          Capture.patched := false;
          Capture.in_flight := Capture.in_flight q |}) /\
  Capture.timer_tick q = q /\
  Capture.shutdown q = q.
Proof.
  intros Hr q. pose proof (shutdown_run p Hr) as Hrun. cbv zeta in Hrun.
  rewrite flush_payload_sent in Hrun. exact Hrun.
Qed.

(** X18.  The POST of a flush never writes to the console, so it cannot
    feed the capture it belongs to, and it costs at most three requests,
    all of them the same POST to [/logs/batch], with the bearer token and
    the body that the flush built. *)
Theorem capture_post_silent (p : Capture.Process) (w : World) :
  capture_reachable p ->
  let w' := snd (Capture.settle p w) in
  console w' = console w /\
  forall payload, Capture.in_flight p = Some payload ->
    exists n,
      wire w' = wire w
                ++ repeat (api_post (Http.apiKey (Capture.http (Capture.this p)))
                             (lit "https://logs.logdot.io/api/v1/logs/batch")
                             payload) n /\
      (1 <= n <= 3)%nat.
Proof.
  intros Hr.
  destruct (capture_reachable_wellformed p Hr) as (_ & _ & Hquiet & Hmax).
  unfold Capture.settle.
  destruct (Capture.in_flight p) as [payload|]; [|by split].
  pose proof (retry_loop_silent (Capture.http (Capture.this p)) _ _
                (post_attempt_world (Capture.http (Capture.this p))
                   (Http.BASE_LOGS_URL ++ lit "/logs/batch") payload)
                (post_attempt_keeps (Capture.http (Capture.this p))
                   (Http.BASE_LOGS_URL ++ lit "/logs/batch") payload)
                (Z.to_nat (Http.maxAttempts
                             (Http.retryConfig (Capture.http (Capture.this p)))))
                Hquiet 0 ThrownNull w) as Hsilent.
  destruct (post_bounded (Capture.http (Capture.this p))
              (Http.BASE_LOGS_URL ++ lit "/logs/batch") payload w)
    as (n & Hwire & Hle & Hpos).
  change (Http.retry_loop _ _ _ 0 ThrownNull w)
    with (Http.post (Capture.http (Capture.this p))
            (Http.BASE_LOGS_URL ++ lit "/logs/batch") payload w) in Hsilent.
  destruct (Http.post _ _ _ w) as [r w1]. cbn [fst snd] in *.
  split; [exact Hsilent|].
  intros ? [= <-]. exists n. rewrite post_request_api in Hwire. split; [exact Hwire|].
  destruct Hpos as [Hn _]; lia.
Qed.

End CaptureMore.

(* ------------------------------------------------------------------ *)
(** ** The metric exporter: what is sent, and when *)
(* ------------------------------------------------------------------ *)

Section ExporterMore.
Context `{Platform}.

(** A rounded result carries the sign it was given, unless it is NaN. *)
Lemma binary_round_aux_sign (s : bool) (m e : Z) (l : location) :
  match binary_round_aux Double.prec Double.emax s m e l with
  | S754_zero s' | S754_infinity s' | S754_finite s' _ _ => s' = s
  | S754_nan => True
  end.
Proof.
  unfold binary_round_aux.
  destruct (shr_fexp _ _ m e l) as [mrs1 e1].
  destruct (shr_fexp _ _ _ e1 loc_Exact) as [mrs2 e2].
  destruct (shr_m mrs2); [reflexivity | by destruct (_ <=? _) | exact I].
Qed.

Lemma not_negative_iff (x : Double.t) :
  Double.ltb x (Double.of_Z 0) = false <->
  match x with
  | S754_infinity s | S754_finite s _ _ => s = false
  | S754_zero _ | S754_nan => True
  end.
Proof. destruct x as [s | [] | | [] m e]; cbn; split; (done || discriminate). Qed.

Lemma rounded_not_negative (m e : Z) (l : location) :
  Double.ltb (binary_round_aux Double.prec Double.emax false m e l) (Double.of_Z 0) = false.
Proof.
  apply not_negative_iff.
  pose proof (binary_round_aux_sign false m e l) as Hsign.
  by destruct (binary_round_aux _ _ _ _ _ _).
Qed.

Lemma of_Z_not_negative (z : Z) :
  0 <= z -> Double.ltb (Double.of_Z z) (Double.of_Z 0) = false.
Proof.
  intros Hz. destruct z as [|p|p]; [reflexivity | | lia].
  unfold Double.of_Z at 1, binary_normalize, binary_round.
  destruct (shl_align _ _ _) as [mz ez]. apply rounded_not_negative.
Qed.

(** Multiplying and dividing by a positive number, and [Math.round],
    never turn a number that is not below 0 into one that is. *)
Lemma mul_not_negative (x : Double.t) (m : positive) (e : Z) :
  Double.ltb x (Double.of_Z 0) = false ->
  Double.ltb (Double.mul x (S754_finite false m e)) (Double.of_Z 0) = false.
Proof.
  intros Hx. apply not_negative_iff in Hx.
  destruct x as [s | s | | s mx ex]; cbn in Hx; subst; try reflexivity.
  apply rounded_not_negative.
Qed.

Lemma div_not_negative (x : Double.t) (m : positive) (e : Z) :
  Double.ltb x (Double.of_Z 0) = false ->
  Double.ltb (Double.div x (S754_finite false m e)) (Double.of_Z 0) = false.
Proof.
  intros Hx. apply not_negative_iff in Hx.
  destruct x as [s | s | | s mx ex]; cbn in Hx; subst; try reflexivity.
  unfold Double.div, SFdiv.
  destruct (SFdiv_core_binary _ _ _ _ _ _) as [[mz ez] lz].
  apply rounded_not_negative.
Qed.

Lemma round_not_negative (x : Double.t) :
  Double.ltb x (Double.of_Z 0) = false ->
  Double.ltb (Double.round x) (Double.of_Z 0) = false.
Proof.
  intros Hx. pose proof Hx as Hsign. apply not_negative_iff in Hsign.
  destruct x as [s | s | | s m e]; try exact Hx.
  cbn in Hsign. subst s. unfold Double.round.
  destruct (Z.leb_spec 0 e) as [|He]; [exact Hx|].
  destruct (_ =? 0); [reflexivity|].
  apply of_Z_not_negative. apply Z.div_pos; [|apply Z.pow_pos_nonneg; lia].
  assert (0 <= 2 ^ (- e)) by (apply Z.pow_nonneg; lia). lia.
Qed.

Lemma at_least_zero_not_negative (x : Double.t) :
  Double.leb (Double.of_Z 0) x = true -> Double.ltb x (Double.of_Z 0) = false.
Proof. destruct x as [s | [] | | [] m e]; cbn; (done || discriminate). Qed.

Lemma above_zero_not_negative (x : Double.t) :
  Double.ltb (Double.of_Z 0) x = true -> Double.ltb x (Double.of_Z 0) = false.
Proof. destruct x as [s | [] | | [] m e]; cbn; (done || discriminate). Qed.

Lemma convert_number_point_acceptable (baseName unit : JsString) (point : Exporter.DataPoint) :
  unit <> [] ->
  Forall (fun p => Double.ltb (Exporter.value p) (Double.of_Z 0) = false /\
                   Exporter.unit_ p <> [])
         (Exporter.convert_number_point baseName unit point).
Proof.
  intros Hunit. unfold Exporter.convert_number_point.
  destruct (Double.ltb _ (Double.of_Z 0)) eqn:Hlt; [constructor|].
  by repeat constructor.
Qed.

Lemma convert_histogram_point_acceptable (baseName unit : JsString)
    (point : Exporter.DataPoint) :
  unit <> [] ->
  Forall (fun p => Double.ltb (Exporter.value p) (Double.of_Z 0) = false /\
                   Exporter.unit_ p <> [])
         (Exporter.convert_histogram_point baseName unit point).
Proof.
  intros Hunit. unfold Exporter.convert_histogram_point, Exporter.Math_round.
  destruct (Exporter.as_histogram _) as [sum count min max].
  cbn [Exporter.h_count Exporter.h_sum Exporter.h_min Exporter.h_max].
  repeat apply Forall_app_2.
  - destruct count as [count|]; [|constructor].
    destruct (Double.ltb (Double.of_Z 0) count) eqn:Hpos; [|constructor].
    constructor; [split; [by apply above_zero_not_negative | discriminate]|].
    destruct sum as [sum|]; [|constructor].
    destruct (Double.leb (Double.of_Z 0) (Double.div sum count)) eqn:Havg; [|constructor].
    constructor; [|constructor]. split; [|exact Hunit]. cbn [Exporter.value].
    apply (div_not_negative _ 7036874417766400 (-46)), round_not_negative,
      (mul_not_negative _ 7036874417766400 (-46)), at_least_zero_not_negative, Havg.
  - destruct min as [min|]; [|constructor].
    destruct (Double.leb (Double.of_Z 0) min) eqn:Hle; [|constructor].
    constructor; [|constructor]. split; [by apply at_least_zero_not_negative | exact Hunit].
  - destruct max as [max|]; [|constructor].
    destruct (Double.leb (Double.of_Z 0) max) eqn:Hle; [|constructor].
    constructor; [|constructor]. split; [by apply at_least_zero_not_negative | exact Hunit].
Qed.

(** X19.  Whatever the metric data, every entry the exporter derives from
    it has a value that is not negative and a unit that is not empty:
    negative gauge and sum points are skipped, and an empty unit becomes
    ["1"]. *)
Theorem convertMetricData_acceptable (metricData : Exporter.MetricData) :
  Forall (fun p => Double.ltb (Exporter.value p) (Double.of_Z 0) = false /\
                   Exporter.unit_ p <> [])
         (Exporter.convertMetricData metricData).
Proof.
  unfold Exporter.convertMetricData.
  set (unit := if bool_decide _ then _ else _).
  assert (Hunit : unit <> []).
  { subst unit. destruct (bool_decide_reflect (Exporter.descriptor_unit metricData = []));
      [discriminate | done]. }
  destruct (Exporter.dataPointType metricData); try constructor;
    apply Forall_flat_map, Forall_forall; intros point _;
    auto using convert_number_point_acceptable, convert_histogram_point_acceptable.
Qed.

Lemma exporter_is_success_iff (status : Z) :
  Exporter.is_success status = true <-> status = 200 \/ status = 201.
Proof. unfold Exporter.is_success. rewrite orb_true_iff, !Z.eqb_eq. tauto. Qed.

Lemma resolveEntity_state (this : Exporter.LogDotMetricExporter) (w : World) :
  let this' := fst (Exporter.resolveEntity this w) in
  Exporter.http this' = Exporter.http this /\
  (Exporter.entityPromise this' = Exporter.entityPromise this \/
   Exporter.entityPromise this' = None /\ Exporter.entityId this' = Exporter.entityId this).
Proof.
  unfold Exporter.resolveEntity, Exporter.resolution_failed.
  destruct (Http.get _ _ w) as [[err | getResponse] w1].
  - destruct (Exporter.log _ _ w1) as [u w']. cbn. auto.
  - destruct (if Http.status getResponse =? 200 then _ else _) as [id|].
    + destruct (Exporter.log _ _ w1) as [u w']. cbn. auto.
    + destruct (Http.post _ _ _ w1) as [[err | createResponse] w2].
      * destruct (Exporter.log _ _ w2) as [u w']. cbn. auto.
      * destruct (if Exporter.is_success _ then _ else _) as [id|]; [|cbn; auto].
        destruct (Exporter.log _ _ w2) as [u w']. cbn. auto.
Qed.

Lemma doExport_state (this : Exporter.LogDotMetricExporter)
    (resourceMetrics : Exporter.ResourceMetrics) (w : World) :
  snd (fst (Exporter.doExport this resourceMetrics w)) = fst (Exporter.ensureEntity this w).
Proof.
  unfold Exporter.doExport.
  destruct (Exporter.ensureEntity this w) as [this1 w1]. cbn [fst].
  destruct (Exporter.entityId this1) as [id|].
  - destruct (Z.of_nat _ =? 0); [reflexivity|].
    destruct (Http.post _ _ _ w1) as [[err | response] w2]; [reflexivity|].
    by destruct (Exporter.is_success _).
  - by destruct (Exporter.log _ _ w1).
Qed.

Lemma export_state (this : Exporter.LogDotMetricExporter)
    (resourceMetrics : Exporter.ResourceMetrics) (w : World) :
  snd (fst (Exporter.export this resourceMetrics w)) = fst (Exporter.ensureEntity this w).
Proof.
  rewrite <- (doExport_state this resourceMetrics w). unfold Exporter.export.
  destruct (Exporter.doExport this resourceMetrics w) as [[[err | u] this'] w']; [|reflexivity].
  by destruct (Exporter.log _ _ w').
Qed.

(** In every state of the exporter an entity id comes with a set memo,
    and the transport is the one of the constructor. *)
Lemma exporter_reachable_invariant (this : Exporter.LogDotMetricExporter) :
  exporter_reachable this ->
  (is_Some (Exporter.entityId this) -> Exporter.entityPromise this <> None) /\
  Http.maxAttempts (Http.retryConfig (Exporter.http this)) = 3.
Proof.
  induction 1 as [config | this resourceMetrics w _ [IHid IHmax]].
  - cbn. split; [by intros [? [=]] | reflexivity].
  - rewrite export_state. unfold Exporter.ensureEntity.
    destruct (Exporter.entityPromise this) eqn:Hmemo; [cbn; split; [|done]; congruence|].
    destruct (resolveEntity_state
                (Exporter.set_entityPromise (Some Exporter.Fulfilled) this) w)
      as [Hhttp Hcases].
    cbn in Hhttp, Hcases. rewrite Hhttp. split; [|exact IHmax].
    destruct Hcases as [-> | [_ Hid]]; [done|].
    rewrite Hid. intros Hsome. by destruct (IHid Hsome).
Qed.

Lemma export_resolved_run (this : Exporter.LogDotMetricExporter)
    (resourceMetrics : Exporter.ResourceMetrics) (w : World) (id : Json) :
  exporter_reachable this ->
  Exporter.entityId this = Some id ->
  let url := Http.BASE_METRICS_URL ++ lit "/metrics/batch" in
  let body :=
    JObj [(lit "entity_id", id);
          (lit "metrics",
           JArr (map Exporter.payload_json (export_payloads resourceMetrics)))] in
  exists code w',
    Exporter.export this resourceMetrics w = (code, this, w') /\
    (export_payloads resourceMetrics = [] -> code = Exporter.SUCCESS /\ w' = w) /\
    (export_payloads resourceMetrics <> [] ->
     exists n,
       wire w' = wire w ++ repeat (Http.post_request (Exporter.http this) url body) n /\
       (1 <= n <= 3)%nat /\
       (code = Exporter.SUCCESS <->
        exists response,
          fst (Http.post (Exporter.http this) url body w) = inr response /\
          (Http.status response = 200 \/ Http.status response = 201))).
Proof.
  intros Hr Hid url body.
  destruct (exporter_reachable_invariant this Hr) as [Hmemo Hmax].
  specialize (Hmemo (ex_intro _ id Hid)).
  unfold Exporter.export, Exporter.doExport.
  rewrite (ensureEntity_memoized this w Hmemo), Hid.
  fold (export_payloads resourceMetrics).
  destruct (export_payloads resourceMetrics) as [|payload payloads] eqn:Hp.
  - eexists _, _. split; [reflexivity|]. by split.
  - replace (Z.of_nat (length (payload :: payloads)) =? 0) with false by reflexivity.
    cbv iota. fold url body.
    destruct (post_bounded (Exporter.http this) url body w) as (n & Hwire & Hle & Hpos).
    destruct Hpos as [Hn _]; [lia|].
    destruct (Http.post (Exporter.http this) url body w)
      as [[err | response] w1]; cbn [fst snd] in *.
    + destruct (exporter_log_world this
                  (lit "Export failed: " ++ Exporter.render_thrown err) w1)
        as (w2 & -> & _ & Hw2).
      eexists _, _. split; [reflexivity|]. split; [done|]. intros _.
      exists n. rewrite Hw2. split; [done|]. split; [lia|].
      split; [discriminate | by intros (? & [=] & _)].
    + destruct (Exporter.is_success (Http.status response)) eqn:Hok.
      * eexists _, _. split; [reflexivity|]. split; [done|]. intros _.
        exists n. split; [done|]. split; [lia|].
        apply exporter_is_success_iff in Hok. split; [by exists response | done].
      * destruct (exporter_log_world this
                    (lit "Export failed: "
                     ++ Exporter.render_thrown
                          (ThrownError (Exporter.batch_failed (Http.status response)))) w1)
          as (w2 & -> & _ & Hw2).
        eexists _, _. split; [reflexivity|]. split; [done|]. intros _.
        exists n. rewrite Hw2. split; [done|]. split; [lia|].
        split; [discriminate|].
        intros (? & [= <-] & Hst). apply exporter_is_success_iff in Hst. congruence.
Qed.

(** X20.  Once the exporter holds an entity id, an export asks for no
    entity any more and leaves the exporter as it is.  With nothing to
    send it succeeds without touching the network; otherwise its requests
    are one POST to [/metrics/batch], with the bearer token and the body
    [{entity_id, metrics}] that holds one [{name, value, unit, tags?}] per
    derived entry, in order, repeated at most three times, and the export
    succeeds exactly when the transport comes back with 200 or 201. *)
Theorem export_resolved (this : Exporter.LogDotMetricExporter)
    (resourceMetrics : Exporter.ResourceMetrics) (w : World) (id : Json) :
  exporter_reachable this ->
  Exporter.entityId this = Some id ->
  let url := lit "https://metrics.logdot.io/api/v1/metrics/batch" in
  let body :=
    JObj [(lit "entity_id", id);
          (lit "metrics", JArr (map metric_sent (export_payloads resourceMetrics)))] in
  exists code w',
    Exporter.export this resourceMetrics w = (code, this, w') /\
    (export_payloads resourceMetrics = [] -> code = Exporter.SUCCESS /\ w' = w) /\
    (export_payloads resourceMetrics <> [] ->
     exists n,
       wire w' = wire w
                 ++ repeat (api_post (Http.apiKey (Exporter.http this)) url body) n /\
       (1 <= n <= 3)%nat /\
       (code = Exporter.SUCCESS <->
        exists response,
          fst (Http.post (Exporter.http this) url body w) = inr response /\
          (Http.status response = 200 \/ Http.status response = 201))).
Proof.
  intros Hr Hid url body.
  pose proof (export_resolved_run this resourceMetrics w id Hr Hid) as Hrun.
  cbv zeta in Hrun. rewrite post_request_api in Hrun.
  replace (map Exporter.payload_json (export_payloads resourceMetrics))
    with (map metric_sent (export_payloads resourceMetrics)) in Hrun
    by (apply map_ext; intros payload; reflexivity).
  exact Hrun.
Qed.


End ExporterMore.

(* ------------------------------------------------------------------ *)
(** ** The span exporter *)
(* ------------------------------------------------------------------ *)

Section SpanMore.
Context `{Platform}.

Lemma span_log_world (this : SpanExporter.LogDotSpanExporter) (message : JsString)
    (w : World) :
  exists w',
    SpanExporter.log this message w = (inr tt, w') /\
    network w' = network w /\ wire w' = wire w.
Proof. unfold SpanExporter.log. destruct (SpanExporter.debugEnabled this); by eexists. Qed.

Lemma span_export_run (config : SpanExporter.LogDotSpanExporterConfig)
    (spans : list SpanExporter.ReadableSpan) (w : World) :
  let this := SpanExporter.new_LogDotSpanExporter config in
  let url := Http.BASE_LOGS_URL ++ lit "/logs/batch" in
  let body :=
    JObj [(lit "hostname", JStr (SpanExporter.cfg_hostname config));
          (lit "logs", JArr (map SpanExporter.span_log spans))] in
  exists code w' n,
    SpanExporter.export this spans w = (code, w') /\
    wire w' = wire w ++ repeat (Http.post_request (SpanExporter.http this) url body) n /\
    (spans = [] -> code = Exporter.SUCCESS /\ w' = w) /\
    (spans <> [] ->
     (1 <= n <= 3)%nat /\
     (code = Exporter.SUCCESS <->
      exists response,
        fst (Http.post (SpanExporter.http this) url body w) = inr response /\
        (Http.status response = 200 \/ Http.status response = 201))).
Proof.
  intros this url body.
  unfold SpanExporter.export, SpanExporter.doExport.
  destruct spans as [|span spans].
  - exists Exporter.SUCCESS, w, 0%nat. cbn. rewrite app_nil_r. by repeat split.
  - replace (Z.of_nat (length (span :: spans)) =? 0) with false by reflexivity.
    cbv iota. unfold bind.
    change (SpanExporter.hostname this) with (SpanExporter.cfg_hostname config).
    fold url. fold body.
    destruct (post_bounded (SpanExporter.http this) url body w) as (n & Hwire & Hle & Hpos).
    destruct Hpos as [Hn _]; [cbn; lia|].
    assert (Hthree : (n <= 3)%nat) by (cbn in Hle; lia).
    destruct (Http.post (SpanExporter.http this) url body w)
      as [[err | response] w1]; cbn [fst snd] in *.
    + destruct (span_log_world this
                  (lit "Export failed: " ++ Exporter.render_thrown err) w1)
        as (w2 & -> & _ & Hw2).
      exists Exporter.FAILED, w2, n. rewrite Hw2.
      split; [done|]. split; [done|]. split; [done|]. intros _. split; [lia|].
      split; [discriminate | by intros (? & [=] & _)].
    + destruct (Exporter.is_success (Http.status response)) eqn:Hok; unfold ret, throw.
      * exists Exporter.SUCCESS, w1, n.
        split; [done|]. split; [done|]. split; [done|]. intros _. split; [lia|].
        apply exporter_is_success_iff in Hok. split; [by exists response | done].
      * destruct (span_log_world this
                    (lit "Export failed: "
                     ++ Exporter.render_thrown
                          (ThrownError (SpanExporter.batch_failed (Http.status response))))
                    w1)
          as (w2 & -> & _ & Hw2).
        exists Exporter.FAILED, w2, n. rewrite Hw2.
        split; [done|]. split; [done|]. split; [done|]. intros _. split; [lia|].
        split; [discriminate|].
        intros (? & [= <-] & Hst). apply exporter_is_success_iff in Hst. congruence.
Qed.

Lemma span_log_sent (span : SpanExporter.ReadableSpan) :
  span_sent span (SpanExporter.span_log span).
Proof.
  exists (json_of_obj (SpanExporter.span_tags span)).
  split; [|apply json_of_obj_object].
  unfold SpanExporter.span_log, SpanExporter.span_message, SpanExporter.severityFromStatus.
  by destruct (SpanExporter.status_code span).
Qed.

(** X22.  An export of no span succeeds without touching the network.
    An export of spans puts one POST to [/logs/batch] on the wire, with
    the bearer token and the body [{hostname, logs}] that holds one
    [{message, severity, tags}] per span in the order given, repeated at
    most three times; it reports success exactly when the transport comes
    back with 200 or 201. *)
Theorem span_export_contract (config : SpanExporter.LogDotSpanExporterConfig)
    (spans : list SpanExporter.ReadableSpan) (w : World) :
  let this := SpanExporter.new_LogDotSpanExporter config in
  let url := lit "https://logs.logdot.io/api/v1/logs/batch" in
  exists logs code w' n,
    Forall2 span_sent spans logs /\
    let body := logs_batch (SpanExporter.cfg_hostname config) logs in
    SpanExporter.export this spans w = (code, w') /\
    wire w' = wire w
              ++ repeat (api_post (SpanExporter.cfg_apiKey config) url body) n /\
    (spans = [] -> code = Exporter.SUCCESS /\ w' = w) /\
    (spans <> [] ->
     (1 <= n <= 3)%nat /\
     (code = Exporter.SUCCESS <->
      exists response,
        fst (Http.post (SpanExporter.http this) url body w) = inr response /\
        (Http.status response = 200 \/ Http.status response = 201))).
Proof.
  intros this url.
  destruct (span_export_run config spans w) as (code & w' & n & Hrun).
  exists (map SpanExporter.span_log spans), code, w', n.
  split; [apply Forall2_map_self, span_log_sent | exact Hrun].
Qed.

Lemma flattenAttributes_snoc (attrs : Exporter.Attributes) (k : JsString)
    (value : option Json) :
  SpanExporter.flattenAttributes (attrs ++ [(k, value)])
  = match value with
    | None | Some JNull => SpanExporter.flattenAttributes attrs
    | Some (JStr s) => <[k := JStr s]> (SpanExporter.flattenAttributes attrs)
    | Some (JNum q) => <[k := JNum q]> (SpanExporter.flattenAttributes attrs)
    | Some (JBool b) => <[k := JBool b]> (SpanExporter.flattenAttributes attrs)
    | Some v => <[k := JStr (JSON_stringify v)]> (SpanExporter.flattenAttributes attrs)
    end.
Proof. unfold SpanExporter.flattenAttributes. rewrite foldl_app. reflexivity. Qed.

(** X23.  [flattenAttributes] keeps strings, numbers and booleans as they
    are, writes any other value as its JSON text and drops [null] and
    [undefined]: every value of the result is a primitive that comes from
    an attribute of that key, and an attribute that is neither [null] nor
    [undefined] always leaves its key in the result. *)
Theorem flattenAttributes_primitive (attrs : Exporter.Attributes) (k : JsString) :
  (forall v,
     SpanExporter.flattenAttributes attrs !! k = Some v ->
     primitive v /\
     exists raw,
       In (k, Some raw) attrs /\ raw <> JNull /\
       (primitive raw /\ v = raw \/
        ~ primitive raw /\ v = JStr (JSON_stringify raw))) /\
  (forall raw,
     In (k, Some raw) attrs -> raw <> JNull ->
     is_Some (SpanExporter.flattenAttributes attrs !! k)).
Proof.
  induction attrs as [|[k' value] attrs [IHv IHin]] using rev_ind.
  - split; [intros v Hv | intros raw []].
    unfold SpanExporter.flattenAttributes in Hv. cbn [foldl] in Hv.
    by rewrite lookup_empty in Hv.
  - rewrite flattenAttributes_snoc. split.
    + intros v Hv.
      assert (Hold : SpanExporter.flattenAttributes attrs !! k = Some v ->
                     primitive v /\
                     exists raw,
                       In (k, Some raw) (attrs ++ [(k', value)]) /\ raw <> JNull /\
                       (primitive raw /\ v = raw \/
                        ~ primitive raw /\ v = JStr (JSON_stringify raw))).
      { intros Hk. destruct (IHv v Hk) as (Hp & raw & Hin & Hrest).
        split; [exact Hp|]. exists raw. split; [apply in_or_app; by left | exact Hrest]. }
      destruct value as [raw|]; [|by apply Hold].
      destruct (decide (k = k')) as [<- | Hne].
      * destruct raw; rewrite ?lookup_insert_eq in Hv; try (by apply Hold);
          injection Hv as <-; (split; [exact I|]);
          eexists; (split; [apply in_or_app; right; left; reflexivity|]);
          (split; [discriminate|]); cbn; tauto.
      * destruct raw; rewrite ?lookup_insert_ne in Hv by done; by apply Hold.
    + intros raw Hin Hnull.
      apply in_app_or in Hin. destruct Hin as [Hin | [[= -> ->] | []]].
      * destruct (IHin raw Hin Hnull) as [v Hv].
        destruct value as [[]|]; try (by exists v);
          (destruct (decide (k = k')) as [<- | Hne];
           [rewrite lookup_insert_eq; by eexists
           | rewrite lookup_insert_ne by done; by exists v]).
      * destruct raw; try done; rewrite lookup_insert_eq; by eexists.
Qed.

Lemma span_literal_lookup (span : SpanExporter.ReadableSpan) (k : JsString) :
  let fixed : Obj :=
    {[ lit "duration_ms" :=
         number_json (SpanExporter.hrtimeDurationMs (SpanExporter.startTime span)
                 (SpanExporter.endTime span)) ]}
    ∪ ({[ lit "span_kind" := JStr (SpanExporter.spanKindToString (SpanExporter.kind span)) ]}
       ∪ ({[ lit "span_id" := JStr (SpanExporter.spanId span) ]}
          ∪ {[ lit "trace_id" := JStr (SpanExporter.traceId span) ]})) in
  k <> lit "parent_span_id" -> k <> lit "status_message" ->
  SpanExporter.span_tags span !! k
  = match SpanExporter.flattenAttributes (SpanExporter.attributes span) !! k with
    | Some v => Some v
    | None => fixed !! k
    end.
Proof.
  intros fixed Hparent Hstatus. unfold SpanExporter.span_tags.
  assert (Hlit : spread [ {[ lit "trace_id" := JStr (SpanExporter.traceId span) ]};
                          {[ lit "span_id" := JStr (SpanExporter.spanId span) ]};
                          {[ lit "span_kind" :=
                               JStr (SpanExporter.spanKindToString (SpanExporter.kind span)) ]};
                          {[ lit "duration_ms" :=
                               number_json (SpanExporter.hrtimeDurationMs
                                       (SpanExporter.startTime span)
                                       (SpanExporter.endTime span)) ]};
                          SpanExporter.flattenAttributes (SpanExporter.attributes span) ]
                 = SpanExporter.flattenAttributes (SpanExporter.attributes span) ∪ fixed).
  { unfold spread. cbn [foldl]. by rewrite (right_id_L ∅ (∪)). }
  rewrite Hlit.
  assert (Hmerged : (SpanExporter.flattenAttributes (SpanExporter.attributes span) ∪ fixed) !! k
                    = match SpanExporter.flattenAttributes (SpanExporter.attributes span) !! k with
                      | Some v => Some v
                      | None => fixed !! k
                      end).
  { rewrite lookup_union.
    destruct (SpanExporter.flattenAttributes _ !! k), (fixed !! k); reflexivity. }
  destruct (SpanExporter.status_message span) as [message|],
           (SpanExporter.parentSpanId span) as [parent|];
    repeat match goal with
           | |- context [bool_decide ?P] => destruct (bool_decide P)
           end;
    rewrite ?lookup_insert_ne by done; exact Hmerged.
Qed.

(** X24.  The tags of a span's log: a non-empty status message and a
    non-empty parent id are always there under their own keys; under any
    other key an attribute of the span wins over the tag the exporter
    sets itself; and the four tags [trace_id], [span_id], [span_kind] and
    [duration_ms] are there whenever no attribute has their name. *)
Theorem span_tags_precedence (span : SpanExporter.ReadableSpan) :
  let tags := SpanExporter.span_tags span in
  let flat := SpanExporter.flattenAttributes (SpanExporter.attributes span) in
  (forall message,
     SpanExporter.status_message span = Some message -> message <> [] ->
     tags !! lit "status_message" = Some (JStr message)) /\
  (forall parent,
     SpanExporter.parentSpanId span = Some parent -> parent <> [] ->
     tags !! lit "parent_span_id" = Some (JStr parent)) /\
  (forall k v,
     k <> lit "parent_span_id" -> k <> lit "status_message" ->
     flat !! k = Some v -> tags !! k = Some v) /\
  (flat !! lit "trace_id" = None ->
   tags !! lit "trace_id" = Some (JStr (SpanExporter.traceId span))) /\
  (flat !! lit "span_id" = None ->
   tags !! lit "span_id" = Some (JStr (SpanExporter.spanId span))) /\
  (flat !! lit "span_kind" = None ->
   tags !! lit "span_kind"
   = Some (JStr (SpanExporter.spanKindToString (SpanExporter.kind span)))) /\
  (flat !! lit "duration_ms" = None ->
   tags !! lit "duration_ms"
   = Some (number_json (SpanExporter.hrtimeDurationMs (SpanExporter.startTime span)
                   (SpanExporter.endTime span)))).
Proof.
  intros tags flat. subst tags flat.
  assert (Hkeys : forall a b : string, lit a <> lit b -> lit a <> lit b) by auto.
  split; [|split; [|split; [|split; [|split; [|split]]]]].
  - intros message Hm Hne. unfold SpanExporter.span_tags. rewrite Hm.
    destruct (bool_decide_reflect (message = [])); [done|].
    apply lookup_insert_eq.
  - intros parent Hp Hne. unfold SpanExporter.span_tags. rewrite Hp.
    destruct (bool_decide_reflect (parent = [])); [done|].
    destruct (SpanExporter.status_message span) as [message|];
      [destruct (bool_decide (message = []))|];
      rewrite ?(lookup_insert_ne _ (lit "status_message")) by (vm_compute; discriminate);
      apply lookup_insert_eq.
  - intros k v Hparent Hstatus Hk.
    rewrite (span_literal_lookup span k Hparent Hstatus). by rewrite Hk.
  - intros Hk. rewrite span_literal_lookup by (vm_compute; discriminate). rewrite Hk.
    rewrite !lookup_union_r by (apply lookup_singleton_ne; vm_compute; discriminate).
    apply lookup_singleton_eq.
  - intros Hk. rewrite span_literal_lookup by (vm_compute; discriminate). rewrite Hk.
    rewrite !lookup_union_r by (apply lookup_singleton_ne; vm_compute; discriminate).
    apply lookup_union_Some_l, lookup_singleton_eq.
  - intros Hk. rewrite span_literal_lookup by (vm_compute; discriminate). rewrite Hk.
    rewrite lookup_union_r by (apply lookup_singleton_ne; vm_compute; discriminate).
    apply lookup_union_Some_l, lookup_singleton_eq.
  - intros Hk. rewrite span_literal_lookup by (vm_compute; discriminate). rewrite Hk.
    apply lookup_union_Some_l, lookup_singleton_eq.
Qed.

End SpanMore.

(** The duration is rounded the way binary64 arithmetic rounds it:
    1.005 ms times 100 falls just short of 100.5 and gives 1, and
    0.145 ms gives 0.14. *)
Example duration_of_1005000_ns :
  SpanExporter.hrtimeDurationMs (0, 0) (0, 1005000) = Double.of_Z 1.
Proof. vm_compute. reflexivity. Qed.

Example duration_of_145000_ns :
  SpanExporter.hrtimeDurationMs (0, 0) (0, 145000) = Double.decimal 14 100.
Proof. vm_compute. reflexivity. Qed.

(** The span of the examples lasts 12.345678 ms, which is rounded up to
    12.35. *)
Example duration_of_example_span :
  SpanExporter.hrtimeDurationMs (SpanExporter.startTime example_span)
    (SpanExporter.endTime example_span)
  = Double.decimal 1235 100.
Proof. vm_compute. reflexivity. Qed.

(** [Math.round] takes a half to the integer above: 2.5 gives 3, -2.5
    gives -2, and -0.4 gives the negative zero. *)
Example Math_round_halves :
  Exporter.Math_round (Double.decimal 5 2) = Double.of_Z 3 /\
  Exporter.Math_round (Double.decimal (-5) 2) = Double.of_Z (-2) /\
  Exporter.Math_round (Double.decimal (-4) 10) = S754_zero true /\
  Exporter.Math_round (Double.decimal 49 100) = Double.of_Z 0.
Proof. vm_compute. repeat split. Qed.

(** An error is rendered with its name and its message; an empty name or
    an empty message is left out together with the colon. *)
Example render_thrown_texts :
  Exporter.render_thrown
    (ThrownError {| err_name := lit "TypeError"; err_message := lit "boom" |})
  = lit "TypeError: boom" /\
  Exporter.render_thrown (ThrownError {| err_name := []; err_message := lit "boom" |})
  = lit "boom" /\
  Exporter.render_thrown (ThrownError {| err_name := lit "TypeError"; err_message := [] |})
  = lit "TypeError" /\
  Exporter.render_thrown ThrownNull = lit "null".
Proof. vm_compute. repeat split. Qed.

(** The arguments of a console call are joined by one space; an error is
    written with its name, its message and, on the next line, its stack. *)
Example formatArgs_texts :
  Capture.formatArgs (H := stub_platform)
    [Capture.ArgString (lit "a"); Capture.ArgString (lit "b")]
  = lit "a b" /\
  Capture.formatArgs (H := stub_platform)
    [Capture.ArgError (lit "Error") (lit "boom") (Some (lit "at f"))]
  = lit "Error: boom" ++ [10] ++ lit "at f" /\
  Capture.formatArgs (H := stub_platform)
    [Capture.ArgString (lit "x"); Capture.ArgError (lit "Error") (lit "boom") None]
  = lit "x Error: boom" ++ [10].
Proof. vm_compute. repeat split. Qed.

(* ------------------------------------------------------------------ *)
(** ** The further properties on the examples *)
(* ------------------------------------------------------------------ *)


(** A lookup answered with 201 finds nothing, even though the body names
    an entity. *)
Lemma getEntityByName_contract_witness :
  exists this',
    fst (Metrics.getEntityByName (H := stub_platform) example_manager (lit "svc")
           (fresh_world [Responds 201 (Some (entity_body (lit "E1")))] []))
    = (inr None, this').
Proof.
  destruct (@getEntityByName_contract stub_platform example_manager (lit "svc")
              (fresh_world [Responds 201 (Some (entity_body (lit "E1")))] []))
    as (r & this' & w' & n & Hrun & _ & _ & Hiff & _).
  - cbn. lia.
  - exists this'. rewrite Hrun. cbn [fst]. destruct r as [entity|]; [|reflexivity].
    destruct (proj1 Hiff (ex_intro _ entity eq_refl)) as (response & id & Hgot & Hst & _).
    vm_compute in Hgot. injection Hgot as <-. vm_compute in Hst. discriminate Hst.
Defined.

(** A creation with a description and one key of metadata: the request
    carries both. *)
Lemma createEntity_request_witness :
  exists n,
    wire (snd (Metrics.createEntity (H := stub_platform) example_manager described_options
                 (fresh_world [Responds 201 (Some (entity_body (lit "E1")))] [])))
    = repeat (api_post (lit "ilog_live_key")
                (lit "https://metrics.logdot.io/api/v1/entities")
                (JObj [(lit "name", JStr (lit "svc"));
                       (lit "description", JStr (lit "api"));
                       (lit "metadata", JObj [(lit "region", JStr (lit "eu"))])])) n /\
    (1 <= n)%nat.
Proof.
  destruct (@createEntity_request stub_platform example_manager described_options
              (fresh_world [Responds 201 (Some (entity_body (lit "E1")))] []))
    as (metadata & n & Hmeta & Hwire & Hn).
  - cbn. lia.
  - exists n. split; [|exact Hn]. rewrite Hwire.
    cbn [Metrics.opt_metadata described_options] in Hmeta.
    destruct Hmeta as [[Hempty _] | (_ & j & -> & fields & -> & Hfields)].
    + apply (f_equal (fun m : Obj => m !! lit "region")) in Hempty.
      vm_compute in Hempty. discriminate Hempty.
    + rewrite map_to_list_singleton in Hfields.
      apply Permutation_singleton_r in Hfields as ->. reflexivity.
Defined.

(** The lookup answers 404 and the creation 201: one GET, then POSTs. *)
Lemma getOrCreateEntity_lookup_first_witness :
  exists r this' w' n m,
    Metrics.getOrCreateEntity (H := stub_platform) example_manager example_options
      (fresh_world [Responds 404 None; Responds 201 (Some (entity_body (lit "E1")))] [])
    = (inr r, this', w') /\
    (1 <= n)%nat /\ (1 <= m)%nat.
Proof.
  destruct (@getOrCreateEntity_lookup_first stub_platform example_manager example_options
              (fresh_world [Responds 404 None;
                            Responds 201 (Some (entity_body (lit "E1")))] []))
    as (r & this' & w' & n & m & Hrun & _ & Hn & _ & Hm).
  - cbn. lia.
  - exists r, this', w', n, m. split; [exact Hrun|]. split; [exact Hn|].
    apply Hm. reflexivity.
Defined.

(** After one call the capture of the examples, which flushes at two
    entries, holds fewer than two. *)
Lemma capture_buffer_bounded_witness :
  Z.of_nat (length (Capture.buffer
                      (Capture.this
                         (Capture.console_call (H := stub_platform) Capture.m_log
                            [Capture.ArgString (lit "a")] example_capture)))) < 2.
Proof.
  destruct (@capture_buffer_bounded stub_platform
              (Capture.console_call (H := stub_platform) Capture.m_log
                 [Capture.ArgString (lit "a")] example_capture)) as [Hlen _].
  - apply capture_call. apply capture_new.
  - exact Hlen.
Defined.

(** Shutting down after one call leaves an empty buffer. *)
Lemma shutdown_final_witness :
  Capture.buffer
    (Capture.this
       (Capture.shutdown
          (Capture.console_call (H := stub_platform) Capture.m_warn
             [Capture.ArgString (lit "a")] example_capture))) = [].
Proof.
  destruct (@shutdown_final stub_platform
              (Capture.console_call (H := stub_platform) Capture.m_warn
                 [Capture.ArgString (lit "a")] example_capture)) as [Hbuffer _].
  - apply capture_call. apply capture_new.
  - exact Hbuffer.
Defined.

(** The flush started by the second call fails on a dead network, and
    nothing is printed. *)
Lemma capture_post_silent_witness :
  console
    (snd (Capture.settle (H := stub_platform)
            (Capture.console_call (H := stub_platform) Capture.m_log
               [Capture.ArgString (lit "b")]
               (Capture.console_call (H := stub_platform) Capture.m_log
                  [Capture.ArgString (lit "a")] example_capture))
            (fresh_world [] []))) = [].
Proof.
  destruct (@capture_post_silent stub_platform
              (Capture.console_call (H := stub_platform) Capture.m_log
                 [Capture.ArgString (lit "b")]
                 (Capture.console_call (H := stub_platform) Capture.m_log
                    [Capture.ArgString (lit "a")] example_capture))
              (fresh_world [] [])) as [Hconsole _].
  - do 2 apply capture_call. apply capture_new.
  - exact Hconsole.
Defined.

(** The exporter of the examples after a first export that found the
    entity: the next export leaves it as it is. *)
Lemma export_resolved_witness :
  let this :=
    snd (fst (Exporter.export (H := stub_platform) example_exporter example_metrics
                (fresh_world [Responds 200 (Some (entity_body (lit "E1")));
                              Responds 200 None] []))) in
  exists code w',
    Exporter.export (H := stub_platform) this example_metrics
      (fresh_world [Responds 500 None] []) = (code, this, w').
Proof.
  intros this.
  destruct (@export_resolved stub_platform this example_metrics
              (fresh_world [Responds 500 None] []) (JStr (lit "E1")))
    as (code & w' & Hrun & _).
  - apply exporter_export. apply exporter_new.
  - reflexivity.
  - by exists code, w'.
Defined.


(** An export of the example span to a service that answers 500 reports
    a failure, after requests that carry one log. *)
Lemma span_export_contract_witness :
  exists log n,
    span_sent (H := stub_platform) example_span log /\
    fst (SpanExporter.export (H := stub_platform) example_span_exporter [example_span]
           (fresh_world [Responds 500 None] [])) = Exporter.FAILED /\
    wire (snd (SpanExporter.export (H := stub_platform) example_span_exporter
                 [example_span] (fresh_world [Responds 500 None] [])))
    = repeat (api_post (lit "ilog_live_key")
                (lit "https://logs.logdot.io/api/v1/logs/batch")
                (logs_batch (lit "svc") [log])) n /\
    (1 <= n <= 3)%nat.
Proof.
  destruct (@span_export_contract stub_platform
              {| SpanExporter.cfg_apiKey := lit "ilog_live_key";
                 SpanExporter.cfg_hostname := lit "svc";
                 SpanExporter.cfg_debug := None; SpanExporter.cfg_timeout := None |}
              [example_span] (fresh_world [Responds 500 None] []))
    as (logs & code & w' & n & Hlogs & Hrun & Hwire & _ & Hsent).
  apply Forall2_cons_inv_l in Hlogs as (log & rest & Hlog & Hrest & ->).
  apply Forall2_nil_inv_l in Hrest as ->.
  destruct (Hsent ltac:(discriminate)) as [Hn Hiff].
  exists log, n. split; [exact Hlog|].
  unfold example_span_exporter. rewrite Hrun. cbn [fst snd].
  split; [|split; [exact Hwire | exact Hn]].
  destruct code; [|reflexivity].
  destruct (proj1 Hiff eq_refl) as (response & Hpost & Hstatus).
  vm_compute in Hpost. injection Hpost as <-.
  destruct Hstatus as [Hstatus | Hstatus]; vm_compute in Hstatus; discriminate Hstatus.
Defined.

(** The array attribute of the example span is kept, as text. *)
Lemma flattenAttributes_primitive_witness :
  is_Some (SpanExporter.flattenAttributes (H := stub_platform)
             (SpanExporter.attributes example_span) !! lit "sizes").
Proof.
  destruct (@flattenAttributes_primitive stub_platform
              (SpanExporter.attributes example_span) (lit "sizes")) as [_ Hkept].
  apply (Hkept (JArr [JNum 1])).
  - cbn. tauto.
  - discriminate.
Defined.

(** The status message of the example span is among its tags. *)
Lemma span_tags_precedence_witness :
  SpanExporter.span_tags (H := stub_platform) example_span !! lit "status_message"
  = Some (JStr (lit "boom")).
Proof.
  destruct (@span_tags_precedence stub_platform example_span) as [Hstatus _].
  apply Hstatus; [reflexivity | discriminate].
Defined.


(* ------------------------------------------------------------------ *)
(** ** A policy of no attempt, and the console seen through the capture *)
(* ------------------------------------------------------------------ *)

Section EdgesMore.
Context `{Platform}.

Lemma no_attempt_throws_null {T} (c : Http.HttpClient) (fn : Eff T) (w : World) :
  Http.maxAttempts (Http.retryConfig c) <= 0 ->
  Http.executeWithRetry c fn w = (inl ThrownNull, w).
Proof.
  intros Hmax. unfold Http.executeWithRetry.
  replace (Z.to_nat _) with 0%nat by lia. reflexivity.
Qed.

(** X26.  With a policy of no attempt ([retryAttempts] zero or below)
    the transport asks nothing of the network and throws [null]; [log]
    outside batch mode, and [sendBatch] with entries queued, then do not
    return false: reading the message of [null] in their [catch] makes
    them throw a [TypeError], with the world and the logger untouched. *)
Theorem no_attempt_rejects (this : Logger.LogDotLogger) (h : Logger.Heap)
    (level : LogLevel) (message : JsString) (tags : option Obj) (w : World) :
  Http.maxAttempts (Http.retryConfig (Logger.http this)) <= 0 ->
  (forall url body, Http.post (Logger.http this) url body w = (inl ThrownNull, w)) /\
  (forall url, Http.get (Logger.http this) url w = (inl ThrownNull, w)) /\
  (Logger.batchMode this = false ->
   Logger.log this h level message tags w = (inl (ThrownError null_message), this, w)) /\
  (Logger.batchMode this = true -> Logger.batchQueue this <> [] ->
   Logger.sendBatch this w = (inl (ThrownError null_message), this, w)).
Proof.
  intros Hmax.
  assert (Hpost : forall url body,
             Http.post (Logger.http this) url body w = (inl ThrownNull, w))
    by (intros; by apply no_attempt_throws_null).
  split; [exact Hpost|].
  split; [intros; by apply no_attempt_throws_null|].
  split.
  - intros Hmode. unfold Logger.log. rewrite Hmode.
    unfold Logger.sendLog, try_catch, bind. by rewrite Hpost.
  - intros Hmode Hqueue. unfold Logger.sendBatch. rewrite Hmode.
    destruct (Logger.batchQueue this) as [|entry queue] eqn:Hq; [done|].
    replace (Z.of_nat (length (entry :: queue)) =? 0) with false by reflexivity.
    cbn [negb orb]. by rewrite Hpost.
Qed.

(** X27.  Every console call reaches the original console, once and with
    its arguments, whatever the state of the capture; a timer tick, the
    settling of a flush and [shutdown] write nothing to it. *)
Theorem console_passthrough (p : Capture.Process) :
  (forall method args,
     Capture.terminal (Capture.console_call method args p)
     = Capture.terminal p ++ [(method, args)]) /\
  Capture.terminal (Capture.timer_tick p) = Capture.terminal p /\
  (forall w, Capture.terminal (fst (Capture.settle p w)) = Capture.terminal p) /\
  Capture.terminal (Capture.shutdown p) = Capture.terminal p.
Proof.
  assert (Hflush : forall q, Capture.terminal (Capture.flush q) = Capture.terminal q).
  { intros q. unfold Capture.flush. by destruct (_ || _). }
  split; [|split; [|split]].
  - intros method args. unfold Capture.console_call.
    destruct (negb (Capture.patched p)); [reflexivity|].
    destruct (Capture.flushing (Capture.this p)); [reflexivity|].
    match goal with |- context [if ?b then _ else _] => destruct b end;
      [by rewrite Hflush | reflexivity].
  - unfold Capture.timer_tick. destruct (Capture.flushTimer _); [apply Hflush | reflexivity].
  - intros w. unfold Capture.settle.
    destruct (Capture.in_flight p); [|reflexivity].
    by destruct (Http.post _ _ _ w).
  - unfold Capture.shutdown, Capture.restore. cbn [Capture.terminal]. by rewrite Hflush.
Qed.

Lemma console_call_buffers (p : Capture.Process) (method : Capture.ConsoleMethod)
    (args : list Capture.Arg) :
  Capture.patched p = true ->
  Capture.flushing (Capture.this p) = false ->
  let p' := Capture.console_call method args p in
  let entries := Capture.buffer (Capture.this p) ++ [captured (method, args)] in
  Capture.patched p' = true /\
  Capture.maxBufferSize (Capture.this p') = Capture.maxBufferSize (Capture.this p) /\
  Capture.hostname (Capture.this p') = Capture.hostname (Capture.this p) /\
  (Z.of_nat (length entries) < Capture.maxBufferSize (Capture.this p) ->
   Capture.buffer (Capture.this p') = entries /\
   Capture.flushing (Capture.this p') = false /\
   Capture.in_flight p' = Capture.in_flight p) /\
  (Capture.maxBufferSize (Capture.this p) <= Z.of_nat (length entries) ->
   Capture.buffer (Capture.this p') = [] /\
   Capture.flushing (Capture.this p') = true /\
   Capture.in_flight p' = Some (Capture.flush_payload (Capture.this p) entries)).
Proof.
  intros Hpatched Hclear p' entries. subst p' entries.
  assert (Hentry : captured (method, args)
                   = {| Capture.message :=
                          Utils.truncateBytes_default (Capture.formatArgs args);
                        Capture.severity := Capture.LEVEL_MAP method;
                        Capture.tags := [(lit "source", JStr (lit "console"))] |})
    by (by destruct method).
  rewrite Hentry. clear Hentry.
  unfold Capture.console_call. rewrite Hpatched, Hclear.
  cbn [negb Capture.maxBufferSize Capture.buffer fst snd].
  destruct (Z.leb_spec (Capture.maxBufferSize (Capture.this p))
              (Z.of_nat (length (Capture.buffer (Capture.this p)
                                 ++ [{| Capture.message :=
                                          Utils.truncateBytes_default
                                            (Capture.formatArgs args);
                                        Capture.severity := Capture.LEVEL_MAP method;
                                        Capture.tags :=
                                          [(lit "source", JStr (lit "console"))] |}]))))
    as [Hfull | Hroom].
  - unfold Capture.flush.
    cbn [Capture.this Capture.buffer Capture.flushing Capture.patched Capture.http
           Capture.hostname Capture.maxBufferSize Capture.flushTimer Capture.terminal
           Capture.in_flight].
    destruct (Capture.buffer (Capture.this p) ++ _) as [|l logs] eqn:Hb;
      [by destruct (Capture.buffer (Capture.this p))|].
    replace (Z.of_nat (length (l :: logs)) =? 0) with false by reflexivity.
    cbn -[Capture.flush_payload Z.of_nat length].
    repeat split; try done; lia.
  - cbn -[Z.of_nat length]. repeat split; try done; lia.
Qed.

Lemma capture_fifo_run (calls : list (Capture.ConsoleMethod * list Capture.Arg))
    (p : Capture.Process) :
  Capture.patched p = true ->
  Capture.flushing (Capture.this p) = false ->
  Z.of_nat (length (Capture.buffer (Capture.this p)) + length calls)
  < Capture.maxBufferSize (Capture.this p) ->
  let p' := console_calls calls p in
  let entries := Capture.buffer (Capture.this p) ++ map captured calls in
  Capture.buffer (Capture.this p') = entries /\
  Capture.in_flight p' = Capture.in_flight p /\
  forall call,
    Z.of_nat (length entries) + 1 = Capture.maxBufferSize (Capture.this p) ->
    let p'' := Capture.console_call (fst call) (snd call) p' in
    Capture.buffer (Capture.this p'') = [] /\
    Capture.in_flight p''
    = Some (Capture.flush_payload (Capture.this p) (entries ++ [captured call])).
Proof.
  revert p. induction calls as [|[method args] calls IH]; intros p Hpatched Hclear Hroom.
  - cbn [console_calls foldl map]. rewrite app_nil_r. cbn zeta.
    split; [reflexivity|]. split; [reflexivity|].
    intros [method args] Hfull. cbn [fst snd].
    destruct (console_call_buffers p method args Hpatched Hclear)
      as (_ & _ & _ & _ & Hflush).
    destruct Hflush as (Hb & _ & Hin); [rewrite length_app; cbn; lia|].
    by split.
  - destruct (console_call_buffers p method args Hpatched Hclear)
      as (Hp1 & Hmax1 & Hhost1 & Hkeep & _).
    destruct Hkeep as (Hb1 & Hf1 & Hin1); [rewrite length_app; cbn in *; lia|].
    specialize (IH (Capture.console_call method args p) Hp1 Hf1).
    rewrite Hb1, Hmax1, Hin1 in IH. cbn zeta in IH.
    destruct IH as (Hb & Hin & Hlast); [rewrite length_app; cbn in *; lia|].
    cbn zeta. change (console_calls ((method, args) :: calls) p)
      with (console_calls calls (Capture.console_call method args p)).
    cbn [map]. rewrite Hb, Hin, <- !app_assoc. cbn [app].
    split; [reflexivity|]. split; [reflexivity|].
    intros call Hfull. destruct (Hlast call) as [Hempty Hbody].
    + rewrite <- app_assoc. exact Hfull.
    + split; [exact Hempty|]. rewrite Hbody, <- !app_assoc. cbn [app].
      unfold Capture.flush_payload. by rewrite Hhost1.
Qed.

(** X28.  While the console is patched and no flush is in flight, calls
    that leave the buffer below its limit are buffered in the order made,
    each with the severity of its method ([log] and [info] as info) and
    its text truncated; the call that fills the buffer starts one POST
    whose body is [{hostname, logs}] with one [{message, severity, tags}]
    per buffered entry in that order, and leaves the buffer empty. *)
Theorem capture_fifo (calls : list (Capture.ConsoleMethod * list Capture.Arg))
    (p : Capture.Process) :
  Capture.patched p = true ->
  Capture.flushing (Capture.this p) = false ->
  Z.of_nat (length (Capture.buffer (Capture.this p)) + length calls)
  < Capture.maxBufferSize (Capture.this p) ->
  let p' := console_calls calls p in
  let entries := Capture.buffer (Capture.this p) ++ map captured calls in
  Capture.buffer (Capture.this p') = entries /\
  Capture.in_flight p' = Capture.in_flight p /\
  forall call,
    Z.of_nat (length entries) + 1 = Capture.maxBufferSize (Capture.this p) ->
    let p'' := Capture.console_call (fst call) (snd call) p' in
    Capture.buffer (Capture.this p'') = [] /\
    Capture.in_flight p''
    = Some (logs_batch (Capture.hostname (Capture.this p))
              (map console_log_sent (entries ++ [captured call]))).
Proof.
  intros Hpatched Hclear Hroom p' entries.
  destruct (capture_fifo_run calls p Hpatched Hclear Hroom) as (Hb & Hin & Hlast).
  split; [exact Hb|]. split; [exact Hin|].
  intros call Hfull p''. destruct (Hlast call Hfull) as [Hempty Hbody].
  split; [exact Hempty|]. subst p'' p' entries.
  rewrite Hbody. by rewrite flush_payload_sent.
Qed.

End EdgesMore.

(** A logger configured with [retryAttempts: 0] throws on [info]. *)
Lemma no_attempt_rejects_witness :
  Logger.info (H := stub_platform) unretried_logger example_heap (lit "up") None
    (fresh_world [Responds 200 None] [])
  = (inl (ThrownError null_message), unretried_logger,
     fresh_world [Responds 200 None] []).
Proof.
  destruct (@no_attempt_rejects stub_platform unretried_logger example_heap Info
              (lit "up") None (fresh_world [Responds 200 None] []))
    as (_ & _ & Hlog & _).
  - cbn. lia.
  - apply Hlog. reflexivity.
Defined.

(** Two calls on a capture that flushes at two entries: the first is
    buffered, the second starts the POST. *)
Lemma capture_fifo_witness :
  Capture.buffer
    (Capture.this
       (Capture.console_call (H := stub_platform) Capture.m_error
          [Capture.ArgString (lit "b")]
          (console_calls (H := stub_platform)
             [(Capture.m_log, [Capture.ArgString (lit "a")])] example_capture))) = [].
Proof.
  destruct (@capture_fifo stub_platform
              [(Capture.m_log, [Capture.ArgString (lit "a")])] example_capture)
    as (_ & _ & Hlast).
  - reflexivity.
  - reflexivity.
  - cbn. lia.
  - destruct (Hlast (Capture.m_error, [Capture.ArgString (lit "b")])) as [Hempty _].
    + reflexivity.
    + exact Hempty.
Defined.
